(** * Verification of the submission pipeline of aiagents-directory

    A shallow embedding of the URL classifier ([auto_directory/filters.py]),
    the URL normaliser ([auto_directory/sources/base.py]), the review,
    enrichment and sourcing services ([auto_directory/services/]) and the
    models they touch ([agents/models.py]), followed by the properties the
    specification states about them.

    Conventions.
    - Python [str] values are [string]s; the string primitives below follow
      CPython on ASCII text (characters above 127 are treated as caseless
      and non-blank).
    - A raised exception is a [None] (URL layer) or an [inl] (service layer).
    - Python floats are represented by the rational number they denote. *)

From Stdlib Require Import Ascii String ZArith QArith Bool Lia DecimalString.
From stdpp Require Import base option list gmap sets strings.

Local Open Scope string_scope.
Local Open Scope list_scope.
Local Open Scope stdpp_scope.

(** ** Python string primitives *)

Module PyStr.

Definition code (c : ascii) : nat := nat_of_ascii c.

Definition is_upper (c : ascii) : bool :=
  Nat.leb 65 (code c) && Nat.leb (code c) 90.

Definition is_alpha (c : ascii) : bool :=
  (Nat.leb 65 (code c) && Nat.leb (code c) 90)
  || (Nat.leb 97 (code c) && Nat.leb (code c) 122).

Definition is_digit (c : ascii) : bool :=
  Nat.leb 48 (code c) && Nat.leb (code c) 57.

(** [str.isspace] on ASCII: TAB..CR, FS..US and the blank. *)
Definition is_space (c : ascii) : bool :=
  (Nat.leb 9 (code c) && Nat.leb (code c) 13)
  || (Nat.leb 28 (code c) && Nat.leb (code c) 32).

Definition lower_char (c : ascii) : ascii :=
  if is_upper c then ascii_of_nat (code c + 32) else c.

(** [s.lower()] *)
Fixpoint lower (s : string) : string :=
  match s with
  | EmptyString => EmptyString
  | String c s' => String (lower_char c) (lower s')
  end.

Fixpoint forallb (f : ascii -> bool) (s : string) : bool :=
  match s with
  | EmptyString => true
  | String c s' => f c && forallb f s'
  end.

(** [s.lstrip(chars)] with the character class given as a predicate. *)
Fixpoint lstrip_by (f : ascii -> bool) (s : string) : string :=
  match s with
  | EmptyString => EmptyString
  | String c s' => if f c then lstrip_by f s' else s
  end.

(** [s.rstrip(chars)] *)
Fixpoint rstrip_by (f : ascii -> bool) (s : string) : string :=
  match s with
  | EmptyString => EmptyString
  | String c s' =>
      match rstrip_by f s' with
      | EmptyString => if f c then EmptyString else String c EmptyString
      | r => String c r
      end
  end.

(** [s.strip()] *)
Definition strip (s : string) : string :=
  rstrip_by is_space (lstrip_by is_space s).

(** [s.rstrip("/")] and the like *)
Definition rstrip_char (c : ascii) (s : string) : string :=
  rstrip_by (Ascii.eqb c) s.

(** [s.startswith(p)] *)
Fixpoint startswith (s p : string) {struct p} : bool :=
  match p with
  | EmptyString => true
  | String a p' =>
      match s with
      | EmptyString => false
      | String b s' => Ascii.eqb a b && startswith s' p'
      end
  end.

(** [s.endswith(suf)] *)
Fixpoint endswith (s suf : string) : bool :=
  String.eqb s suf
  || match s with
     | EmptyString => false
     | String _ s' => endswith s' suf
     end.

(** [sub in s] *)
Fixpoint contains (s sub : string) : bool :=
  startswith s sub
  || match s with
     | EmptyString => false
     | String _ s' => contains s' sub
     end.

(** [c in s] for a single character *)
Fixpoint has_char (c : ascii) (s : string) : bool :=
  match s with
  | EmptyString => false
  | String a s' => Ascii.eqb a c || has_char c s'
  end.

(** [s[n:]] *)
Fixpoint drop (n : nat) (s : string) : string :=
  match n, s with
  | O, _ => s
  | S _, EmptyString => EmptyString
  | S n', String _ s' => drop n' s'
  end.

(** [s[:n]] for [n >= 0] *)
Fixpoint take (n : nat) (s : string) : string :=
  match n, s with
  | O, _ => EmptyString
  | S _, EmptyString => EmptyString
  | S n', String c s' => String c (take n' s')
  end.

(** [s.find(c)]: [None] stands for -1. *)
Fixpoint find_char (c : ascii) (s : string) : option nat :=
  match s with
  | EmptyString => None
  | String a s' =>
      if Ascii.eqb a c then Some O
      else match find_char c s' with
           | Some i => Some (S i)
           | None => None
           end
  end.

(** [s.rfind(c)] *)
Fixpoint rfind_char (c : ascii) (s : string) : option nat :=
  match s with
  | EmptyString => None
  | String a s' =>
      match rfind_char c s' with
      | Some i => Some (S i)
      | None => if Ascii.eqb a c then Some O else None
      end
  end.

(** [s.split(c, 1)]: the part before the first [c] and, when [c] occurs,
    the part after it. *)
Fixpoint split_once (c : ascii) (s : string) : string * option string :=
  match s with
  | EmptyString => (EmptyString, None)
  | String a s' =>
      if Ascii.eqb a c then (EmptyString, Some s')
      else let '(h, t) := split_once c s' in (String a h, t)
  end.

(** [s.split(c)] *)
Fixpoint split (c : ascii) (s : string) : list string :=
  match s with
  | EmptyString => [EmptyString]
  | String a s' =>
      if Ascii.eqb a c then EmptyString :: split c s'
      else match split c s' with
           | h :: t => String a h :: t
           | [] => [String a EmptyString]
           end
  end.

(** [s.replace(c, "")] *)
Fixpoint remove_char (c : ascii) (s : string) : string :=
  match s with
  | EmptyString => EmptyString
  | String a s' =>
      if Ascii.eqb a c then remove_char c s' else String a (remove_char c s')
  end.

(** truthiness of a string *)
Definition nonempty (s : string) : bool :=
  match s with EmptyString => false | _ => true end.

(** ["sep".join(l)] *)
Fixpoint join (sep : string) (l : list string) : string :=
  match l with
  | [] => EmptyString
  | [x] => x
  | x :: t => x +:+ sep +:+ join sep t
  end.

End PyStr.

(** ** [urllib.parse.urlparse]

    The standard-library parser the repository calls, after CPython's
    [urlsplit]/[urlparse] (3.11/3.12) on ASCII input.  Only the validation of
    a bracketed (IPv6 literal) network location, which CPython delegates to
    the [ipaddress] module and which changed between releases, is left to the
    platform. *)

Class UrlLib : Type := { _check_bracketed_netloc : string -> bool }.

(** CPython releases before the bracketed-host validation was introduced
    accept every network location with balanced brackets. *)
Definition lenient_urllib : UrlLib := {| _check_bracketed_netloc := fun _ => true |}.

Module UrlParse.
Import PyStr.

Record ParseResult := mkParseResult {
  scheme : string;
  netloc : string;
  path : string;
  params : string;
  query : string;
  fragment : string
}.

(** [scheme_chars]: letters, digits and [+-.] *)
Definition scheme_char (c : ascii) : bool :=
  is_alpha c || is_digit c
  || Ascii.eqb c "+" || Ascii.eqb c "-" || Ascii.eqb c ".".

(** [_WHATWG_C0_CONTROL_OR_SPACE] *)
Definition c0_or_space (c : ascii) : bool := Nat.leb (code c) 32.

Definition uses_params : list string :=
  [""; "ftp"; "hdl"; "prospero"; "http"; "imap"; "https"; "shttp"; "rtsp";
   "rtspu"; "sip"; "sips"; "mms"; "sftp"; "tel"].

Definition is_netloc_delim (c : ascii) : bool :=
  Ascii.eqb c "/" || Ascii.eqb c "?" || Ascii.eqb c "#".

(** [url[:delim], url[delim:]] where [delim] is the first of [/?#]. *)
Fixpoint span_netloc (s : string) : string * string :=
  match s with
  | EmptyString => (EmptyString, EmptyString)
  | String c s' =>
      if is_netloc_delim c then (EmptyString, s)
      else let '(n, r) := span_netloc s' in (String c n, r)
  end.

(** [_splitnetloc(url, 2)] *)
Definition _splitnetloc (url : string) : string * string :=
  span_netloc (drop 2 url).

(** The scheme test of [urlsplit]: with [i = url.find(':')], the scheme is
    [url[:i].lower()] and the rest [url[i+1:]] when [i > 0], [url[0]] is an
    ASCII letter and every character of [url[:i]] is a scheme character. *)
Definition split_scheme (url : string) : string * string :=
  match split_once ":" url with
  | (String c0 pre', Some rest) =>
      if is_alpha c0 && forallb scheme_char (String c0 pre')
      then (lower (String c0 pre'), rest)
      else (EmptyString, url)
  | _ => (EmptyString, url)
  end.

Definition urlsplit `{UrlLib} (url0 : string)
  : option (string * string * string * string * string) :=
  let url := lstrip_by c0_or_space url0 in
  let url := remove_char "010" (remove_char "013" (remove_char "009" url)) in
  let '(sch, url) := split_scheme url in
  let after_netloc :=
    if startswith url "//" then
      let '(nl, rest) := _splitnetloc url in
      let ob := has_char "[" nl in
      let cb := has_char "]" nl in
      if (ob && negb cb) || (cb && negb ob) then None
      else if ob && cb && negb (_check_bracketed_netloc nl) then None
      else Some (nl, rest)
    else Some (EmptyString, url) in
  match after_netloc with
  | None => None
  | Some (nl, url) =>
      let '(url, frag) :=
        match split_once "#" url with
        | (u, Some f) => (u, f)
        | (u, None) => (u, EmptyString)
        end in
      let '(url, q) :=
        match split_once "?" url with
        | (u, Some q) => (u, q)
        | (u, None) => (u, EmptyString)
        end in
      Some (sch, nl, url, q, frag)
  end.

Definition _splitparams (url : string) : string * string :=
  match rfind_char "/" url with
  | Some k =>
      match find_char ";" (drop k url) with
      | None => (url, EmptyString)
      | Some j => (take (k + j) url, drop (k + j + 1) url)
      end
  | None =>
      match find_char ";" url with
      | Some i => (take i url, drop (i + 1) url)
      | None => (take (String.length url - 1) url, url)
      end
  end.

(** [urlparse(url)]; [None] is the [ValueError] of an invalid bracketed
    network location. *)
Definition urlparse `{UrlLib} (url : string) : option ParseResult :=
  match urlsplit url with
  | None => None
  | Some (sch, nl, url, q, frag) =>
      let '(url, prm) :=
        if existsb (String.eqb sch) uses_params && has_char ";" url
        then _splitparams url
        else (url, EmptyString) in
      Some (mkParseResult sch nl url prm q frag)
  end.

End UrlParse.

(** ** [auto_directory/filters.py] *)

(** The Django settings the classifier reads.  [getattr(settings, ..., [])]
    makes the empty list the default of the four lists and [True] the default
    of the GitHub switch. *)
Record Settings := mkSettings {
  AUTO_DIRECTORY_DOMAIN_BLOCKLIST : list string;
  AUTO_DIRECTORY_AGGREGATOR_DOMAINS : list string;
  AUTO_DIRECTORY_PATH_BLOCKLIST : list string;
  AUTO_DIRECTORY_DOMAIN_ALLOWLIST : list string;
  AUTO_DIRECTORY_GITHUB_VALID : bool
}.

Definition default_settings : Settings := mkSettings [] [] [] [] true.

Module Filters.
Import PyStr UrlParse.

Definition strip_www (domain : string) : string :=
  if startswith domain "www." then drop 4 domain else domain.

(** [parsed.netloc or parsed.path.split("/")[0]] *)
Definition netloc_or_first_segment (parsed : ParseResult) : string :=
  if nonempty (netloc parsed) then netloc parsed
  else fst (split_once "/" (path parsed)).

Definition _get_domain `{UrlLib} (url : string) : string :=
  if negb (nonempty url) then ""
  else match urlparse (strip (lower url)) with
       | Some parsed => strip_www (netloc_or_first_segment parsed)
       | None => ""
       end.

Definition _get_path `{UrlLib} (url : string) : string :=
  if negb (nonempty url) then ""
  else match urlparse (strip (lower url)) with
       | Some parsed => path parsed
       | None => ""
       end.

Definition _domain_matches (domain pattern : string) : bool :=
  if negb (nonempty domain) || negb (nonempty pattern) then false
  else
    let pattern := lower pattern in
    let domain := lower domain in
    if startswith pattern "*." then
      let base := drop 2 pattern in
      String.eqb domain base || endswith domain ("." +:+ base)
    else
      String.eqb domain pattern || endswith domain ("." +:+ pattern).

Definition is_blocked_url `{UrlLib} (cfg : Settings) (url : string) : bool :=
  let domain := _get_domain url in
  let path := _get_path url in
  if existsb (_domain_matches domain) (AUTO_DIRECTORY_DOMAIN_BLOCKLIST cfg)
  then true
  else if existsb (_domain_matches domain) (AUTO_DIRECTORY_AGGREGATOR_DOMAINS cfg)
  then false
  else existsb (fun blocked_path => contains path (lower blocked_path))
               (AUTO_DIRECTORY_PATH_BLOCKLIST cfg).

Definition is_aggregator_url `{UrlLib} (cfg : Settings) (url : string) : bool :=
  existsb (_domain_matches (_get_domain url)) (AUTO_DIRECTORY_AGGREGATOR_DOMAINS cfg).

Definition is_github_url `{UrlLib} (url : string) : bool :=
  let domain := _get_domain url in
  String.eqb domain "github.com" || String.eqb domain "github.io"
  || endswith domain ".github.io".

Definition is_allowlisted_url `{UrlLib} (cfg : Settings) (url : string) : bool :=
  existsb (_domain_matches (_get_domain url)) (AUTO_DIRECTORY_DOMAIN_ALLOWLIST cfg).

Definition root_paths : list string := [""; "/"; "/en"; "/en-us"; "/en-gb"].

Definition is_non_root_url `{UrlLib} (url : string) : bool :=
  let path := rstrip_char "/" (_get_path url) in
  if existsb (String.eqb (lower path)) root_paths then false
  else
    let segments := List.filter nonempty (split "/" path) in
    Nat.ltb 0 (List.length segments).

(** The six classification tags are the string literals of the source. *)
Definition get_url_classification `{UrlLib} (cfg : Settings) (url : string) : string :=
  if is_blocked_url cfg url then "blocked"
  else if is_aggregator_url cfg url then "aggregator"
  else if is_github_url url then
    if AUTO_DIRECTORY_GITHUB_VALID cfg then "github" else "blocked"
  else if is_allowlisted_url cfg url then "allowlist"
  else if is_non_root_url url then "non_root"
  else "normal".

Definition get_block_reason `{UrlLib} (cfg : Settings) (url : string) : option string :=
  let domain := _get_domain url in
  let path := _get_path url in
  match List.find (_domain_matches domain) (AUTO_DIRECTORY_DOMAIN_BLOCKLIST cfg) with
  | Some blocked_domain =>
      Some ("Domain '" +:+ blocked_domain +:+ "' is in blocklist")
  | None =>
      match List.find (fun blocked_path => contains (lower path) (lower blocked_path))
                      (AUTO_DIRECTORY_PATH_BLOCKLIST cfg) with
      | Some blocked_path =>
          Some ("Path contains blocked pattern '" +:+ blocked_path +:+ "'")
      | None => None
      end
  end.

Definition URLClassification : list string :=
  ["blocked"; "aggregator"; "github"; "allowlist"; "non_root"; "normal"].

(** The two blocklist scans of [is_blocked_url], named for the
    statements. *)
Definition domain_blocked `{UrlLib} (cfg : Settings) (url : string) : bool :=
  existsb (_domain_matches (_get_domain url)) (AUTO_DIRECTORY_DOMAIN_BLOCKLIST cfg).

Definition path_blocked `{UrlLib} (cfg : Settings) (url : string) : bool :=
  existsb (fun blocked_path => contains (_get_path url) (lower blocked_path))
          (AUTO_DIRECTORY_PATH_BLOCKLIST cfg).

End Filters.

(** ** [auto_directory/sources/base.py] *)

Module Base.
Import PyStr UrlParse.

Record DiscoveredAgent := mkDiscoveredAgent {
  name : string;
  website : string;
  description : string;
  source_id : string;
  source_url : string
}.

(** [DiscoveredAgent.__post_init__] *)
Definition __post_init__ (a : DiscoveredAgent) : DiscoveredAgent :=
  let website :=
    if nonempty (website a)
       && negb (startswith (website a) "http://" || startswith (website a) "https://")
    then "https://" +:+ website a
    else website a in
  mkDiscoveredAgent (strip (name a)) (strip website) (strip (description a))
                    (source_id a) (source_url a).

(** [normalize_url]; [None] is the [ValueError] escaping from [urlparse]. *)
Definition normalize_url `{UrlLib} (url : string) : option string :=
  if negb (nonempty url) then Some ""
  else
    match urlparse (strip (lower url)) with
    | None => None
    | Some parsed =>
        let host := Filters.netloc_or_first_segment parsed in
        let host := Filters.strip_www host in
        let path0 := rstrip_char "/" (path parsed) in
        let '(host, path0) :=
          if negb (nonempty (netloc parsed)) && has_char "/" (path parsed) then
            match split_once "/" (path parsed) with
            | (h, Some rest) =>
                (Filters.strip_www h, "/" +:+ rstrip_char "/" rest)
            | (h, None) => (Filters.strip_www h, "")
            end
          else (host, path0) in
        Some (host +:+ path0)
    end.

End Base.

(** ** Shapes of URLs used in the statements *)

Module UrlShape.
Import PyStr.

(** Letters, digits, [-] and [.]: the characters of a host name. *)
Definition host_char (c : ascii) : bool :=
  is_alpha c || is_digit c || Ascii.eqb c "-" || Ascii.eqb c ".".

(** Printable ASCII other than the blank and the delimiters [?], [#]
    and [;]. *)
Definition path_char (c : ascii) : bool :=
  Nat.ltb 32 (code c) && Nat.ltb (code c) 127
  && negb (Ascii.eqb c "?") && negb (Ascii.eqb c "#") && negb (Ascii.eqb c ";").

(** A non-empty host name without port or user information. *)
Definition plain_host (h : string) : bool := nonempty h && forallb host_char h.

(** The empty path, or a path starting with [/] made of path characters. *)
Definition plain_path (p : string) : bool :=
  match p with
  | EmptyString => true
  | String c _ => Ascii.eqb c "/" && forallb path_char p
  end.

Definition http_scheme (s : string) : bool :=
  String.eqb s "http" || String.eqb s "https".

(** Printable ASCII other than the blank. *)
Definition url_char (c : ascii) : bool :=
  Nat.ltb 32 (code c) && Nat.ltb (code c) 127.

Definition no_upper (c : ascii) : bool := negb (is_upper c).

End UrlShape.

(** ** [agents/models.py] and [auto_directory/schemas.py] *)

Module Models.
Import PyStr.

Inductive SubmissionStatus := PENDING | APPROVED | REJECTED.
Inductive SubmissionSource := FORM | AUTO.
Inductive AgentStatus := DRAFT | SUBMITTED | PUBLISHED | ARCHIVED.

Definition status_eqb (a b : SubmissionStatus) : bool :=
  match a, b with
  | PENDING, PENDING | APPROVED, APPROVED | REJECTED, REJECTED => true
  | _, _ => false
  end.

(** An entry of a JSON object: the key is absent, holds [null], or holds a
    value. *)
Inductive Field (A : Type) := Missing | Null | Present (a : A).
Arguments Missing {A}.
Arguments Null {A}.
Arguments Present {A} a.

(** [d.get(key)] *)
Definition get {A} (f : Field A) : option A :=
  match f with Present a => Some a | _ => None end.

(** [d.get(key, default)] *)
Definition get_default {A} (f : Field A) (default : A) : option A :=
  match f with Present a => Some a | Null => None | Missing => Some default end.

(** The object extracted under [AgentEnrichmentSchema]. *)
Record ContentData := mkContentData {
  short_description : Field string;
  description : Field string;
  features : Field (list string);
  use_cases : Field (list string);
  pricing_model : Field string;
  category : Field string;
  is_open_source : Field bool;
  industry : Field string;
  twitter_url : Field string;
  linkedin_url : Field string;
  demo_video_url : Field string
}.

Definition field_missing {A} (f : Field A) : bool :=
  match f with Missing => true | _ => false end.

(** truthiness of the [content_data] dict: false exactly for [{}] *)
Definition content_nonempty (c : ContentData) : bool :=
  negb (field_missing (short_description c) && field_missing (description c)
        && field_missing (features c) && field_missing (use_cases c)
        && field_missing (pricing_model c) && field_missing (category c)
        && field_missing (is_open_source c) && field_missing (industry c)
        && field_missing (twitter_url c) && field_missing (linkedin_url c)
        && field_missing (demo_video_url c)).

Definition empty_content : ContentData :=
  mkContentData Missing Missing Missing Missing Missing Missing Missing
                Missing Missing Missing Missing.

Record Branding := mkBranding {
  branding_logo : option string;
  images_logo : option string;
  images_ogImage : option string
}.

(** [schemas.EnrichmentResult] *)
Record EnrichmentResult := mkEnrichmentResult {
  success : bool;
  error_message : option string;
  content_data : option ContentData;
  branding_data : option Branding;
  logo_url : option string;
  markdown : option string;
  screenshot_url : option string;
  og_url : option string;
  final_url : option string
}.

(** [EnrichmentResult.from_error] *)
Definition from_error (msg : string) : EnrichmentResult :=
  mkEnrichmentResult false (Some msg) None None None None None None None.

Inductive ReviewDecision := approved | rejected | needs_review.

(** [schemas.ReviewResult]; [confidence] is validated to lie in [0, 1]. *)
Record ReviewResult := mkReviewResult {
  decision : ReviewDecision;
  is_ai_agent : bool;
  confidence : Q;
  reasoning : string;
  flags : list string;
  auto_applied : bool
}.

(** The [_sourcing_metadata] object written by the sourcing service; the
    four flags are keys that are either absent or [True]. *)
Record SourcingMetadata := mkSourcingMetadata {
  url_classification : string;
  meta_source_id : string;
  is_aggregator : bool;
  needs_url_extraction : bool;
  is_github : bool;
  potential_open_source : bool
}.

Record UrlExtraction := mkUrlExtraction {
  original_url : string;
  extracted_url : string;
  extraction_performed : bool
}.

Record NameVerification := mkNameVerification {
  submitted_name : string;
  matches : bool;
  extracted_name : option string;
  nv_confidence : Q;
  should_update : bool
}.

(** The JSON object stored in [AgentSubmission.enrichment_data]:
    [ed_result] holds the keys of [EnrichmentResult.to_dict()] (present
    once an enrichment has been stored), the other fields the bookkeeping
    keys, each absent ([None]/[false]) or present. *)
Record EnrichmentData := mkEnrichmentData {
  ed_result : option EnrichmentResult;
  _url_extraction : option UrlExtraction;
  _sourcing_metadata : option SourcingMetadata;
  _name_verification : option NameVerification;
  _canonical_url : option string;
  _logo_downloaded : bool;
  _logo_download_failed : bool;
  _screenshot_downloaded : bool;
  _screenshot_download_failed : bool
}.

Definition of_result (r : EnrichmentResult) : EnrichmentData :=
  mkEnrichmentData (Some r) None None None None false false false false.

(** truthiness of the stored dict: false for [{}] *)
Definition enrichment_nonempty (d : EnrichmentData) : bool :=
  match ed_result d, _url_extraction d, _sourcing_metadata d,
        _name_verification d, _canonical_url d with
  | None, None, None, None, None =>
      _logo_downloaded d || _logo_download_failed d
      || _screenshot_downloaded d || _screenshot_download_failed d
  | _, _, _, _, _ => true
  end.

Record Agent := mkAgent {
  agent_pk : Z;
  agent_name_ : string;
  agent_slug : string;
  agent_short_description : string;
  agent_description_ : string;
  agent_website_ : string;
  agent_logo : string;
  agent_order : Z;
  agent_featured : bool;
  agent_is_open_source : option bool;
  agent_pricing_model : string;
  agent_industry : string;
  agent_twitter_url : option string;
  agent_linkedin_url : option string;
  agent_demo_video_url : option string;
  agent_status : AgentStatus
}.

Record Category := mkCategory {
  category_pk : Z;
  category_name : string;
  category_slug : string
}.

(** A [Feature] or [UseCase] row *)
Record Named := mkNamed { named_agent : Z; named_name : string }.

Record Screenshot := mkScreenshot {
  screenshot_agent : Z;
  screenshot_image : string;
  screenshot_is_primary : bool
}.

(** [AgentSubmission] (the timestamps are left out) *)
Record AgentSubmission := mkAgentSubmission {
  pk : Z;
  email : option string;
  agent_name : string;
  agent_website : string;
  agent_description : string;
  source : SubmissionSource;
  agent : option Z;
  status : SubmissionStatus;
  reviewer : option Z;
  reviewer_notes : string;
  ai_review_result : option ReviewResult;
  enrichment_data : option EnrichmentData;
  logo : option string;
  screenshot : option string;
  needs_manual_review : bool
}.

(** [auto_directory.models.SourcingRun] *)
Record SourcingRun := mkSourcingRun {
  run_pk : Z;
  run_source_id : string;
  discovered_count : nat;
  new_count : nat;
  skipped_count : nat;
  run_success : bool;
  run_error_message : string;
  created_submission_ids : list Z;
  run_completed : bool
}.

(** The next key of each table whose keys the model hands out: every
    table has a sequence of its own. *)
Record Sequences := mkSequences {
  seq_agent : Z;
  seq_category : Z;
  seq_submission : Z;
  seq_run : Z
}.

(** The database.  [agents] is kept in the default ordering of the model,
    so that [QuerySet.first()] is the first match in the list. *)
Record Db := mkDb {
  agents : list Agent;
  categories : list Category;
  agent_categories : list (Z * Z);
  feature_set : list Named;
  use_case_set : list Named;
  screenshots : list Screenshot;
  submissions : list AgentSubmission;
  sourcing_runs : list SourcingRun;
  sequences : Sequences
}.

Definition empty_db : Db := mkDb [] [] [] [] [] [] [] [] (mkSequences 1 1 1 1).

Abbreviation next_agent_pk d := (seq_agent (sequences d)).
Abbreviation next_category_pk d := (seq_category (sequences d)).
Abbreviation next_submission_pk d := (seq_submission (sequences d)).
Abbreviation next_run_pk d := (seq_run (sequences d)).

Definition set_agents (d : Db) (l : list Agent) : Db :=
  mkDb l (categories d) (agent_categories d) (feature_set d) (use_case_set d)
       (screenshots d) (submissions d) (sourcing_runs d) (sequences d).

Definition set_submissions (d : Db) (l : list AgentSubmission) : Db :=
  mkDb (agents d) (categories d) (agent_categories d) (feature_set d)
       (use_case_set d) (screenshots d) l (sourcing_runs d) (sequences d).

Definition set_sourcing_runs (d : Db) (l : list SourcingRun) : Db :=
  mkDb (agents d) (categories d) (agent_categories d) (feature_set d)
       (use_case_set d) (screenshots d) (submissions d) l (sequences d).

Definition set_sequences (d : Db) (s : Sequences) : Db :=
  mkDb (agents d) (categories d) (agent_categories d) (feature_set d)
       (use_case_set d) (screenshots d) (submissions d) (sourcing_runs d) s.

(** The key handed out is used up, in the sequence of its table only. *)
Definition bump_agent_pk (d : Db) : Db :=
  let s := sequences d in
  set_sequences d (mkSequences (seq_agent s + 1) (seq_category s) (seq_submission s)
                               (seq_run s)).

Definition bump_category_pk (d : Db) : Db :=
  let s := sequences d in
  set_sequences d (mkSequences (seq_agent s) (seq_category s + 1) (seq_submission s)
                               (seq_run s)).

Definition bump_submission_pk (d : Db) : Db :=
  let s := sequences d in
  set_sequences d (mkSequences (seq_agent s) (seq_category s) (seq_submission s + 1)
                               (seq_run s)).

Definition bump_run_pk (d : Db) : Db :=
  let s := sequences d in
  set_sequences d (mkSequences (seq_agent s) (seq_category s) (seq_submission s)
                               (seq_run s + 1)).

(** The columns of a submission row that [save(update_fields=...)] can
    name. *)
Inductive SubmissionField :=
| f_agent_name | f_agent_website | f_enrichment_data | f_logo | f_screenshot
| f_status | f_agent | f_reviewer_notes | f_ai_review_result
| f_needs_manual_review.

Definition field_eqb (a b : SubmissionField) : bool :=
  match a, b with
  | f_agent_name, f_agent_name | f_agent_website, f_agent_website
  | f_enrichment_data, f_enrichment_data | f_logo, f_logo
  | f_screenshot, f_screenshot | f_status, f_status | f_agent, f_agent
  | f_reviewer_notes, f_reviewer_notes
  | f_ai_review_result, f_ai_review_result
  | f_needs_manual_review, f_needs_manual_review => true
  | _, _ => false
  end.

Definition all_fields : list SubmissionField :=
  [f_agent_name; f_agent_website; f_enrichment_data; f_logo; f_screenshot;
   f_status; f_agent; f_reviewer_notes; f_ai_review_result;
   f_needs_manual_review].

(** The row [old] with the columns in [fs] taken from the object [new]. *)
Definition update_row (fs : list SubmissionField) (new old : AgentSubmission)
  : AgentSubmission :=
  let pick {A} (f : SubmissionField) (proj : AgentSubmission -> A) : A :=
    if existsb (field_eqb f) fs then proj new else proj old in
  mkAgentSubmission (pk old) (email old)
    (pick f_agent_name agent_name) (pick f_agent_website agent_website)
    (agent_description old) (source old) (pick f_agent agent)
    (pick f_status status) (reviewer old)
    (pick f_reviewer_notes reviewer_notes)
    (pick f_ai_review_result ai_review_result)
    (pick f_enrichment_data enrichment_data)
    (pick f_logo logo) (pick f_screenshot screenshot)
    (pick f_needs_manual_review needs_manual_review).

(** [submission.save(update_fields=fs)]: an UPDATE of the row with the
    object's primary key. *)
Definition save_fields (fs : list SubmissionField) (s : AgentSubmission) (d : Db) : Db :=
  set_submissions d
    (List.map (fun row => if Z.eqb (pk row) (pk s) then update_row fs s row else row)
              (submissions d)).

(** [submission.save()]: every column is written; a row that does not
    exist yet is inserted. *)
Definition save (s : AgentSubmission) (d : Db) : Db :=
  if existsb (fun row => Z.eqb (pk row) (pk s)) (submissions d)
  then set_submissions d
         (List.map (fun row => if Z.eqb (pk row) (pk s) then s else row) (submissions d))
  else set_submissions d (submissions d ++ [s]).

Definition get_submission (d : Db) (k : Z) : option AgentSubmission :=
  List.find (fun row => Z.eqb (pk row) k) (submissions d).

End Models.

(** ** The collaborators of the services *)

Module World.
Import PyStr Models.

(** What a call into a collaborator does: raise or return. *)
Inductive Outcome (A : Type) := Raised (msg : string) | Returned (a : A).
Arguments Raised {A} msg.
Arguments Returned {A} a.

(** The [json] attribute of the narrow aggregator scrape. *)
Record AggregatorJson := mkAggregatorJson {
  product_website : option string;
  product_confidence : Field Q
}.

(** The response of the full scrape; [resp_metadata] holds [og_url] and
    [url]. *)
Record ScrapeResponse := mkScrapeResponse {
  resp_branding : option Branding;
  resp_json : option ContentData;
  resp_metadata : option (option string * option string);
  resp_markdown : option string;
  resp_screenshot : option string
}.

(** The three regular expressions of [_extract_canonical_url]. *)
Inductive CanonicalPattern := link_rel_href | link_href_rel | canonical_text.

Record Env := mkEnv {
  (** [django.utils.text.slugify] *)
  slugify : string -> string;
  (** [re.search(pattern, markdown, re.IGNORECASE)] and its group 1 *)
  re_search : CanonicalPattern -> string -> option string;
  (** [review_agent.run_sync(prompt).output] *)
  run_sync : string -> Outcome ReviewResult;
  (** [client.scrape(url, formats=[json with the aggregator schema])]:
      no response, a response without [json], or the extracted object *)
  scrape_aggregator : string -> Outcome (option (option AggregatorJson));
  (** [client.scrape(url, formats=[markdown, screenshot, branding, json])] *)
  scrape : string -> Outcome (option ScrapeResponse);
  (** The media helpers do file and network I/O and swallow their own
      exceptions: each returns the stored file name when it succeeds.  The
      two submission helpers read nothing of the submission but its primary
      key. *)
  _download_submission_logo : Z -> string -> option string;
  _download_submission_screenshot : Z -> string -> option string;
  _copy_submission_logo_to_agent : AgentSubmission -> Agent -> option string;
  _copy_submission_screenshot_to_agent : AgentSubmission -> Agent -> option string;
  _download_logo : Agent -> string -> option string;
  _download_screenshot : Agent -> string -> option string;
  (** [EnrichmentService()], that is [Firecrawl(api_key=...)] in its
      [__init__]: it raises when the client cannot be built *)
  EnrichmentService_init : Outcome unit
}.

(** Calls that leave the process, and writes of a submission row, in the
    order they happen. *)
Inductive Event :=
| EvRunSync (prompt : string)
| EvScrapeAggregator (url : string)
| EvScrape (url : string)
| EvSaveSubmission (row : AgentSubmission) (update_fields : list SubmissionField).

Record St := mkSt { db : Db; trace : list Event }.

Definition log (e : Event) (st : St) : St := mkSt (db st) (trace st ++ [e]).
Definition with_db (f : Db -> Db) (st : St) : St := mkSt (f (db st)) (trace st).

Inductive Exn :=
| EnrichmentError (msg : string)
| DuplicateAgentError (msg : string) (existing_agent : Agent)
| ValueError (msg : string)
| TypeError (msg : string)
| IntegrityError (msg : string).

(** [str(e)] *)
Definition str_of_exn (e : Exn) : string :=
  match e with
  | EnrichmentError msg | DuplicateAgentError msg _ | ValueError msg
  | TypeError msg | IntegrityError msg => msg
  end.

(** [str(n)] *)
Definition str_of_Z (z : Z) : string := NilZero.string_of_int (Z.to_int z).

(** The newline of the f-strings *)
Definition nl : string := String "010" EmptyString.

End World.

(** ** [auto_directory/services/review.py] *)

Module Review.
Import PyStr Models World.

Definition Qlt_bool (x y : Q) : bool := negb (Qle_bool y x).

(** The float literal [0.7], that is the double 0x3FE6666666666666. *)
Definition CONFIDENCE_THRESHOLD : Q := (3152519739159347 # 4503599627370496)%Q.

Record ReviewService := mkReviewService { confidence_threshold : Q }.

(** [ReviewService.__init__]: [confidence_threshold or CONFIDENCE_THRESHOLD] *)
Definition __init__ (threshold : option Q) : ReviewService :=
  match threshold with
  | Some t => if Qeq_bool t 0%Q then mkReviewService CONFIDENCE_THRESHOLD
              else mkReviewService t
  | None => mkReviewService CONFIDENCE_THRESHOLD
  end.

Definition truthy (f : Field string) : option string :=
  match f with
  | Present s => if nonempty s then Some s else None
  | _ => None
  end.

Definition truthy_list (f : Field (list string)) : option (list string) :=
  match f with
  | Present (x :: l) => Some (x :: l)
  | _ => None
  end.

Definition part (label : string) (v : option string) : list string :=
  match v with
  | Some s => [nl +:+ label +:+ s]
  | None => []
  end.

Definition bullets (l : list string) : string :=
  join nl (List.map (fun f => "- " +:+ f) l).

Definition _build_review_prompt (name website : string)
    (enrichment_data : option EnrichmentData) (raw_markdown : option string) : string :=
  let parts := ["## AGENT NAME" +:+ nl +:+ name; nl +:+ "## WEBSITE" +:+ nl +:+ website] in
  let parts :=
    match enrichment_data with
    | Some data =>
        if enrichment_nonempty data then
          let content :=
            match ed_result data with
            | Some r => match content_data r with
                        | Some c => c
                        | None => empty_content
                        end
            | None => empty_content
            end in
          parts
          ++ [nl +:+ "## ENRICHMENT DATA (structured extraction from website)"]
          ++ part "**Short Description:** " (truthy (short_description content))
          ++ part "**Full Description:** " (truthy (description content))
          ++ part ("**Features:**" +:+ nl) (option_map bullets (truthy_list (features content)))
          ++ part ("**Use Cases:**" +:+ nl) (option_map bullets (truthy_list (use_cases content)))
          ++ part "**Category:** " (truthy (category content))
          ++ part "**Industry:** " (truthy (industry content))
          ++ part "**Pricing:** " (truthy (pricing_model content))
        else parts
    | None => parts
    end in
  let parts :=
    match raw_markdown with
    | Some md =>
        if nonempty md then
          let truncated := take 4000 md in
          let truncated :=
            if Nat.ltb 4000 (String.length md)
            then truncated +:+ nl +:+ nl +:+ "[... content truncated ...]"
            else truncated in
          parts ++ [nl +:+ "## RAW MARKDOWN (full page content)" +:+ nl +:+ truncated]
        else parts
    | None => parts
    end in
  join nl parts.

(** [ReviewService.review]: a failure of the gateway becomes a
    [needs_review] result. *)
Definition review (env : Env) (name website : string)
    (enrichment_data : option EnrichmentData) (raw_markdown : option string)
    (st : St) : ReviewResult * St :=
  let prompt := _build_review_prompt name website enrichment_data raw_markdown in
  let st := log (EvRunSync prompt) st in
  match run_sync env prompt with
  | Returned output => (output, st)
  | Raised e =>
      (mkReviewResult needs_review false 0%Q
         ("Review failed due to error: " +:+ e) ["review_error"] false, st)
  end.

Definition set_review (s : AgentSubmission) (r : ReviewResult) (needs_manual : bool)
    (new_status : SubmissionStatus) : AgentSubmission :=
  mkAgentSubmission (pk s) (email s) (agent_name s) (agent_website s)
    (agent_description s) (source s) (agent s) new_status (reviewer s)
    (reviewer_notes s) (Some r) (enrichment_data s) (logo s) (screenshot s)
    needs_manual.

(** [ReviewService.review_submission] *)
Definition review_submission (env : Env) (self : ReviewService)
    (submission : AgentSubmission) (auto_apply : bool) (st : St)
  : AgentSubmission * St :=
  let enrichment :=
    match enrichment_data submission with
    | Some d => if enrichment_nonempty d then Some d else None
    | None => None
    end in
  let raw_markdown :=
    match enrichment with
    | Some d => match ed_result d with Some r => markdown r | None => None end
    | None => None
    end in
  let '(result, st) :=
    review env (agent_name submission) (agent_website submission)
           enrichment raw_markdown st in
  let needs_manual := Qlt_bool (confidence result) (confidence_threshold self) in
  let should_apply :=
    auto_apply && negb needs_manual
    && match decision result with
       | approved | rejected => true
       | needs_review => false
       end in
  let result :=
    mkReviewResult (decision result) (is_ai_agent result) (confidence result)
                   (reasoning result) (flags result) should_apply in
  let new_status :=
    if should_apply then
      match decision result with
      | approved => APPROVED
      | rejected => REJECTED
      | needs_review => status submission
      end
    else status submission in
  let submission := set_review submission result needs_manual new_status in
  let st := log (EvSaveSubmission submission all_fields) (with_db (save submission) st) in
  (submission, st).

End Review.

(** ** [auto_directory/services/enrichment.py] *)

Module Enrichment.
Import PyStr UrlParse Models World.

Definition is_http_url (url : string) : bool :=
  startswith url "http://" || startswith url "https://".

Definition some_nonempty (o : option string) : option string :=
  match o with
  | Some s => if nonempty s then Some s else None
  | None => None
  end.

Definition is_valid_video_url (url : option string) : bool :=
  match some_nonempty url with
  | None => false
  | Some url =>
      let url_lower := lower url in
      if existsb (endswith url_lower)
                 [".png"; ".jpg"; ".jpeg"; ".gif"; ".webp"; ".svg"; ".bmp"]
      then false
      else existsb (contains url_lower)
                   ["youtube.com"; "youtu.be"; "vimeo.com"; "loom.com"]
  end.

(** [_is_svg_url]; [None] is the [ValueError] of [urlparse]. *)
Definition _is_svg_url `{UrlLib} (url : string) : option bool :=
  if negb (nonempty url) then Some false
  else match urlparse url with
       | Some parsed => Some (endswith (lower (path parsed)) ".svg")
       | None => None
       end.

(** [url and not self._is_svg_url(url)] *)
Definition usable_logo `{UrlLib} (url : option string) : option bool :=
  match some_nonempty url with
  | None => Some false
  | Some u => option_map negb (_is_svg_url u)
  end.

Definition _extract_best_logo_url `{UrlLib} (branding : option Branding)
  : option (option string) :=
  match branding with
  | None => Some None
  | Some b =>
      let logo_primary := branding_logo b in
      let logo_images := images_logo b in
      let og_image := images_ogImage b in
      match usable_logo logo_primary with
      | None => None
      | Some true => Some logo_primary
      | Some false =>
      match usable_logo logo_images with
      | None => None
      | Some true => Some logo_images
      | Some false =>
      match usable_logo og_image with
      | None => None
      | Some true => Some og_image
      | Some false =>
          match some_nonempty logo_primary, some_nonempty logo_images with
          | Some u, _ => Some (Some u)
          | None, Some u => Some (Some u)
          | None, None => Some None
          end
      end end end
  end.

(** [EnrichmentService.enrich]: every failure of the scrape is returned as
    a result with [success=False]. *)
Definition enrich `{UrlLib} (env : Env) (url : string) (st : St)
  : EnrichmentResult * St :=
  let st := log (EvScrape url) st in
  match scrape env url with
  | Raised e => (from_error ("Firecrawl scrape failed: " +:+ e), st)
  | Returned None => (from_error "No response from Firecrawl", st)
  | Returned (Some response) =>
      match _extract_best_logo_url (resp_branding response) with
      | None => (from_error ("Firecrawl scrape failed: " +:+ "Invalid IPv6 URL"), st)
      | Some logo =>
          let '(og, final) :=
            match resp_metadata response with
            | Some (og, final) => (og, final)
            | None => (None, None)
            end in
          (mkEnrichmentResult true None (resp_json response)
             (resp_branding response) logo (resp_markdown response)
             (resp_screenshot response) og final, st)
      end
  end.

(** The float literal [0.5] *)
Definition EXTRACTION_CONFIDENCE : Q := (1 # 2)%Q.

(** [_extract_product_url_from_aggregator] *)
Definition _extract_product_url_from_aggregator (env : Env) (aggregator_url : string)
    (st : St) : option string * St :=
  let st := log (EvScrapeAggregator aggregator_url) st in
  match scrape_aggregator env aggregator_url with
  | Raised _ => (None, st)
  | Returned None => (None, st)
  | Returned (Some None) => (None, st)
  | Returned (Some (Some json_data)) =>
      match some_nonempty (product_website json_data) with
      | None => (None, st)
      | Some product_url =>
          match get_default (product_confidence json_data) 0%Q with
          | None => (None, st)
          | Some c =>
              if Qle_bool EXTRACTION_CONFIDENCE c && is_http_url product_url
              then (Some product_url, st)
              else (None, st)
          end
      end
  end.

Definition _verify_agent_name (submitted_name : string) (content : ContentData)
  : NameVerification :=
  let submitted_lower := strip (lower submitted_name) in
  let short_desc := get_default (short_description content) "" in
  match some_nonempty short_desc with
  | Some d =>
      if negb (contains (lower d) submitted_lower)
      then mkNameVerification submitted_name false None (1 # 2)%Q false
      else mkNameVerification submitted_name true None 0%Q false
  | None => mkNameVerification submitted_name true None 0%Q false
  end.

Definition _extract_canonical_url (env : Env) (md : string) : option string :=
  if negb (nonempty md) then None
  else
    let try_pattern (p : CanonicalPattern) : option string :=
      match re_search env p md with
      | Some url => if is_http_url url then Some url else None
      | None => None
      end in
    match try_pattern link_rel_href with
    | Some u => Some u
    | None => match try_pattern link_href_rel with
              | Some u => Some u
              | None => try_pattern canonical_text
              end
    end.

Definition set_website (s : AgentSubmission) (w : string) : AgentSubmission :=
  mkAgentSubmission (pk s) (email s) (agent_name s) w (agent_description s)
    (source s) (agent s) (status s) (reviewer s) (reviewer_notes s)
    (ai_review_result s) (enrichment_data s) (logo s) (screenshot s)
    (needs_manual_review s).

Definition set_name (s : AgentSubmission) (n : string) : AgentSubmission :=
  mkAgentSubmission (pk s) (email s) n (agent_website s) (agent_description s)
    (source s) (agent s) (status s) (reviewer s) (reviewer_notes s)
    (ai_review_result s) (enrichment_data s) (logo s) (screenshot s)
    (needs_manual_review s).

Definition set_enrichment (s : AgentSubmission) (d : EnrichmentData)
    (lg sc : option string) : AgentSubmission :=
  mkAgentSubmission (pk s) (email s) (agent_name s) (agent_website s)
    (agent_description s) (source s) (agent s) (status s) (reviewer s)
    (reviewer_notes s) (ai_review_result s) (Some d) lg sc
    (needs_manual_review s).

(** [submission.enrichment_data.get("_sourcing_metadata", {})], with the
    empty dict as [None] *)
Definition sourcing_metadata_of (submission : AgentSubmission) : option SourcingMetadata :=
  match enrichment_data submission with
  | Some d => if enrichment_nonempty d then _sourcing_metadata d else None
  | None => None
  end.

(** The first part of [enrich_submission]: the aggregator indirection.
    Returns [url_to_enrich] and the submission object. *)
Definition resolve_aggregator `{UrlLib} (cfg : Settings) (env : Env)
    (submission : AgentSubmission) (sourcing_metadata : option SourcingMetadata)
    (st : St) : string * AgentSubmission * St :=
  let original_url := agent_website submission in
  if Filters.is_aggregator_url cfg original_url
     || match sourcing_metadata with Some m => is_aggregator m | None => false end
  then
    let '(extracted, st) := _extract_product_url_from_aggregator env original_url st in
    match some_nonempty extracted with
    | Some extracted_url =>
        if negb (String.eqb extracted_url original_url) then
          let submission := set_website submission extracted_url in
          let st := log (EvSaveSubmission submission [f_agent_website])
                        (with_db (save_fields [f_agent_website] submission) st) in
          (extracted_url, submission, st)
        else (original_url, submission, st)
    | None => (original_url, submission, st)
    end
  else (original_url, submission, st).

(** The second part of [enrich_submission], after the scrape: the
    enrichment dict is built, the media are downloaded and the row is
    saved. *)
Definition store_enrichment (env : Env) (original_url url_to_enrich : string)
    (sourcing_metadata : option SourcingMetadata) (submission : AgentSubmission)
    (result : EnrichmentResult) (st : St) : AgentSubmission * St :=
  let url_extraction :=
    if negb (String.eqb original_url url_to_enrich)
    then Some (mkUrlExtraction original_url url_to_enrich true)
    else None in
  let name_info :=
    match content_data result with
    | Some c =>
        if success result && content_nonempty c
        then Some (_verify_agent_name (agent_name submission) c)
        else None
    | None => None
    end in
  let submission :=
    match name_info with
    | Some info =>
        match should_update info, some_nonempty (extracted_name info) with
        | true, Some n => set_name submission (take 200 n)
        | _, _ => submission
        end
    | None => submission
    end in
  let canonical :=
    match some_nonempty (og_url result) with
    | Some c => Some c
    | None =>
        match some_nonempty (markdown result) with
        | Some md => some_nonempty (_extract_canonical_url env md)
        | None => None
        end
    end in
  let logo_saved :=
    if success result then
      match some_nonempty (logo_url result) with
      | Some u => Some (_download_submission_logo env (pk submission) u)
      | None => None
      end
    else None in
  let shot_saved :=
    if success result then
      match some_nonempty (screenshot_url result) with
      | Some u => Some (_download_submission_screenshot env (pk submission) u)
      | None => None
      end
    else None in
  let flag_ok (o : option (option string)) : bool :=
    match o with Some (Some _) => true | _ => false end in
  let flag_failed (o : option (option string)) : bool :=
    match o with Some None => true | _ => false end in
  let new_file (o : option (option string)) (old : option string) : option string :=
    match o with Some (Some f) => Some f | _ => old end in
  let enrichment_dict :=
    mkEnrichmentData (Some result) url_extraction sourcing_metadata name_info
      canonical (flag_ok logo_saved) (flag_failed logo_saved)
      (flag_ok shot_saved) (flag_failed shot_saved) in
  let submission :=
    set_enrichment submission enrichment_dict
      (new_file logo_saved (logo submission))
      (new_file shot_saved (screenshot submission)) in
  let fields_to_update :=
    [f_enrichment_data; f_agent_name; f_agent_website]
    ++ (if flag_ok logo_saved then [f_logo] else [])
    ++ (if flag_ok shot_saved then [f_screenshot] else []) in
  let st := log (EvSaveSubmission submission fields_to_update)
                (with_db (save_fields fields_to_update submission) st) in
  (submission, st).

(** [EnrichmentService.enrich_submission] *)
Definition enrich_submission `{UrlLib} (cfg : Settings) (env : Env)
    (submission : AgentSubmission) (st : St) : AgentSubmission * St :=
  let original_url := agent_website submission in
  let sourcing_metadata := sourcing_metadata_of submission in
  let '(url_to_enrich, submission, st) :=
    resolve_aggregator cfg env submission sourcing_metadata st in
  let '(result, st) := enrich env url_to_enrich st in
  store_enrichment env original_url url_to_enrich sourcing_metadata submission result st.

(** [Agent.objects.filter(name__iexact=...)] *)
Definition iexact (a b : string) : bool := String.eqb (lower a) (lower b).

Definition describe (a : Agent) : string :=
  "'" +:+ agent_name_ a +:+ "' (id=" +:+ str_of_Z (agent_pk a) +:+ ")".

(** [_check_for_duplicate_agent] *)
Definition _check_for_duplicate_agent (env : Env) (d : Db) (submission : AgentSubmission)
  : Exn + unit :=
  match List.find (fun a => String.eqb (agent_website_ a) (agent_website submission))
                  (agents d) with
  | Some existing =>
      inl (DuplicateAgentError
             ("Agent with website '" +:+ agent_website submission
              +:+ "' already exists: " +:+ describe existing) existing)
  | None =>
  match List.find (fun a => iexact (agent_name_ a) (agent_name submission)) (agents d) with
  | Some existing =>
      inl (DuplicateAgentError
             ("Agent with name '" +:+ agent_name submission
              +:+ "' already exists: " +:+ describe existing) existing)
  | None =>
  let slug := slugify env (agent_name submission) in
  match List.find (fun a => String.eqb (agent_slug a) slug) (agents d) with
  | Some existing =>
      inl (DuplicateAgentError
             ("Agent with slug '" +:+ slug
              +:+ "' already exists: " +:+ describe existing) existing)
  | None => inr tt
  end end end.

(** The default ordering of [Agent]: featured first, then [order], then
    [name]. *)
Definition agent_before (a b : Agent) : bool :=
  match agent_featured a, agent_featured b with
  | true, false => true
  | false, true => false
  | _, _ =>
      if Z.ltb (agent_order a) (agent_order b) then true
      else if Z.ltb (agent_order b) (agent_order a) then false
      else String.leb (agent_name_ a) (agent_name_ b)
  end.

Fixpoint insert_agent (a : Agent) (l : list Agent) : list Agent :=
  match l with
  | [] => [a]
  | b :: l' => if agent_before a b then a :: b :: l' else b :: insert_agent a l'
  end.

(** [Agent.objects.create(...)] with [Agent.save] filling the slug; the
    columns without [null=True] reject [None], the unique columns reject a
    value that is already stored. *)
Definition Agent_objects_create (env : Env) (d : Db)
    (name website short_desc : string) (desc pricing ind : option string)
    (open_source : option bool) (twitter linkedin demo : option string)
  : Exn + Agent * Db :=
  match desc, pricing, ind with
  | Some desc, Some pricing, Some ind =>
      let slug := slugify env name in
      if existsb (fun a => String.eqb (agent_name_ a) name
                           || String.eqb (agent_slug a) slug
                           || String.eqb (agent_website_ a) website) (agents d)
      then inl (IntegrityError "UNIQUE constraint failed")
      else
        let a := mkAgent (next_agent_pk d) name slug short_desc desc website
                   "agents/logos/default-logo.png" 10 false open_source
                   pricing ind twitter linkedin demo PUBLISHED in
        inr (a, bump_agent_pk (set_agents d (insert_agent a (agents d))))
  | _, _, _ => inl (IntegrityError "NOT NULL constraint failed")
  end.

(** [Category.objects.get_or_create(name=..., defaults={"slug": ""})] *)
Definition Category_get_or_create (env : Env) (d : Db) (name : string)
  : Exn + Category * Db :=
  match List.find (fun c => String.eqb (category_name c) name) (categories d) with
  | Some c => inr (c, d)
  | None =>
      let slug := slugify env name in
      if existsb (fun c => String.eqb (category_slug c) slug) (categories d)
      then inl (IntegrityError "UNIQUE constraint failed")
      else
        let c := mkCategory (next_category_pk d) name slug in
        inr (c, bump_category_pk
                  (mkDb (agents d) (categories d ++ [c]) (agent_categories d)
                        (feature_set d) (use_case_set d) (screenshots d)
                        (submissions d) (sourcing_runs d) (sequences d)))
  end.

Definition add_children (d : Db) (a : Agent) (cat : option Category)
    (fs ucs : list string) : Db :=
  mkDb (agents d) (categories d)
       (agent_categories d
        ++ match cat with Some c => [(agent_pk a, category_pk c)] | None => [] end)
       (feature_set d ++ List.map (mkNamed (agent_pk a)) fs)
       (use_case_set d ++ List.map (mkNamed (agent_pk a)) ucs)
       (screenshots d) (submissions d) (sourcing_runs d) (sequences d).

Definition set_logo (a : Agent) (f : string) : Agent :=
  mkAgent (agent_pk a) (agent_name_ a) (agent_slug a) (agent_short_description a)
    (agent_description_ a) (agent_website_ a) f (agent_order a)
    (agent_featured a) (agent_is_open_source a) (agent_pricing_model a)
    (agent_industry a) (agent_twitter_url a) (agent_linkedin_url a)
    (agent_demo_video_url a) (agent_status a).

(** [agent.logo.save(filename, content, save=True)] *)
Definition store_logo (d : Db) (a : Agent) (f : string) : Agent * Db :=
  let a' := set_logo a f in
  (a', set_agents d (List.map (fun b => if Z.eqb (agent_pk b) (agent_pk a) then a' else b)
                              (agents d))).

(** [Screenshot(agent=agent, is_primary=not agent.screenshots.exists())]
    saved with its image; a primary screenshot demotes the others. *)
Definition store_screenshot (d : Db) (a : Agent) (f : string) : Db :=
  let mine (s : Screenshot) := Z.eqb (screenshot_agent s) (agent_pk a) in
  let is_primary := negb (existsb mine (screenshots d)) in
  let others :=
    if is_primary
    then List.map (fun s => if mine s
                            then mkScreenshot (screenshot_agent s) (screenshot_image s) false
                            else s) (screenshots d)
    else screenshots d in
  mkDb (agents d) (categories d) (agent_categories d) (feature_set d)
       (use_case_set d) (others ++ [mkScreenshot (agent_pk a) f is_primary])
       (submissions d) (sourcing_runs d) (sequences d).

Definition attach_media (env : Env) (submission : AgentSubmission)
    (data : EnrichmentData) (a : Agent) (d : Db) : Agent * Db :=
  let stored_url (proj : EnrichmentResult -> option string) : option string :=
    match ed_result data with
    | Some r => some_nonempty (proj r)
    | None => None
    end in
  let '(a, d) :=
    match some_nonempty (logo submission), stored_url logo_url with
    | Some _, _ =>
        match _copy_submission_logo_to_agent env submission a with
        | Some f => store_logo d a f
        | None => (a, d)
        end
    | None, Some u =>
        match _download_logo env a u with
        | Some f => store_logo d a f
        | None => (a, d)
        end
    | None, None => (a, d)
    end in
  let d :=
    match some_nonempty (screenshot submission), stored_url screenshot_url with
    | Some _, _ =>
        match _copy_submission_screenshot_to_agent env submission a with
        | Some f => store_screenshot d a f
        | None => d
        end
    | None, Some u =>
        match _download_screenshot env a u with
        | Some f => store_screenshot d a f
        | None => d
        end
    | None, None => d
    end in
  (a, d).

(** The body of the [with transaction.atomic()] block. *)
Definition create_agent_rows (env : Env) (submission : AgentSubmission)
    (data : EnrichmentData) (content : ContentData) (d : Db) : Exn + Agent * Db :=
  match get_default (short_description content) (agent_description submission) with
  | None => inl (TypeError "'NoneType' object is not subscriptable")
  | Some short_desc =>
      match Agent_objects_create env d
              (agent_name submission) (agent_website submission)
              (take 250 short_desc)
              (get_default (description content) (agent_description submission))
              (get_default (pricing_model content) "UNKNOWN")
              (get_default (industry content) "UNKNOWN")
              (get (is_open_source content))
              (get (twitter_url content)) (get (linkedin_url content))
              (if is_valid_video_url (get (demo_video_url content))
               then get (demo_video_url content) else None) with
      | inl e => inl e
      | inr (a, d) =>
          let created :=
            match some_nonempty (get (category content)) with
            | Some category_name =>
                match Category_get_or_create env d category_name with
                | inl e => inl e
                | inr (c, d) => inr (Some c, d)
                end
            | None => inr (None, d)
            end in
          match created with
          | inl e => inl e
          | inr (cat, d) =>
              let fs := match get (features content) with Some l => l | None => [] end in
              let ucs := match get (use_cases content) with Some l => l | None => [] end in
              inr (attach_media env submission data a (add_children d a cat fs ucs))
          end
      end
  end.

(** [EnrichmentService.create_agent_from_submission]: the two enrichment
    guards, the duplicate check, then the atomic creation (an exception
    inside the block rolls the database back).  The indexing request sent
    by the [post_save] signal of [Agent] is outside the database and is not
    modelled. *)
Definition create_agent_from_submission (env : Env) (submission : AgentSubmission)
    (st : St) : (Exn + Agent) * St :=
  match enrichment_data submission with
  | None =>
      (inl (EnrichmentError
              ("Submission '" +:+ agent_name submission
               +:+ "' has no enrichment data. Call enrich_submission() first.")), st)
  | Some data =>
      if negb (enrichment_nonempty data) then
        (inl (EnrichmentError
                ("Submission '" +:+ agent_name submission
                 +:+ "' has no enrichment data. Call enrich_submission() first.")), st)
      else if negb (match ed_result data with Some r => success r | None => false end)
      then
        let error_msg :=
          match ed_result data with
          | Some r => match error_message r with Some m => m | None => "None" end
          | None => "Unknown error"
          end in
        (inl (EnrichmentError
                ("Submission '" +:+ agent_name submission
                 +:+ "' enrichment failed: " +:+ error_msg
                 +:+ ". Re-run enrichment before approving.")), st)
      else
        match _check_for_duplicate_agent env (db st) submission with
        | inl e => (inl e, st)
        | inr _ =>
            let content :=
              match ed_result data with
              | Some r => match content_data r with
                          | Some c => c
                          | None => empty_content
                          end
              | None => empty_content
              end in
            match create_agent_rows env submission data content (db st) with
            | inl e => (inl e, st)
            | inr (a, d) => (inr a, mkSt d (trace st))
            end
        end
  end.

(** The conditions named in the statements: the stored enrichment passes
    both guards of [create_agent_from_submission]; the entry collides with
    the submission on website, name or slug. *)
Definition enrichment_succeeded (submission : AgentSubmission) : bool :=
  match enrichment_data submission with
  | Some data =>
      enrichment_nonempty data
      && match ed_result data with Some r => success r | None => false end
  | None => false
  end.

(** The test that sends a submission through the aggregator step. *)
Definition treated_as_aggregator `{UrlLib} (cfg : Settings) (submission : AgentSubmission)
  : bool :=
  Filters.is_aggregator_url cfg (agent_website submission)
  || match sourcing_metadata_of submission with
     | Some m => is_aggregator m
     | None => false
     end.

Definition collides (env : Env) (submission : AgentSubmission) (a : Agent) : bool :=
  String.eqb (agent_website_ a) (agent_website submission)
  || iexact (agent_name_ a) (agent_name submission)
  || String.eqb (agent_slug a) (slugify env (agent_name submission)).

End Enrichment.

(** ** [auto_directory/services/sourcing.py] *)

Module Sourcing.
Import PyStr Models World Base.

(** A source plugin: [discover(limit)] and [is_available()]. *)
Record Source := mkSource {
  src_id : string;
  discover : nat -> Outcome (list DiscoveredAgent);
  is_available : bool
}.

(** The two loops of [_get_existing_urls]: every website is normalised and
    a non-empty result is added to the set. *)
Fixpoint add_normalized `{UrlLib} (websites : list string) (urls : gset string)
  : option (gset string) :=
  match websites with
  | [] => Some urls
  | w :: ws =>
      match normalize_url w with
      | None => None
      | Some normalized =>
          add_normalized ws (if nonempty normalized then {[normalized]} ∪ urls else urls)
      end
  end.

(** [_get_existing_urls]; [None] is a [ValueError] from [normalize_url]. *)
Definition _get_existing_urls `{UrlLib} (d : Db) : option (gset string) :=
  match add_normalized (List.map agent_website_ (agents d)) ∅ with
  | None => None
  | Some urls =>
      add_normalized
        (List.map agent_website
           (List.filter (fun s => negb (status_eqb (status s) REJECTED)) (submissions d)))
        urls
  end.

(** The filtering loop of [_process_discoveries]: the candidates kept
    (with their classification), the set, and the two counters. *)
Fixpoint filter_discoveries `{UrlLib} (cfg : Settings) (discovered : list DiscoveredAgent)
    (existing_urls : gset string) (blocked_count duplicate_count : nat)
  : option (list (DiscoveredAgent * string) * gset string * nat * nat) :=
  match discovered with
  | [] => Some ([], existing_urls, blocked_count, duplicate_count)
  | a :: rest =>
      let classification := Filters.get_url_classification cfg (website a) in
      if String.eqb classification "blocked" then
        filter_discoveries cfg rest existing_urls (S blocked_count) duplicate_count
      else
        match normalize_url (website a) with
        | None => None
        | Some normalized =>
            if negb (nonempty normalized) || bool_decide (normalized ∈ existing_urls)
            then filter_discoveries cfg rest existing_urls blocked_count (S duplicate_count)
            else
              match filter_discoveries cfg rest ({[normalized]} ∪ existing_urls)
                                       blocked_count duplicate_count with
              | None => None
              | Some (kept, urls, b, dup) => Some ((a, classification) :: kept, urls, b, dup)
              end
        end
  end.

(** The submission created for one kept candidate. *)
Definition new_submission (k : Z) (src : string) (a : DiscoveredAgent)
    (classification : string) : AgentSubmission :=
  let needs_review :=
    String.eqb classification "non_root" || String.eqb classification "github" in
  let meta :=
    mkSourcingMetadata classification src
      (String.eqb classification "aggregator") (String.eqb classification "aggregator")
      (String.eqb classification "github") (String.eqb classification "github") in
  mkAgentSubmission k None (take 200 (name a)) (take 255 (website a))
    (if nonempty (description a) then description a else "Discovered from " +:+ src)
    AUTO None PENDING None "" None
    (Some (mkEnrichmentData None None (Some meta) None None false false false false))
    None None needs_review.

(** The creation loop: one [AgentSubmission.objects.create] per kept
    candidate, in order.  The insert is taken to succeed (the source skips a
    candidate whose insert raises and goes on). *)
Fixpoint create_submissions (src : string) (kept : list (DiscoveredAgent * string))
    (d : Db) : list AgentSubmission * Db :=
  match kept with
  | [] => ([], d)
  | (a, classification) :: rest =>
      let s := new_submission (next_submission_pk d) src a classification in
      let d := bump_submission_pk (set_submissions d (submissions d ++ [s])) in
      let '(l, d) := create_submissions src rest d in
      (s :: l, d)
  end.

(** [SourcingService._process_discoveries] *)
Definition _process_discoveries `{UrlLib} (cfg : Settings)
    (discovered : list DiscoveredAgent) (src : string) (d : Db)
  : Exn + list AgentSubmission * Db :=
  match discovered with
  | [] => inr ([], d)
  | _ =>
      match _get_existing_urls d with
      | None => inl (ValueError "Invalid IPv6 URL")
      | Some existing_urls =>
          match filter_discoveries cfg discovered existing_urls 0 0 with
          | None => inl (ValueError "Invalid IPv6 URL")
          | Some (filtered_discoveries, _, _, _) =>
              inr (create_submissions src filtered_discoveries d)
          end
      end
  end.

(** The loop of [_enrich_submissions]; what a call of [enrich_submission]
    raises is logged and the loop goes on. *)
Fixpoint enrich_each `{UrlLib} (cfg : Settings) (env : Env)
    (l : list AgentSubmission) (st : St) : St :=
  match l with
  | [] => st
  | s :: rest =>
      let '(_, st) := Enrichment.enrich_submission cfg env s st in
      enrich_each cfg env rest st
  end.

(** [SourcingService._enrich_submissions]: the service is constructed
    before the loop and outside its [try], so what the constructor raises
    leaves the method. *)
Definition _enrich_submissions `{UrlLib} (cfg : Settings) (env : Env)
    (l : list AgentSubmission) (st : St) : Outcome St :=
  match EnrichmentService_init env with
  | Raised e => Raised e
  | Returned _ => Returned (enrich_each cfg env l st)
  end.

Definition save_run (r : SourcingRun) (d : Db) : Db :=
  set_sourcing_runs d
    (List.map (fun x => if Z.eqb (run_pk x) (run_pk r) then r else x) (sourcing_runs d)).

(** [SourcingService.run].  The [try] spans the call of
    [_enrich_submissions], which follows [run.save()]: when that call
    raises, the run is saved again as failed, with the counts and keys of
    the submissions already created. *)
Definition run `{UrlLib} (cfg : Settings) (env : Env) (source : Source)
    (limit : nat) (auto_enrich : bool) (st : St) : SourcingRun * St :=
  let d := db st in
  let run0 := mkSourcingRun (next_run_pk d) (src_id source) 0 0 0 true "" [] false in
  let d := bump_run_pk (set_sourcing_runs d (sourcing_runs d ++ [run0])) in
  let failed (n : nat) (msg : string) (d : Db) : SourcingRun * St :=
    let r := mkSourcingRun (run_pk run0) (src_id source) n 0 0 false msg [] true in
    (r, mkSt (save_run r d) (trace st)) in
  match discover source limit with
  | Raised e => failed 0%nat e d
  | Returned discovered =>
      match _process_discoveries cfg discovered (src_id source) d with
      | inl e => failed (List.length discovered) (str_of_exn e) d
      | inr (created_submissions, d) =>
          let n := List.length discovered in
          let m := List.length created_submissions in
          let r := mkSourcingRun (run_pk run0) (src_id source) n m (n - m) true ""
                     (List.map pk created_submissions) true in
          let st := mkSt (save_run r d) (trace st) in
          if auto_enrich && negb (bool_decide (created_submissions = [])) then
            match _enrich_submissions cfg env created_submissions st with
            | Returned st => (r, st)
            | Raised e =>
                let r := mkSourcingRun (run_pk run0) (src_id source) n m (n - m) false e
                           (List.map pk created_submissions) true in
                (r, mkSt (save_run r (db st)) (trace st))
            end
          else (r, st)
      end
  end.

(** Tests used in the statements: the candidate survives the blocklist and
    has the normal form [n]; the kept candidate has the normal form [n]. *)
Definition candidate_for `{UrlLib} (cfg : Settings) (n : string) (a : DiscoveredAgent) : bool :=
  negb (String.eqb (Filters.get_url_classification cfg (website a)) "blocked")
  && bool_decide (normalize_url (website a) = Some n).

Definition has_norm `{UrlLib} (n : string) (k : DiscoveredAgent * string) : bool :=
  bool_decide (normalize_url (website (fst k)) = Some n).

Definition classified `{UrlLib} (cfg : Settings) (a : DiscoveredAgent)
  : DiscoveredAgent * string :=
  (a, Filters.get_url_classification cfg (website a)).

End Sourcing.

(** ** Relations between database states used in the statements *)

Module Frames.
Import Models World.

(** Every table but [submissions] is the same in [d] and [d']. *)
Definition same_but_submissions (d d' : Db) : Prop :=
  agents d' = agents d /\ categories d' = categories d
  /\ agent_categories d' = agent_categories d /\ feature_set d' = feature_set d
  /\ use_case_set d' = use_case_set d /\ screenshots d' = screenshots d
  /\ sourcing_runs d' = sourcing_runs d /\ sequences d' = sequences d.

(** The columns of a submission row that the enrichment never writes are
    the same in [row] and [row'], and a row with a key other than [k] is
    the same altogether. *)
Definition enrichment_keeps (k : Z) (row row' : AgentSubmission) : Prop :=
  pk row' = pk row /\ email row' = email row
  /\ agent_description row' = agent_description row /\ source row' = source row
  /\ agent row' = agent row /\ status row' = status row
  /\ reviewer row' = reviewer row /\ reviewer_notes row' = reviewer_notes row
  /\ ai_review_result row' = ai_review_result row
  /\ needs_manual_review row' = needs_manual_review row
  /\ (pk row <> k -> row' = row).

(** The columns that [enrich_submission] names in [update_fields]. *)
Definition enrichment_columns : list SubmissionField :=
  [f_enrichment_data; f_agent_name; f_agent_website; f_logo; f_screenshot].

(** The uniqueness constraints of the [Agent] table (website, name up to
    letter case, slug, key), with every key below the next one to be
    handed out. *)
Definition directory_unique (d : Db) : Prop :=
  NoDup (List.map agent_website_ (agents d))
  /\ NoDup (List.map (fun a => PyStr.lower (agent_name_ a)) (agents d))
  /\ NoDup (List.map agent_slug (agents d))
  /\ NoDup (List.map agent_pk (agents d))
  /\ Forall (fun a => (agent_pk a < next_agent_pk d)%Z) (agents d).

(** The number of primary screenshots of the entry with key [k]. *)
Definition primary_count (d : Db) (k : Z) : nat :=
  List.length (List.filter (fun s => Z.eqb (screenshot_agent s) k && screenshot_is_primary s)
                           (screenshots d)).

Definition has_screenshot (d : Db) (k : Z) : bool :=
  existsb (fun s => Z.eqb (screenshot_agent s) k) (screenshots d).

End Frames.

(** ** [auto_directory/management/commands/approve_submissions.py] *)

Module Approve.
Import PyStr Models World Enrichment.




(** The three counters of [handle]. *)
Record Tally := mkTally {
  succeeded : nat;
  rejected_duplicates : nat;
  failed : nat
}.

Definition set_approved (s : AgentSubmission) (a : Agent) : AgentSubmission :=
  mkAgentSubmission (pk s) (email s) (agent_name s) (agent_website s)
    (agent_description s) (source s) (Some (agent_pk a)) APPROVED (reviewer s)
    (reviewer_notes s) (ai_review_result s) (enrichment_data s) (logo s)
    (screenshot s) (needs_manual_review s).

Definition set_rejected (s : AgentSubmission) (notes : string) : AgentSubmission :=
  mkAgentSubmission (pk s) (email s) (agent_name s) (agent_website s)
    (agent_description s) (source s) (agent s) REJECTED (reviewer s)
    notes (ai_review_result s) (enrichment_data s) (logo s)
    (screenshot s) (needs_manual_review s).

(** One round of the loop of [handle]: the entry is created and the
    submission approved and linked; a duplicate is rejected with a note; any
    other exception is counted.  The rows come from the query, so the
    UPDATE of [save(update_fields=...)] finds them; [reviewed_at] is a
    timestamp and left out. *)
Definition approve_one (env : Env) (submission : AgentSubmission) (acc : Tally * St)
  : Tally * St :=
  let '(t, st) := acc in
  match create_agent_from_submission env submission st with
  | (inr a, st) =>
      let submission := set_approved submission a in
      let st := log (EvSaveSubmission submission [f_status; f_agent])
                    (with_db (save_fields [f_status; f_agent] submission) st) in
      (mkTally (S (succeeded t)) (rejected_duplicates t) (failed t), st)
  | (inl (DuplicateAgentError msg existing), st) =>
      let submission :=
        set_rejected submission
          ("Auto-rejected: " +:+ str_of_exn (DuplicateAgentError msg existing)) in
      let st := log (EvSaveSubmission submission [f_status; f_reviewer_notes])
                    (with_db (save_fields [f_status; f_reviewer_notes] submission) st) in
      (mkTally (succeeded t) (S (rejected_duplicates t)) (failed t), st)
  | (inl _, st) =>
      (mkTally (succeeded t) (rejected_duplicates t) (S (failed t)), st)
  end.





End Approve.

(** ** [auto_directory/tasks.py]: the batch review task *)

Module Tasks.
Import PyStr Models World Review.

(** The four counters of the result dict. *)
Record Results := mkResults {
  n_approved : nat;
  n_rejected : nat;
  n_needs_review : nat;
  n_errors : nat
}.

(** truthiness of [submission.enrichment_data] *)
Definition has_enrichment_data (s : AgentSubmission) : bool :=
  match enrichment_data s with
  | Some d => enrichment_nonempty d
  | None => false
  end.

(** One round of the loop of [review_submissions_batch_task]: a missing
    submission counts as error, one without enrichment data is skipped, any
    other is reviewed with the default threshold and counted by the decision
    that was stored. *)
Definition review_one (env : Env) (auto_apply : bool) (submission_id : Z)
    (acc : Results * St) : Results * St :=
  let '(results, st) := acc in
  match get_submission (db st) submission_id with
  | None =>
      (mkResults (n_approved results) (n_rejected results) (n_needs_review results)
                 (S (n_errors results)), st)
  | Some submission =>
      if negb (has_enrichment_data submission) then (results, st)
      else
        let '(submission, st) :=
          review_submission env (__init__ None) submission auto_apply st in
        match option_map decision (ai_review_result submission) with
        | Some approved =>
            (mkResults (S (n_approved results)) (n_rejected results)
                       (n_needs_review results) (n_errors results), st)
        | Some rejected =>
            (mkResults (n_approved results) (S (n_rejected results))
                       (n_needs_review results) (n_errors results), st)
        | _ =>
            (mkResults (n_approved results) (n_rejected results)
                       (S (n_needs_review results)) (n_errors results), st)
        end
  end.

Fixpoint review_all (env : Env) (auto_apply : bool) (submission_ids : list Z)
    (acc : Results * St) : Results * St :=
  match submission_ids with
  | [] => acc
  | submission_id :: rest =>
      review_all env auto_apply rest (review_one env auto_apply submission_id acc)
  end.

(** [review_submissions_batch_task] *)
Definition review_submissions_batch_task (env : Env) (submission_ids : list Z)
    (auto_apply : bool) (st : St) : Results * St :=
  review_all env auto_apply submission_ids (mkResults 0 0 0 0, st).

Definition reviewed (r : Results) : nat :=
  (n_approved r + n_rejected r + n_needs_review r)%nat.

(** Whether the task reviews the submission with key [k], and whether
    it counts it as an error. *)
Definition to_review (d : Db) (k : Z) : bool :=
  match get_submission d k with
  | Some s => has_enrichment_data s
  | None => false
  end.

Definition missing (d : Db) (k : Z) : bool :=
  match get_submission d k with Some _ => false | None => true end.

(** The columns of a row that a review never writes. *)
Definition unreviewed_columns (s : AgentSubmission)
  : Z * string * string * option EnrichmentData * option Z :=
  (pk s, agent_name s, agent_website s, enrichment_data s, agent s).

(** The number of gateway calls in a trace. *)
Definition gateway_calls (tr : list Event) : nat :=
  List.length (List.filter (fun e => match e with EvRunSync _ => true | _ => false end) tr).

End Tasks.

(** ** [SourcingService]: the registry of sources *)

Module Registry.
Import PyStr Models World Base Sourcing.

Record SourcingService := mkSourcingService { sources : list Source }.

(** [get_source_ids] *)
Definition get_source_ids (self : SourcingService) : list string :=
  List.map src_id (sources self).

(** [add_source] *)
Definition add_source (self : SourcingService) (source : Source) : SourcingService :=
  if existsb (String.eqb (src_id source)) (get_source_ids self) then self
  else mkSourcingService (sources self ++ [source]).

(** [run_source] *)
Definition run_source `{UrlLib} (cfg : Settings) (env : Env) (self : SourcingService)
    (source_id : string) (limit : nat) (auto_enrich : bool) (st : St)
  : (Exn + SourcingRun) * St :=
  match List.find (fun s => String.eqb (src_id s) source_id) (sources self) with
  | None => (inl (ValueError ("Unknown source: " +:+ source_id)), st)
  | Some source =>
      let '(r, st) := run cfg env source limit auto_enrich st in (inr r, st)
  end.

(** The loop of [run_all]: a source that is not available is skipped, the
    others are run in order.  ([run] catches what discovery and processing
    raise, so the handler of [run_all] is not reached.) *)
Fixpoint run_each `{UrlLib} (cfg : Settings) (env : Env) (l : list Source)
    (limit_per_source : nat) (auto_enrich : bool) (st : St)
  : list SourcingRun * St :=
  match l with
  | [] => ([], st)
  | source :: rest =>
      if negb (is_available source)
      then run_each cfg env rest limit_per_source auto_enrich st
      else
        let '(r, st) := run cfg env source limit_per_source auto_enrich st in
        let '(runs, st) := run_each cfg env rest limit_per_source auto_enrich st in
        (r :: runs, st)
  end.

(** [run_all] *)
Definition run_all `{UrlLib} (cfg : Settings) (env : Env) (self : SourcingService)
    (limit_per_source : nat) (auto_enrich : bool) (st : St)
  : list SourcingRun * St :=
  run_each cfg env (sources self) limit_per_source auto_enrich st.

End Registry.

(** ** [auto_directory/services/enrichment.py]: enrichment of existing
    entries *)

Module FlowB.
Import PyStr UrlParse Models World Enrichment.

(** [ENRICHABLE_FIELDS] *)
Definition ENRICHABLE_FIELDS : gset string :=
  list_to_set
    ["short_description"; "description"; "features"; "use_cases"; "pricing_model";
     "category"; "is_open_source"; "industry"; "twitter_url"; "linkedin_url";
     "demo_video_url"; "logo"; "screenshot"].

(** [EXCLUDED_FIELDS] *)
Definition EXCLUDED_FIELDS : gset string :=
  list_to_set
    ["name"; "slug"; "order"; "featured"; "website"; "status"; "created_at";
     "updated_at"].

(** The dict of [_capture_agent_state].  The scalar entries are read from
    the object; the four lists are queries, answered by the database in the
    ordering of the related models. *)
Record RelatedNames := mkRelatedNames {
  rel_features : list string;
  rel_use_cases : list string;
  rel_categories : list string;
  rel_screenshots : list string
}.

Record AgentSnapshot := mkAgentSnapshot {
  snap_short_description : string;
  snap_description : string;
  snap_pricing_model : string;
  snap_is_open_source : option bool;
  snap_industry : string;
  snap_twitter_url : option string;
  snap_linkedin_url : option string;
  snap_demo_video_url : option string;
  snap_logo : option string;
  snap_related : RelatedNames
}.

(** [auto_directory.models.EnrichmentLog]; [extracted_data] is [None] for
    the empty dict. *)
Record EnrichmentLog := mkEnrichmentLog {
  log_agent : Z;
  previous_data : AgentSnapshot;
  extracted_data : option EnrichmentResult;
  applied_fields : list string;
  log_success : bool;
  log_error_message : option string
}.

(** The state with the table of logs. *)
Record StB := mkStB { base : St; enrichment_logs : list EnrichmentLog }.

(** What the service needs beside [Env]: the related-name queries and the
    [repr] of a set of strings used in the error message. *)
Record Queries := mkQueries {
  related_names : Db -> Z -> RelatedNames;
  repr_set : gset string -> string
}.

(** [_capture_agent_state] *)
Definition _capture_agent_state (q : Queries) (d : Db) (agent : Agent) : AgentSnapshot :=
  mkAgentSnapshot (agent_short_description agent) (agent_description_ agent)
    (agent_pricing_model agent) (agent_is_open_source agent) (agent_industry agent)
    (agent_twitter_url agent) (agent_linkedin_url agent) (agent_demo_video_url agent)
    (if nonempty (agent_logo agent) then Some (agent_logo agent) else None)
    (related_names q d (agent_pk agent)).

(** The transforms of the simple fields: [v if v else None] and
    [v[:250] if v else None]. *)
Definition keep_nonempty (v : Field string) : option string :=
  match v with
  | Present s => if nonempty s then Some s else None
  | _ => None
  end.

(** The value that the loop over [simple_fields] sets for a field: none
    when the field is not asked for, when the key is absent, or when the
    transform gives [None]. *)
Definition simple_value {A} (fields : gset string) (field_name : string)
    (transformed : option A) : option A :=
  if bool_decide (field_name ∈ fields) then transformed else None.

Definition or_old {A} (new : option A) (old : A) : A :=
  match new with Some v => v | None => old end.

Definition or_old_opt {A} (new : option A) (old : option A) : option A :=
  match new with Some v => Some v | None => old end.

Definition applied_name {A} (name : string) (v : option A) : list string :=
  match v with Some _ => [name] | None => [] end.

(** The loop over [simple_fields]: the object after the [setattr]s and the
    names applied, in the order of the dict. *)
Definition apply_simple_fields (agent : Agent) (content : ContentData)
    (fields : gset string) : Agent * list string :=
  let sd := simple_value fields "short_description"
              (option_map (take 250) (keep_nonempty (short_description content))) in
  let de := simple_value fields "description" (keep_nonempty (description content)) in
  let pm := simple_value fields "pricing_model" (keep_nonempty (pricing_model content)) in
  let ind := simple_value fields "industry" (keep_nonempty (industry content)) in
  let os := simple_value fields "is_open_source" (get (is_open_source content)) in
  let tw := simple_value fields "twitter_url" (keep_nonempty (twitter_url content)) in
  let li := simple_value fields "linkedin_url" (keep_nonempty (linkedin_url content)) in
  let dv := simple_value fields "demo_video_url"
              (if is_valid_video_url (get (demo_video_url content))
               then get (demo_video_url content) else None) in
  (mkAgent (agent_pk agent) (agent_name_ agent) (agent_slug agent)
     (or_old sd (agent_short_description agent)) (or_old de (agent_description_ agent))
     (agent_website_ agent) (agent_logo agent) (agent_order agent)
     (agent_featured agent) (or_old_opt os (agent_is_open_source agent))
     (or_old pm (agent_pricing_model agent)) (or_old ind (agent_industry agent))
     (or_old_opt tw (agent_twitter_url agent))
     (or_old_opt li (agent_linkedin_url agent))
     (or_old_opt dv (agent_demo_video_url agent)) (agent_status agent),
   applied_name "short_description" sd ++ applied_name "description" de
   ++ applied_name "pricing_model" pm ++ applied_name "industry" ind
   ++ applied_name "is_open_source" os ++ applied_name "twitter_url" tw
   ++ applied_name "linkedin_url" li ++ applied_name "demo_video_url" dv).

Definition set_slug (a : Agent) (slug : string) : Agent :=
  mkAgent (agent_pk a) (agent_name_ a) slug (agent_short_description a)
    (agent_description_ a) (agent_website_ a) (agent_logo a) (agent_order a)
    (agent_featured a) (agent_is_open_source a) (agent_pricing_model a)
    (agent_industry a) (agent_twitter_url a) (agent_linkedin_url a)
    (agent_demo_video_url a) (agent_status a).

(** [Agent.save] of an object with a key: an empty slug is filled from the
    name (on the object, before the row is written); the row with the key is
    rewritten, or inserted when there is none; the unique columns reject a
    value held by another row.  The lengths of the columns are left to the
    database and are not part of the model. *)
Definition Agent_save (env : Env) (d : Db) (agent : Agent) : (Exn + Db) * Agent :=
  let agent :=
    if nonempty (agent_slug agent) then agent
    else set_slug agent (slugify env (agent_name_ agent)) in
  if existsb (fun b => negb (Z.eqb (agent_pk b) (agent_pk agent))
                       && (String.eqb (agent_name_ b) (agent_name_ agent)
                           || String.eqb (agent_slug b) (agent_slug agent)
                           || String.eqb (agent_website_ b) (agent_website_ agent)))
             (agents d)
  then (inl (IntegrityError "UNIQUE constraint failed"), agent)
  else if existsb (fun b => Z.eqb (agent_pk b) (agent_pk agent)) (agents d)
  then (inr (set_agents d
               (List.map (fun b => if Z.eqb (agent_pk b) (agent_pk agent) then agent else b)
                         (agents d))), agent)
  else (inr (set_agents d (insert_agent agent (agents d))), agent).

(** [agent.feature_set.all().delete()] followed by the [bulk_create] *)
Definition replace_features (d : Db) (k : Z) (l : list string) : Db :=
  mkDb (agents d) (categories d) (agent_categories d)
       (List.filter (fun n => negb (Z.eqb (named_agent n) k)) (feature_set d)
        ++ List.map (mkNamed k) l)
       (use_case_set d) (screenshots d) (submissions d) (sourcing_runs d) (sequences d).

Definition replace_use_cases (d : Db) (k : Z) (l : list string) : Db :=
  mkDb (agents d) (categories d) (agent_categories d) (feature_set d)
       (List.filter (fun n => negb (Z.eqb (named_agent n) k)) (use_case_set d)
        ++ List.map (mkNamed k) l)
       (screenshots d) (submissions d) (sourcing_runs d) (sequences d).

(** [agent.categories.clear()] followed by [agent.categories.add(category)] *)
Definition set_category (d : Db) (k : Z) (c : Category) : Db :=
  mkDb (agents d) (categories d)
       (List.filter (fun p => negb (Z.eqb (fst p) k)) (agent_categories d)
        ++ [(k, category_pk c)])
       (feature_set d) (use_case_set d) (screenshots d) (submissions d)
       (sourcing_runs d) (sequences d).

Definition truthy_names (f : Field (list string)) : option (list string) :=
  match f with
  | Present (x :: l) => Some (x :: l)
  | _ => None
  end.

(** The five blocks of [_apply_fields_to_agent] that follow [agent.save()],
    each on the list of applied names and the database. *)
Definition apply_features (content : ContentData) (fields : gset string) (agent : Agent)
    (acc : list string * Db) : list string * Db :=
  let '(applied, d) := acc in
  match bool_decide ("features" ∈ fields), truthy_names (features content) with
  | true, Some l => (applied ++ ["features"], replace_features d (agent_pk agent) l)
  | _, _ => (applied, d)
  end.

Definition apply_use_cases (content : ContentData) (fields : gset string) (agent : Agent)
    (acc : list string * Db) : list string * Db :=
  let '(applied, d) := acc in
  match bool_decide ("use_cases" ∈ fields), truthy_names (use_cases content) with
  | true, Some l => (applied ++ ["use_cases"], replace_use_cases d (agent_pk agent) l)
  | _, _ => (applied, d)
  end.

Definition apply_category (env : Env) (content : ContentData) (fields : gset string)
    (agent : Agent) (acc : list string * Db) : Exn + list string * Db :=
  let '(applied, d) := acc in
  match bool_decide ("category" ∈ fields), keep_nonempty (category content) with
  | true, Some category_name =>
      match Category_get_or_create env d category_name with
      | inl e => inl e
      | inr (c, d) => inr (applied ++ ["category"], set_category d (agent_pk agent) c)
      end
  | _, _ => inr (applied, d)
  end.

Definition apply_logo (env : Env) (result : EnrichmentResult) (fields : gset string)
    (agent : Agent) (acc : list string * Db) : list string * Agent * Db :=
  let '(applied, d) := acc in
  match bool_decide ("logo" ∈ fields), some_nonempty (logo_url result) with
  | true, Some u =>
      match _download_logo env agent u with
      | Some f =>
          let '(agent, d) := store_logo d agent f in
          (applied ++ ["logo"], agent, d)
      | None => (applied, agent, d)
      end
  | _, _ => (applied, agent, d)
  end.

Definition apply_screenshot (env : Env) (result : EnrichmentResult)
    (fields : gset string) (agent : Agent) (acc : list string * Db) : list string * Db :=
  let '(applied, d) := acc in
  match bool_decide ("screenshot" ∈ fields), some_nonempty (screenshot_url result) with
  | true, Some u =>
      match _download_screenshot env agent u with
      | Some f => (applied ++ ["screenshot"], store_screenshot d agent f)
      | None => (applied, d)
      end
  | _, _ => (applied, d)
  end.

(** [_apply_fields_to_agent].  The object is changed in place, so it is
    returned also when the call raises; the database is the one reached
    when it raises (the caller's atomic block undoes it).  [_download_logo]
    parses the address before its [try]; the addresses that [enrich]
    returns have been parsed by [_extract_best_logo_url]. *)
Definition _apply_fields_to_agent (env : Env) (agent : Agent)
    (result : EnrichmentResult) (fields : gset string) (d : Db)
  : (Exn + list string) * Agent * Db :=
  let content :=
    match content_data result with
    | Some c => c
    | None => empty_content
    end in
  let '(agent, applied) := apply_simple_fields agent content fields in
  match Agent_save env d agent with
  | (inl e, agent) => (inl e, agent, d)
  | (inr d, agent) =>
      let acc := apply_features content fields agent (applied, d) in
      let acc := apply_use_cases content fields agent acc in
      match apply_category env content fields agent acc with
      | inl e => (inl e, agent, snd acc)
      | inr acc =>
          let '(applied, agent, d) := apply_logo env result fields agent acc in
          let '(applied, d) := apply_screenshot env result fields agent (applied, d) in
          (inr applied, agent, d)
      end
  end.

Definition add_log (l : EnrichmentLog) (st : StB) : StB :=
  mkStB (base st) (enrichment_logs st ++ [l]).

(** [enrich_agent]; [fields] is the list given, empty when the argument is
    absent (both are falsy).  The object is returned with the result, as
    it may have been changed in place. *)
Definition enrich_agent `{UrlLib} (env : Env) (q : Queries) (agent : Agent)
    (fields : list string) (st : StB) : (Exn + EnrichmentLog) * Agent * StB :=
  let given : gset string := list_to_set fields in
  let invalid := given ∖ ENRICHABLE_FIELDS in
  if negb (bool_decide (fields = [])) && negb (bool_decide (invalid = ∅)) then
    (inl (EnrichmentError ("Invalid fields: " +:+ repr_set q invalid)), agent, st)
  else
    let fields_to_update :=
      if bool_decide (fields = []) then ENRICHABLE_FIELDS else given in
    let previous := _capture_agent_state q (db (base st)) agent in
    let '(result, st1) := enrich env (agent_website_ agent) (base st) in
    if negb (success result) then
      let l := mkEnrichmentLog (agent_pk agent) previous (Some result) [] false
                 (error_message result) in
      (inr l, agent, add_log l (mkStB st1 (enrichment_logs st)))
    else
      match _apply_fields_to_agent env agent result fields_to_update (db st1) with
      | (inl e, agent, _) => (inl e, agent, mkStB st1 (enrichment_logs st))
      | (inr applied, agent, d) =>
          let l := mkEnrichmentLog (agent_pk agent) previous (Some result) applied true
                     None in
          (inr l, agent, add_log l (mkStB (mkSt d (trace st1)) (enrichment_logs st)))
      end.

(** [enrich_agents]: an exception of [enrich_agent] becomes a log with
    [success=False]. *)
Fixpoint enrich_agents `{UrlLib} (env : Env) (q : Queries) (agents : list Agent)
    (fields : list string) (st : StB) : list EnrichmentLog * StB :=
  match agents with
  | [] => ([], st)
  | agent :: rest =>
      let '(l, st) :=
        match enrich_agent env q agent fields st with
        | (inr l, _, st) => (l, st)
        | (inl e, agent, st) =>
            let l := mkEnrichmentLog (agent_pk agent)
                       (_capture_agent_state q (db (base st)) agent) None [] false
                       (Some (str_of_exn e)) in
            (l, add_log l st)
        end in
      let '(logs, st) := enrich_agents env q rest fields st in
      (l :: logs, st)
  end.

(** [_get_image_extension]; [None] is the [ValueError] of [urlparse]. *)
Definition type_map : list (string * string) :=
  [("image/png", ".png"); ("image/jpeg", ".jpg"); ("image/gif", ".gif");
   ("image/webp", ".webp"); ("image/svg+xml", ".svg")].

Definition url_extensions : list string :=
  [".png"; ".jpg"; ".jpeg"; ".gif"; ".webp"; ".svg"].

Definition _get_image_extension `{UrlLib} (url content_type : string) : option string :=
  match List.find (fun p => contains content_type (fst p)) type_map with
  | Some (_, ext) => Some ext
  | None =>
      match urlparse url with
      | None => None
      | Some parsed =>
          let path := lower (path parsed) in
          match List.find (fun ext => endswith path ext) url_extensions with
          | Some ext => Some (if String.eqb ext ".jpeg" then ".jpg" else ext)
          | None => Some ".png"
          end
      end
  end.

(** The extensions of the files that the downloads store, and whether a
    content type holds one of the types of [type_map]. *)
Definition stored_extensions : list string := [".png"; ".jpg"; ".gif"; ".webp"; ".svg"].

Definition known_type (content_type : string) : bool :=
  existsb (fun p => contains content_type (fst p)) type_map.

(** The columns of an entry that enrichment must never write. *)
Definition identity_columns (a : Agent)
  : Z * string * string * Z * bool * AgentStatus :=
  (agent_pk a, agent_name_ a, agent_website_ a, agent_order a, agent_featured a,
   agent_status a).

(** The columns that the loop over [simple_fields] may write. *)
Definition simple_columns (a : Agent)
  : string * string * option bool * string * string
    * option string * option string * option string :=
  (agent_short_description a, agent_description_ a, agent_is_open_source a,
   agent_pricing_model a, agent_industry a, agent_twitter_url a,
   agent_linkedin_url a, agent_demo_video_url a).

(** The names of the loop over [simple_fields], in the order of the dict,
    and the names that the blocks after [agent.save()] append. *)
Definition simple_names : list string :=
  ["short_description"; "description"; "pricing_model"; "industry"; "is_open_source";
   "twitter_url"; "linkedin_url"; "demo_video_url"].

Definition later_names : list string :=
  ["features"; "use_cases"; "category"; "logo"; "screenshot"].

Definition field_order : list string := simple_names ++ later_names.

(** [applied'] is [applied] followed by some of [names], in their order,
    all of them asked for. *)
Definition grows (fields : gset string) (names applied applied' : list string) : Prop :=
  exists later, applied' = applied ++ later
                /\ sublist later names /\ Forall (fun x => x ∈ fields) later.

(** The columns of the object whose value differs between [a] and [a'],
    among those that enrichment may write. *)
Definition changed {A} `{EqDecision A} (name : string) (old new : A) : list string :=
  if bool_decide (old = new) then [] else [name].

Definition changed_columns (a a' : Agent) : list string :=
  changed "short_description" (agent_short_description a) (agent_short_description a')
  ++ changed "description" (agent_description_ a) (agent_description_ a')
  ++ changed "pricing_model" (agent_pricing_model a) (agent_pricing_model a')
  ++ changed "industry" (agent_industry a) (agent_industry a')
  ++ changed "is_open_source" (agent_is_open_source a) (agent_is_open_source a')
  ++ changed "twitter_url" (agent_twitter_url a) (agent_twitter_url a')
  ++ changed "linkedin_url" (agent_linkedin_url a) (agent_linkedin_url a')
  ++ changed "demo_video_url" (agent_demo_video_url a) (agent_demo_video_url a')
  ++ changed "logo" (agent_logo a) (agent_logo a').

(** The rows of the entries whose key is none of [ks]. *)
Definition rows_outside (ks : list Z) (d : Db) : list Agent :=
  List.filter (fun b => negb (existsb (Z.eqb (agent_pk b)) ks)) (agents d).

(** The rows of other entries, the submissions and the runs are the same
    in [d] and [d']. *)
Definition keeps_others (k : Z) (d d' : Db) : Prop :=
  submissions d' = submissions d /\ sourcing_runs d' = sourcing_runs d
  /\ List.filter (fun b => negb (Z.eqb (agent_pk b) k)) (agents d')
     = List.filter (fun b => negb (Z.eqb (agent_pk b) k)) (agents d).

End FlowB.

(** ** Concrete configurations and records used as test inputs *)

Module Examples.
Import Models World.

(** GitHub acceptance switched off, nothing else configured. *)
Definition github_disabled : Settings := mkSettings [] [] [] [] false.

(** One aggregator domain whose listing pages live under a path that the
    path blocklist names. *)
Definition aggregator_settings : Settings :=
  mkSettings [] ["ycombinator.com"] ["/companies/"] [] true.

(** Two discoveries of one site, spelled differently. *)
Definition first_candidate : Base.DiscoveredAgent :=
  Base.__post_init__ (Base.mkDiscoveredAgent "Example" "https://Example.com/" "" "serp" "").

Definition second_candidate : Base.DiscoveredAgent :=
  Base.__post_init__ (Base.mkDiscoveredAgent "Example again" "www.example.com" "" "serp" "").

(** A discovery whose website is blank: [__post_init__] makes it
    ["https://"]. *)
Definition blank_candidate (name : string) : Base.DiscoveredAgent :=
  Base.__post_init__ (Base.mkDiscoveredAgent name " " "" "serp" "").

(** The float literals [0.9], [0.8] and [0.5]. *)
Definition float_0_9 : Q := (8106479329266893 # 9007199254740992)%Q.
Definition float_0_8 : Q := (3602879701896397 # 4503599627370496)%Q.
Definition float_0_5 : Q := (1 # 2)%Q.

(** A world in which the review gateway answers [answer] and nothing else
    responds. *)
Definition reviewing_env (answer : Outcome ReviewResult) : Env :=
  mkEnv (fun s => PyStr.lower s) (fun _ _ => None) (fun _ => answer)
        (fun _ => Returned None) (fun _ => Returned None)
        (fun _ _ => None) (fun _ _ => None) (fun _ _ => None) (fun _ _ => None)
        (fun _ _ => None) (fun _ _ => None) (Returned tt).

Definition confident_approval : ReviewResult :=
  mkReviewResult approved true float_0_9 "Autonomous agent with its own site" [] false.

Definition hesitant_approval : ReviewResult :=
  mkReviewResult approved true float_0_5 "Unclear from the page" [] false.

Definition pending_submission : AgentSubmission :=
  mkAgentSubmission 1 None "Foo" "https://foo.ai" "An agent" AUTO None PENDING
    None "" None None None None false.

Definition pending_db : Db := set_submissions empty_db [pending_submission].

(** A directory that already lists Foo. *)
Definition foo_agent : Agent :=
  mkAgent 7 "Foo" "foo" "An agent" "An agent" "https://foo.ai"
    "agents/logos/default-logo.png" 10 false None "UNKNOWN" "UNKNOWN" None None None
    PUBLISHED.

Definition foo_db : Db := set_agents pending_db [foo_agent].

(** Foo again, under another website and in upper case, with a successful
    enrichment stored. *)
Definition enriched_duplicate : AgentSubmission :=
  mkAgentSubmission 2 None "FOO" "https://foo.example" "An agent" AUTO None PENDING
    None "" None
    (Some (of_result (mkEnrichmentResult true None (Some empty_content) None None None
                        None None None)))
    None None false.

(** A world in which every scrape fails with a network error. *)
Definition offline_env : Env :=
  mkEnv (fun s => PyStr.lower s) (fun _ _ => None)
        (fun _ => Raised "connection refused")
        (fun _ => Raised "connection refused") (fun _ => Raised "connection refused")
        (fun _ _ => None) (fun _ _ => None) (fun _ _ => None) (fun _ _ => None)
        (fun _ _ => None) (fun _ _ => None) (Returned tt).

(** A database whose only record is a REJECTED submission of Foo. *)
Definition rejected_submission : AgentSubmission :=
  mkAgentSubmission 1 None "Foo" "https://www.foo.ai/" "An agent" AUTO None REJECTED
    None "" None None None None false.

Definition rejected_db : Db :=
  mkDb [] [] [] [] [] [] [rejected_submission] [] (mkSequences 1 1 2 1).

Definition foo_candidate : Base.DiscoveredAgent :=
  Base.__post_init__ (Base.mkDiscoveredAgent "Foo" "foo.ai" "" "serp" "").

(** Scenario A of the specification: a listing page on an aggregator
    domain whose extraction names the product site with confidence 0.8. *)
Definition yc_settings : Settings := mkSettings [] ["yc.example.com"] [] [] true.

Definition yc_submission : AgentSubmission :=
  mkAgentSubmission 1 None "Foo" "https://yc.example.com/companies/foo" "An agent"
    AUTO None PENDING None "" None None None None false.

Definition yc_db : Db := set_submissions empty_db [yc_submission].

Definition yc_env : Env :=
  mkEnv (fun s => PyStr.lower s) (fun _ _ => None)
        (fun _ => Raised "not called")
        (fun _ => Returned (Some (Some (mkAggregatorJson (Some "https://foo.ai")
                                           (Present float_0_8)))))
        (fun _ => Raised "connection refused")
        (fun _ _ => None) (fun _ _ => None) (fun _ _ => None) (fun _ _ => None)
        (fun _ _ => None) (fun _ _ => None) (Returned tt).

(** A directory that lists Foo under key 7, with key 8 next. *)
Definition listed_db : Db :=
  mkDb [foo_agent] [] [] [] [] [] [] [] (mkSequences 8 1 1 1).

(** Bar, enriched with success and an empty extraction. *)
Definition enriched_bar : AgentSubmission :=
  mkAgentSubmission 3 None "Bar" "https://bar.ai" "An agent" AUTO None PENDING
    None "" None
    (Some (of_result (mkEnrichmentResult true None (Some empty_content) None None None
                        None None None)))
    None None false.

Definition bar_agent : Agent :=
  mkAgent 8 "Bar" "bar" "An agent" "An agent" "https://bar.ai"
    "agents/logos/default-logo.png" 10 false None "UNKNOWN" "UNKNOWN" None None None
    PUBLISHED.

(** An extraction whose [short_description] is [null]. *)
Definition null_content : ContentData :=
  mkContentData Null Missing Missing Missing Missing Missing Missing Missing
                Missing Missing Missing.

Definition null_result : EnrichmentResult :=
  mkEnrichmentResult true None (Some null_content) None None None None None None.

Definition enriched_null : AgentSubmission :=
  mkAgentSubmission 4 None "Baz" "https://baz.ai" "An agent" AUTO None PENDING
    None "" None (Some (of_result null_result)) None None false.

(** A discovery whose website has an unbalanced bracket, which [urlparse]
    refuses, and a source that returns it. *)
Definition bracket_candidate : Base.DiscoveredAgent :=
  Base.__post_init__ (Base.mkDiscoveredAgent "Broken" "http://[::1" "" "serp" "").

Definition bracket_source : Sourcing.Source :=
  Sourcing.mkSource "serp" (fun _ => Returned [first_candidate; bracket_candidate]) true.

(** A source that returns the first candidate alone, and a world in which
    the enrichment service cannot be constructed. *)
Definition single_source : Sourcing.Source :=
  Sourcing.mkSource "serp" (fun _ => Returned [first_candidate]) true.

Definition keyless_env : Env :=
  mkEnv (fun s => PyStr.lower s) (fun _ _ => None) (fun _ => Raised "unused")
        (fun _ => Returned None) (fun _ => Returned None)
        (fun _ _ => None) (fun _ _ => None) (fun _ _ => None) (fun _ _ => None)
        (fun _ _ => None) (fun _ _ => None) (Raised "No API key provided").

(** The outcome of sourcing the two spellings of one site on an empty
    database. *)
Definition example_batch : list AgentSubmission * Db :=
  Sourcing.create_submissions "serp"
    [(first_candidate, "normal")] empty_db.

(** A table with two enriched submissions and a directory listing Foo. *)
Definition approval_db : Db :=
  mkDb [foo_agent] [] [] [] [] [] [enriched_bar; enriched_duplicate] []
       (mkSequences 8 1 4 1).

(** Two pages of more than 4000 characters that differ only after the
    4000th. *)
Fixpoint filler (n : nat) : string :=
  match n with
  | O => EmptyString
  | S n' => String "a" (filler n')
  end.

Definition long_page (tail : string) : string := filler 4000 +:+ tail.

(** A scrape that finds a short description and a logo, an environment in
    which that scrape and the download of the logo succeed, and the log of
    the enrichment of Foo for these two fields. *)
Definition found_content : ContentData :=
  mkContentData (Present "Foo books meetings") Missing Missing Missing Missing
                Missing Missing Missing Missing Missing Missing.

Definition found_branding : Branding :=
  mkBranding (Some "https://foo.ai/logo.png") None None.

Definition found_response : ScrapeResponse :=
  mkScrapeResponse (Some found_branding) (Some found_content) None None None.

Definition scraping_env : Env :=
  mkEnv (fun s => PyStr.lower s) (fun _ _ => None) (fun _ => Raised "unused")
        (fun _ => Returned None) (fun _ => Returned (Some found_response))
        (fun _ _ => None) (fun _ _ => None) (fun _ _ => None) (fun _ _ => None)
        (fun _ _ => Some "agents/logos/foo_logo.png") (fun _ _ => None) (Returned tt).

Definition plain_queries : FlowB.Queries :=
  FlowB.mkQueries (fun _ _ => FlowB.mkRelatedNames [] [] [] []) (fun _ => "{'slug'}").

Definition listed_state : FlowB.StB := FlowB.mkStB (mkSt listed_db []) [].

Definition found_result : EnrichmentResult :=
  mkEnrichmentResult true None (Some found_content) (Some found_branding)
    (Some "https://foo.ai/logo.png") None None None None.

Definition foo_log : FlowB.EnrichmentLog :=
  FlowB.mkEnrichmentLog 7 (FlowB._capture_agent_state plain_queries listed_db foo_agent)
    (Some found_result) ["short_description"; "logo"] true None.

End Examples.

(** * Properties *)

(** ** Facts about the string primitives *)

Module PyStrFacts.
Import PyStr.

#[local] Arguments String.append !_ _ / : simpl nomatch.

Ltac each_char c :=
  destruct c as [[] [] [] [] [] [] [] []]; vm_compute; try reflexivity; try discriminate.

Lemma lower_char_idem (c : ascii) : lower_char (lower_char c) = lower_char c.
Proof. each_char c. Qed.

Lemma lower_idem (s : string) : lower (lower s) = lower s.
Proof. induction s as [|c s IH]; simpl; [reflexivity|]. now rewrite lower_char_idem, IH. Qed.

Lemma lower_app (a b : string) : lower (a +:+ b) = lower a +:+ lower b.
Proof. induction a as [|c a IH]; simpl; [reflexivity|]. now rewrite IH. Qed.

Lemma nonempty_lower (s : string) : nonempty (lower s) = nonempty s.
Proof. now destruct s. Qed.

Lemma nonempty_true (s : string) : nonempty s = true <-> s <> EmptyString.
Proof. destruct s; simpl; split; intros; congruence. Qed.

Lemma app_empty_r (s : string) : s +:+ EmptyString = s.
Proof. induction s as [|c s IH]; simpl; [reflexivity|]. now f_equal. Qed.

Lemma app_assoc (a b c : string) : (a +:+ b) +:+ c = a +:+ (b +:+ c).
Proof. induction a as [|x a IH]; simpl; [reflexivity|]. now f_equal. Qed.

Lemma forallb_app (f : ascii -> bool) (a b : string) :
  forallb f (a +:+ b) = forallb f a && forallb f b.
Proof.
  induction a as [|c a IH]; simpl; [reflexivity|].
  now rewrite IH, andb_assoc.
Qed.

Lemma forallb_impl (f g : ascii -> bool) (s : string) :
  (forall c, f c = true -> g c = true) -> forallb f s = true -> forallb g s = true.
Proof.
  intros Hfg. induction s as [|c s IH]; simpl; [reflexivity|].
  intros [Hc Hs]%andb_true_iff. rewrite (Hfg c Hc). now apply IH.
Qed.

Lemma forallb_lower (f g : ascii -> bool) (s : string) :
  (forall c, f c = true -> g (lower_char c) = true) ->
  forallb f s = true -> forallb g (lower s) = true.
Proof.
  intros Hfg. induction s as [|c s IH]; simpl; [reflexivity|].
  intros [Hc Hs]%andb_true_iff. rewrite (Hfg c Hc). now apply IH.
Qed.

Lemma forallb_drop (f : ascii -> bool) (n : nat) (s : string) :
  forallb f s = true -> forallb f (drop n s) = true.
Proof.
  revert s. induction n as [|n IH]; intros [|c s]; simpl; try easy.
  intros [_ Hs]%andb_true_iff. now apply IH.
Qed.

Lemma forallb_rstrip (f g : ascii -> bool) (s : string) :
  forallb f s = true -> forallb f (rstrip_by g s) = true.
Proof.
  induction s as [|c s IH]; simpl; [reflexivity|].
  intros [Hc Hs]%andb_true_iff. specialize (IH Hs).
  destruct (rstrip_by g s) as [|c' r].
  - destruct (g c); simpl; [reflexivity|]. now rewrite Hc.
  - simpl in *. now rewrite Hc.
Qed.

Lemma lower_fixed (s : string) :
  forallb (fun c => negb (is_upper c)) s = true -> lower s = s.
Proof.
  induction s as [|c s IH]; simpl; [reflexivity|].
  intros [Hc Hs]%andb_true_iff. rewrite (IH Hs). unfold lower_char.
  now destruct (is_upper c).
Qed.

Lemma no_upper_lower (s : string) :
  forallb (fun c => negb (is_upper c)) (lower s) = true.
Proof.
  induction s as [|c s IH]; simpl; [reflexivity|]. rewrite IH, andb_true_r.
  each_char c.
Qed.

Lemma has_char_false (f : ascii -> bool) (c : ascii) (s : string) :
  f c = false -> forallb f s = true -> has_char c s = false.
Proof.
  intros Hc. induction s as [|a s IH]; simpl; [reflexivity|].
  intros [Ha Hs]%andb_true_iff. rewrite (IH Hs), orb_false_r.
  destruct (Ascii.eqb_spec a c); [congruence|reflexivity].
Qed.

Lemma has_char_app (c : ascii) (a b : string) :
  has_char c (a +:+ b) = has_char c a || has_char c b.
Proof.
  induction a as [|x a IH]; simpl; [reflexivity|]. now rewrite IH, orb_assoc.
Qed.

Lemma remove_char_id (c : ascii) (s : string) :
  has_char c s = false -> remove_char c s = s.
Proof.
  induction s as [|a s IH]; simpl; [reflexivity|].
  intros [Ha Hs]%orb_false_iff. rewrite Ha. now rewrite IH.
Qed.

Lemma rstrip_by_id (f : ascii -> bool) (s : string) :
  forallb (fun c => negb (f c)) s = true -> rstrip_by f s = s.
Proof.
  induction s as [|c s IH]; simpl; [reflexivity|].
  intros [Hc Hs]%andb_true_iff. rewrite (IH Hs).
  destruct s; [|reflexivity]. apply negb_true_iff in Hc. now rewrite Hc.
Qed.

Lemma rstrip_by_idem (f : ascii -> bool) (s : string) :
  rstrip_by f (rstrip_by f s) = rstrip_by f s.
Proof.
  induction s as [|c s IH]; simpl; [reflexivity|].
  destruct (rstrip_by f s) as [|c' r] eqn:E.
  - destruct (f c) eqn:Hc; simpl; [reflexivity|]. now rewrite Hc.
  - change (rstrip_by f (String c (String c' r))) with
      (match rstrip_by f (String c' r) with
       | EmptyString => if f c then EmptyString else String c EmptyString
       | r0 => String c r0
       end).
    now rewrite IH.
Qed.

Lemma rstrip_by_snoc (f : ascii -> bool) (s : string) (c : ascii) :
  f c = true -> rstrip_by f (s +:+ String c EmptyString) = rstrip_by f s.
Proof.
  intros Hc. induction s as [|a s IH]; simpl.
  - now rewrite Hc.
  - now rewrite IH.
Qed.

Lemma rstrip_by_head (f : ascii -> bool) (c : ascii) (s : string) :
  rstrip_by f (String c s) <> EmptyString ->
  rstrip_by f (String c s) = String c (rstrip_by f s).
Proof.
  simpl. destruct (rstrip_by f s); [|reflexivity].
  destruct (f c); [congruence|reflexivity].
Qed.

Lemma split_once_none (c : ascii) (s : string) :
  has_char c s = false -> split_once c s = (s, None).
Proof.
  induction s as [|a s IH]; simpl; [reflexivity|].
  intros [Ha Hs]%orb_false_iff. rewrite Ha, (IH Hs). reflexivity.
Qed.

Lemma split_once_app (c : ascii) (a b : string) :
  has_char c a = false ->
  split_once c (a +:+ b) = (a +:+ fst (split_once c b), snd (split_once c b)).
Proof.
  induction a as [|x a IH]; simpl.
  - intros _. now destruct (split_once c b).
  - intros [Hx Ha]%orb_false_iff. rewrite Hx, (IH Ha). reflexivity.
Qed.

Lemma startswith_app (p s : string) : startswith (p +:+ s) p = true.
Proof.
  induction p as [|c p IH]; simpl; [reflexivity|].
  now rewrite Ascii.eqb_refl.
Qed.

Lemma drop_app (p s : string) : drop (String.length p) (p +:+ s) = s.
Proof. induction p as [|c p IH]; simpl; [now destruct s|exact IH]. Qed.

Lemma endswith_cons (c : ascii) (s suf : string) :
  endswith (String c s) suf = String.eqb (String c s) suf || endswith s suf.
Proof. reflexivity. Qed.

Lemma endswith_refl (s : string) : endswith s s = true.
Proof. destruct s; [reflexivity|]. now rewrite endswith_cons, String.eqb_refl. Qed.

Lemma endswith_app (pre suf : string) : endswith (pre +:+ suf) suf = true.
Proof.
  induction pre as [|c pre IH].
  - apply endswith_refl.
  - change (String c pre +:+ suf) with (String c (pre +:+ suf)).
    now rewrite endswith_cons, IH, orb_true_r.
Qed.

Lemma endswith_spec (s suf : string) :
  endswith s suf = true <-> exists pre, s = pre +:+ suf.
Proof.
  split.
  - induction s as [|c s IH].
    + destruct suf; [|discriminate]. intros _. now exists EmptyString.
    + rewrite endswith_cons.
      intros [->%String.eqb_eq|H]%orb_true_iff; [now exists EmptyString|].
      destruct (IH H) as [pre ->]. now exists (String c pre).
  - intros [pre ->]. apply endswith_app.
Qed.

End PyStrFacts.

(** ** Facts about [urlparse] on plain URLs *)

Module UrlParseFacts.
Import PyStr PyStrFacts UrlParse UrlShape.

#[local] Arguments String.append !_ _ / : simpl nomatch.

Lemma host_char_url (c : ascii) : host_char c = true -> url_char c = true.
Proof. each_char c. Qed.

Lemma path_char_url (c : ascii) : path_char c = true -> url_char c = true.
Proof. each_char c. Qed.

Lemma host_char_lower (c : ascii) : host_char c = true -> host_char (lower_char c) = true.
Proof. each_char c. Qed.

Lemma path_char_lower (c : ascii) : path_char c = true -> path_char (lower_char c) = true.
Proof. each_char c. Qed.

Lemma host_char_scheme (c : ascii) : host_char c = true -> scheme_char c = true.
Proof. each_char c. Qed.

Lemma host_char_not_delim (c : ascii) :
  host_char c = true -> negb (is_netloc_delim c) = true.
Proof. each_char c. Qed.

Lemma host_char_not_slash (c : ascii) :
  host_char c = true -> negb (Ascii.eqb "/" c) = true.
Proof. each_char c. Qed.

Lemma url_char_not_space (c : ascii) : url_char c = true -> negb (is_space c) = true.
Proof. each_char c. Qed.

Lemma url_char_not_c0 (c : ascii) : url_char c = true -> c0_or_space c = false.
Proof. each_char c. Qed.

Lemma lower_slash (c : ascii) : Ascii.eqb (lower_char c) "/" = Ascii.eqb c "/".
Proof. each_char c. Qed.

Lemma plain_host_lower (h : string) : plain_host h = true -> plain_host (lower h) = true.
Proof.
  unfold plain_host. intros [Hn Hh]%andb_true_iff.
  rewrite nonempty_lower, Hn. simpl.
  revert Hh. apply forallb_lower. exact host_char_lower.
Qed.

Lemma plain_path_lower (p : string) : plain_path p = true -> plain_path (lower p) = true.
Proof.
  destruct p as [|c p]; [reflexivity|]. intros Hp.
  change (plain_path (lower (String c p)))
    with (Ascii.eqb (lower_char c) "/" && forallb path_char (lower (String c p))).
  unfold plain_path in Hp. apply andb_true_iff in Hp as [Hc Hp].
  rewrite lower_slash, Hc. cbn [andb].
  revert Hp. apply forallb_lower. exact path_char_lower.
Qed.

(** The characters that [strip] and [urlsplit] would remove do not occur
    in a string of printable characters. *)
Lemma strip_url_chars (s : string) : forallb url_char s = true -> strip s = s.
Proof.
  intros Hs. unfold strip.
  assert (Hl : lstrip_by is_space s = s).
  { destruct s as [|c s]; [reflexivity|]. simpl in *.
    apply andb_true_iff in Hs as [Hc _].
    apply url_char_not_space, negb_true_iff in Hc. now rewrite Hc. }
  rewrite Hl. apply rstrip_by_id. revert Hs. apply forallb_impl.
  exact url_char_not_space.
Qed.

Lemma clean_url_chars (s : string) :
  forallb url_char s = true ->
  remove_char "010" (remove_char "013" (remove_char "009" (lstrip_by c0_or_space s))) = s.
Proof.
  intros Hs.
  assert (Hl : lstrip_by c0_or_space s = s).
  { destruct s as [|c s]; [reflexivity|]. simpl in *.
    apply andb_true_iff in Hs as [Hc _].
    now rewrite (url_char_not_c0 c Hc). }
  rewrite Hl.
  assert (Hno : forall c, url_char c = false -> remove_char c s = s).
  { intros c Hc. apply remove_char_id. now apply (has_char_false url_char). }
  now rewrite !Hno.
Qed.

Lemma span_netloc_app (h p : string) :
  forallb host_char h = true -> plain_path p = true ->
  span_netloc (h +:+ p) = (h, p).
Proof.
  intros Hh Hp. induction h as [|c h IH].
  - destruct p as [|c p]; [reflexivity|]. simpl in *.
    apply andb_true_iff in Hp as [Hc _]. apply Ascii.eqb_eq in Hc. now subst c.
  - simpl in *. apply andb_true_iff in Hh as [Hc Hh].
    apply host_char_not_delim, negb_true_iff in Hc. rewrite Hc, (IH Hh). reflexivity.
Qed.

Lemma plain_path_chars (p : string) : plain_path p = true -> forallb path_char p = true.
Proof. destruct p; [reflexivity|]. now intros [_ H]%andb_true_iff. Qed.

Lemma plain_url_chars (h p : string) :
  forallb host_char h = true -> plain_path p = true ->
  forallb url_char (h +:+ p) = true.
Proof.
  intros Hh Hp. rewrite forallb_app.
  rewrite (forallb_impl _ _ _ host_char_url Hh).
  now rewrite (forallb_impl _ _ _ path_char_url (plain_path_chars _ Hp)).
Qed.

Lemma no_delims (c : ascii) (h p : string) :
  host_char c = false -> path_char c = false ->
  forallb host_char h = true -> plain_path p = true ->
  has_char c (h +:+ p) = false.
Proof.
  intros Hc1 Hc2 Hh Hp. rewrite has_char_app.
  rewrite (has_char_false _ _ _ Hc1 Hh).
  now rewrite (has_char_false _ _ _ Hc2 (plain_path_chars _ Hp)).
Qed.

(** [urlparse] of [http(s)://host/path]. *)
Lemma urlparse_http `{UrlLib} (sch h p : string) :
  http_scheme sch = true -> forallb host_char h = true -> plain_path p = true ->
  urlparse (sch +:+ "://" +:+ h +:+ p) = Some (mkParseResult sch h p "" "" "").
Proof.
  intros Hs Hh Hp.
  assert (Hclean : forall pre, forallb url_char pre = true ->
            remove_char "010" (remove_char "013" (remove_char "009"
              (lstrip_by c0_or_space (pre +:+ h +:+ p)))) = pre +:+ h +:+ p).
  { intros pre Hpre. apply clean_url_chars.
    now rewrite forallb_app, Hpre, plain_url_chars. }
  assert (Hsp : span_netloc (h +:+ p) = (h, p)) by now apply span_netloc_app.
  assert (Hob : has_char "[" h = false) by (eapply has_char_false; [|exact Hh]; reflexivity).
  assert (Hcb : has_char "]" h = false) by (eapply has_char_false; [|exact Hh]; reflexivity).
  assert (Hfr : split_once "#" p = (p, None)).
  { apply split_once_none. eapply has_char_false; [|exact (plain_path_chars _ Hp)]. reflexivity. }
  assert (Hq : split_once "?" p = (p, None)).
  { apply split_once_none. eapply has_char_false; [|exact (plain_path_chars _ Hp)]. reflexivity. }
  assert (Hsc : has_char ";" p = false).
  { eapply has_char_false; [|exact (plain_path_chars _ Hp)]. reflexivity. }
  assert (Hst : startswith ("//" +:+ h +:+ p) "//" = true) by reflexivity.
  assert (Hnl : _splitnetloc ("//" +:+ h +:+ p) = (h, p)) by exact Hsp.
  unfold http_scheme in Hs.
  apply orb_true_iff in Hs as [->%String.eqb_eq| ->%String.eqb_eq];
    unfold urlparse, urlsplit.
  - change ("http" +:+ "://" +:+ h +:+ p) with ("http://" +:+ h +:+ p).
    rewrite (Hclean "http://" eq_refl).
    replace (split_scheme ("http://" +:+ h +:+ p)) with ("http", "//" +:+ h +:+ p)
      by reflexivity.
    cbv iota beta. rewrite Hst, Hnl. cbv iota beta. rewrite Hob, Hcb.
    cbn [andb orb negb]. cbv iota beta. rewrite Hfr. cbv iota beta.
    rewrite Hq. cbv iota beta.
    replace (existsb (String.eqb "http") uses_params) with true by reflexivity.
    rewrite Hsc. reflexivity.
  - change ("https" +:+ "://" +:+ h +:+ p) with ("https://" +:+ h +:+ p).
    rewrite (Hclean "https://" eq_refl).
    replace (split_scheme ("https://" +:+ h +:+ p)) with ("https", "//" +:+ h +:+ p)
      by reflexivity.
    cbv iota beta. rewrite Hst, Hnl. cbv iota beta. rewrite Hob, Hcb.
    cbn [andb orb negb]. cbv iota beta. rewrite Hfr. cbv iota beta.
    rewrite Hq. cbv iota beta.
    replace (existsb (String.eqb "https") uses_params) with true by reflexivity.
    rewrite Hsc. reflexivity.
Qed.

Lemma host_char_not_colon (c : ascii) : host_char c = true -> Ascii.eqb c ":" = false.
Proof. each_char c. Qed.

(** A host followed by a path is never read as [scheme:rest]. *)
Lemma split_scheme_bare (h p : string) :
  plain_host h = true -> plain_path p = true ->
  split_scheme (h +:+ p) = (EmptyString, h +:+ p).
Proof.
  unfold plain_host. intros [Hn Hh]%andb_true_iff Hp.
  unfold split_scheme.
  assert (Hc : has_char ":" h = false).
  { eapply has_char_false; [|exact Hh]. reflexivity. }
  rewrite (split_once_app _ _ _ Hc).
  destruct p as [|c p].
  - simpl. now destruct (h +:+ EmptyString).
  - unfold plain_path in Hp. apply andb_true_iff in Hp as [Hc0 _].
    apply Ascii.eqb_eq in Hc0. subst c. simpl split_once.
    destruct (split_once ":" p) as [a [b|]]; simpl fst; simpl snd.
    + destruct (h +:+ String "/" a) as [|c0 pre] eqn:E; [reflexivity|].
      rewrite <- E, forallb_app. simpl forallb.
      replace (scheme_char "/") with false by reflexivity.
      now rewrite andb_false_r, andb_false_r.
    + now destruct (h +:+ String "/" a).
Qed.

(** [urlparse] of a host and path without a scheme: everything is path. *)
Lemma urlparse_bare `{UrlLib} (h p : string) :
  plain_host h = true -> plain_path p = true ->
  urlparse (h +:+ p) = Some (mkParseResult "" "" (h +:+ p) "" "" "").
Proof.
  intros Hph Hp. pose proof Hph as Hph'.
  unfold plain_host in Hph'. apply andb_true_iff in Hph' as [Hn Hh].
  unfold urlparse, urlsplit.
  rewrite (clean_url_chars _ (plain_url_chars _ _ Hh Hp)).
  rewrite (split_scheme_bare _ _ Hph Hp). cbv iota beta.
  assert (Hst : startswith (h +:+ p) "//" = false).
  { destruct h as [|c h]; [discriminate|].
    cbn [forallb] in Hh. apply andb_true_iff in Hh as [Hc _].
    apply host_char_not_slash, negb_true_iff in Hc.
    change (startswith (String c h +:+ p) "//")
      with (Ascii.eqb "/" c && startswith (h +:+ p) "/").
    now rewrite Hc. }
  rewrite Hst.
  rewrite (split_once_none "#"), (split_once_none "?");
    try (apply no_delims; [reflexivity|reflexivity|exact Hh|exact Hp]).
  cbv iota beta.
  replace (existsb (String.eqb "") uses_params) with true by reflexivity.
  rewrite (no_delims ";" _ _ eq_refl eq_refl Hh Hp). reflexivity.
Qed.

End UrlParseFacts.

(** ** Facts about [normalize_url] and [_get_domain] on plain URLs *)

Module NormalizeFacts.
Import PyStr PyStrFacts UrlParse UrlShape UrlParseFacts Filters Base.

#[local] Arguments String.append !_ _ / : simpl nomatch.

Lemma http_scheme_cases (sch : string) :
  http_scheme sch = true -> sch = "http" \/ sch = "https".
Proof.
  unfold http_scheme. intros [H%String.eqb_eq|H%String.eqb_eq]%orb_true_iff; auto.
Qed.

Lemma strip_lower_http (sch h p : string) :
  http_scheme sch = true -> plain_host h = true -> plain_path p = true ->
  strip (lower (sch +:+ "://" +:+ h +:+ p)) = sch +:+ "://" +:+ lower h +:+ lower p.
Proof.
  intros Hs Hh Hp.
  apply plain_host_lower in Hh. apply plain_path_lower in Hp.
  unfold plain_host in Hh. apply andb_true_iff in Hh as [_ Hh].
  rewrite !lower_app.
  assert (Hl : lower sch +:+ lower "://" = sch +:+ "://")
    by (destruct (http_scheme_cases _ Hs) as [-> | ->]; reflexivity).
  rewrite <- app_assoc, Hl, app_assoc.
  apply strip_url_chars. rewrite !forallb_app.
  rewrite (forallb_impl _ _ _ host_char_url Hh).
  rewrite (forallb_impl _ _ _ path_char_url (plain_path_chars _ Hp)).
  destruct (http_scheme_cases _ Hs) as [-> | ->]; reflexivity.
Qed.

Lemma nonempty_app_l (a b : string) : nonempty a = true -> nonempty (a +:+ b) = true.
Proof. now destruct a. Qed.

Lemma nonempty_http (sch rest : string) :
  http_scheme sch = true -> nonempty (sch +:+ rest) = true.
Proof. intros Hs. destruct (http_scheme_cases _ Hs) as [-> | ->]; reflexivity. Qed.

(** The parse the repository's helpers see for [http(s)://host/path]. *)
Lemma parsed_http `{UrlLib} (sch h p : string) :
  http_scheme sch = true -> plain_host h = true -> plain_path p = true ->
  urlparse (strip (lower (sch +:+ "://" +:+ h +:+ p)))
  = Some (mkParseResult sch (lower h) (lower p) "" "" "").
Proof.
  intros Hs Hh Hp. rewrite (strip_lower_http _ _ _ Hs Hh Hp).
  apply urlparse_http; [exact Hs| |now apply plain_path_lower].
  apply plain_host_lower in Hh. unfold plain_host in Hh.
  now apply andb_true_iff in Hh as [_ Hh].
Qed.

Lemma get_domain_http `{UrlLib} (sch h p : string) :
  http_scheme sch = true -> plain_host h = true -> plain_path p = true ->
  _get_domain (sch +:+ "://" +:+ h +:+ p) = strip_www (lower h).
Proof.
  intros Hs Hh Hp. unfold _get_domain.
  rewrite (nonempty_http _ _ Hs). cbn [negb].
  rewrite (parsed_http _ _ _ Hs Hh Hp).
  unfold netloc_or_first_segment. cbn [netloc].
  apply plain_host_lower in Hh. unfold plain_host in Hh.
  apply andb_true_iff in Hh as [Hn _]. now rewrite Hn.
Qed.

Lemma normalize_url_http `{UrlLib} (sch h p : string) :
  http_scheme sch = true -> plain_host h = true -> plain_path p = true ->
  normalize_url (sch +:+ "://" +:+ h +:+ p)
  = Some (strip_www (lower h) +:+ rstrip_char "/" (lower p)).
Proof.
  intros Hs Hh Hp. unfold normalize_url.
  rewrite (nonempty_http _ _ Hs). cbn [negb].
  rewrite (parsed_http _ _ _ Hs Hh Hp).
  unfold netloc_or_first_segment. cbn [netloc path].
  apply plain_host_lower in Hh. unfold plain_host in Hh.
  apply andb_true_iff in Hh as [Hn _]. now rewrite Hn.
Qed.

Lemma no_slash_in_host (h : string) :
  forallb host_char h = true -> has_char "/" h = false.
Proof. apply has_char_false. reflexivity. Qed.

(** A bare host is both the host and the path of its parse. *)
Lemma normalize_url_bare `{UrlLib} (h : string) :
  plain_host h = true ->
  normalize_url h = Some (strip_www (lower h) +:+ lower h).
Proof.
  intros Hh. unfold normalize_url.
  pose proof Hh as Hh0. unfold plain_host in Hh0.
  apply andb_true_iff in Hh0 as [Hn _]. rewrite Hn. cbn [negb].
  apply plain_host_lower in Hh. pose proof Hh as Hh1.
  unfold plain_host in Hh1. apply andb_true_iff in Hh1 as [Hn' Hc].
  rewrite (strip_url_chars (lower h)) by (revert Hc; apply forallb_impl, host_char_url).
  pose proof (urlparse_bare (lower h) EmptyString Hh eq_refl) as Hparse.
  rewrite app_empty_r in Hparse. rewrite Hparse.
  unfold netloc_or_first_segment. cbn [netloc path nonempty negb andb].
  rewrite (no_slash_in_host _ Hc).
  rewrite (split_once_none _ _ (no_slash_in_host _ Hc)). cbn [fst].
  unfold rstrip_char. rewrite rstrip_by_id; [reflexivity|].
  revert Hc. apply forallb_impl. exact host_char_not_slash.
Qed.

Lemma rstrip_plain_path (p : string) :
  plain_path p = true -> plain_path (rstrip_char "/" p) = true.
Proof.
  intros Hp. unfold rstrip_char.
  pose proof (forallb_rstrip path_char (Ascii.eqb "/") _ (plain_path_chars _ Hp)) as Hall.
  destruct (rstrip_by (Ascii.eqb "/") p) as [|c' r] eqn:E; [reflexivity|].
  destruct p as [|c p]; [discriminate E|].
  assert (Hne : rstrip_by (Ascii.eqb "/") (String c p) <> EmptyString)
    by (rewrite E; discriminate).
  pose proof (rstrip_by_head _ _ _ Hne) as Hhead.
  rewrite E in Hhead. injection Hhead as Hc' _. subst c'.
  unfold plain_path in Hp |- *. apply andb_true_iff in Hp as [Hc _].
  rewrite Hc. exact Hall.
Qed.

(** A lower-case [host/path] without [www.] and without trailing slash is
    left alone. *)
Lemma normalize_url_fixed `{UrlLib} (h p : string) :
  plain_host h = true -> plain_path p = true ->
  forallb no_upper h = true -> forallb no_upper p = true ->
  startswith h "www." = false -> nonempty p = true ->
  rstrip_char "/" p = p ->
  normalize_url (h +:+ p) = Some (h +:+ p).
Proof.
  intros Hh Hp Hlh Hlp Hw Hne Hr. unfold no_upper in Hlh, Hlp. unfold normalize_url.
  pose proof Hh as Hh0. unfold plain_host in Hh0.
  apply andb_true_iff in Hh0 as [Hn Hc].
  rewrite (nonempty_app_l _ _ Hn). cbn [negb].
  rewrite (lower_fixed (h +:+ p)) by (rewrite forallb_app; now rewrite Hlh, Hlp).
  rewrite (strip_url_chars (h +:+ p)) by now apply plain_url_chars.
  rewrite (urlparse_bare _ _ Hh Hp).
  cbn [netloc path nonempty negb andb].
  destruct p as [|c p']; [discriminate|].
  pose proof Hp as Hp0. unfold plain_path in Hp0.
  apply andb_true_iff in Hp0 as [Hc0 _]. apply Ascii.eqb_eq in Hc0. subst c.
  rewrite has_char_app. replace (has_char "/" (String "/" p')) with true by reflexivity.
  rewrite orb_true_r.
  rewrite (split_once_app _ _ _ (no_slash_in_host _ Hc)).
  replace (split_once "/" (String "/" p')) with (EmptyString, Some p') by reflexivity.
  cbn [fst snd]. rewrite app_empty_r.
  unfold strip_www. rewrite Hw.
  assert (Hne' : rstrip_by (Ascii.eqb "/") (String "/" p') <> EmptyString)
    by (unfold rstrip_char in Hr; now rewrite Hr).
  pose proof (rstrip_by_head _ _ _ Hne') as Hhead.
  unfold rstrip_char in Hr. rewrite Hr in Hhead. injection Hhead as Hp'.
  unfold rstrip_char. now rewrite <- Hp'.
Qed.

End NormalizeFacts.

(** ** The URL classifier *)

Module FiltersSpec.
Import PyStr PyStrFacts UrlParse UrlShape UrlParseFacts NormalizeFacts Filters.

#[local] Arguments String.append !_ _ / : simpl nomatch.

Lemma is_blocked_url_eq `{UrlLib} (cfg : Settings) (url : string) :
  is_blocked_url cfg url
  = domain_blocked cfg url || (negb (is_aggregator_url cfg url) && path_blocked cfg url).
Proof.
  unfold is_blocked_url, domain_blocked, is_aggregator_url, path_blocked.
  destruct (existsb _ (AUTO_DIRECTORY_DOMAIN_BLOCKLIST cfg)); [reflexivity|].
  now destruct (existsb _ (AUTO_DIRECTORY_AGGREGATOR_DOMAINS cfg)).
Qed.

(** C4. Classification is total on strings, always one of the six tags,
    with first-match-wins precedence blocked, aggregator, github (which
    yields blocked when GitHub acceptance is switched off), allowlist,
    non_root, normal; and a URL of an aggregator domain is blocked only
    through the domain blocklist, never through the path blocklist. *)
Theorem classification_total_and_ordered `{UrlLib} (cfg : Settings) (url : string) :
  let c := get_url_classification cfg url in
  In c URLClassification
  /\ (c = "blocked" <->
      is_blocked_url cfg url = true
      \/ (is_aggregator_url cfg url = false /\ is_github_url url = true
          /\ AUTO_DIRECTORY_GITHUB_VALID cfg = false))
  /\ (c = "aggregator" <->
      is_blocked_url cfg url = false /\ is_aggregator_url cfg url = true)
  /\ (c = "github" <->
      is_blocked_url cfg url = false /\ is_aggregator_url cfg url = false
      /\ is_github_url url = true /\ AUTO_DIRECTORY_GITHUB_VALID cfg = true)
  /\ (c = "allowlist" <->
      is_blocked_url cfg url = false /\ is_aggregator_url cfg url = false
      /\ is_github_url url = false /\ is_allowlisted_url cfg url = true)
  /\ (c = "non_root" <->
      is_blocked_url cfg url = false /\ is_aggregator_url cfg url = false
      /\ is_github_url url = false /\ is_allowlisted_url cfg url = false
      /\ is_non_root_url url = true)
  /\ (c = "normal" <->
      is_blocked_url cfg url = false /\ is_aggregator_url cfg url = false
      /\ is_github_url url = false /\ is_allowlisted_url cfg url = false
      /\ is_non_root_url url = false)
  /\ (is_aggregator_url cfg url = true ->
      (c = "blocked" <-> domain_blocked cfg url = true)
      /\ (domain_blocked cfg url = false -> c = "aggregator")).
Proof.
  cbv zeta. unfold get_url_classification. rewrite is_blocked_url_eq.
  destruct (domain_blocked cfg url), (is_aggregator_url cfg url),
           (path_blocked cfg url), (is_github_url url),
           (AUTO_DIRECTORY_GITHUB_VALID cfg), (is_allowlisted_url cfg url),
           (is_non_root_url url); simpl;
    repeat split; intros;
    solve [ reflexivity | discriminate | tauto
          | intuition (first [reflexivity | discriminate | congruence]) ].
Qed.

Lemma lower_star (c : ascii) : Ascii.eqb "*" (lower_char c) = Ascii.eqb "*" c.
Proof. each_char c. Qed.

Lemma lower_dot (c : ascii) : Ascii.eqb "." (lower_char c) = Ascii.eqb "." c.
Proof. each_char c. Qed.

Lemma startswith_star_lower (p : string) :
  startswith (lower p) "*." = startswith p "*.".
Proof.
  destruct p as [|a [|b p]]; try reflexivity.
  - cbn [lower startswith]. now rewrite lower_star.
  - cbn [lower startswith]. now rewrite lower_star, lower_dot.
Qed.

Lemma domain_matches_case (d d' p p' : string) :
  lower d = lower d' -> lower p = lower p' ->
  _domain_matches d p = _domain_matches d' p'.
Proof.
  intros Hd Hp. unfold _domain_matches.
  rewrite <- (nonempty_lower d), <- (nonempty_lower p).
  rewrite <- (nonempty_lower d'), <- (nonempty_lower p').
  now rewrite Hd, Hp.
Qed.

Lemma domain_matches_wildcard (d base : string) :
  nonempty d = true ->
  _domain_matches d ("*." +:+ base) = true
  <-> lower d = lower base \/ exists sub, lower d = sub +:+ "." +:+ lower base.
Proof.
  intros Hd. unfold _domain_matches. rewrite Hd.
  replace (nonempty ("*." +:+ base)) with true by reflexivity.
  cbn [negb orb]. rewrite lower_app.
  replace (lower "*.") with "*." by reflexivity.
  rewrite startswith_app.
  replace (drop 2 ("*." +:+ lower base)) with (lower base) by reflexivity.
  now rewrite orb_true_iff, String.eqb_eq, endswith_spec.
Qed.

Lemma domain_matches_plain (d p : string) :
  nonempty d = true -> nonempty p = true -> startswith p "*." = false ->
  _domain_matches d p = true
  <-> lower d = lower p \/ exists sub, lower d = sub +:+ "." +:+ lower p.
Proof.
  intros Hd Hp Hw. unfold _domain_matches. rewrite Hd, Hp.
  cbn [negb orb]. rewrite startswith_star_lower, Hw.
  now rewrite orb_true_iff, String.eqb_eq, endswith_spec.
Qed.

(** C5 (as amended). Matching ignores letter case; [_get_domain] lowers
    the host of an [http(s)] URL and strips one leading [www.] before any
    comparison; a pattern [*.base] matches exactly [base] and the domains
    ending in [.base]; a pattern without the wildcard prefix matches the
    domain equal to it and, like the wildcard form, every domain ending in
    [.pattern]. *)
Theorem domain_matching_discipline `{UrlLib} :
  (forall d d' p p', lower d = lower d' -> lower p = lower p' ->
     _domain_matches d p = _domain_matches d' p')
  /\ (forall sch h p, http_scheme sch = true -> plain_host h = true ->
        plain_path p = true ->
        _get_domain (sch +:+ "://" +:+ h +:+ p) = strip_www (lower h)
        /\ _get_domain (sch +:+ "://www." +:+ h +:+ p) = lower h)
  /\ (forall d base, nonempty d = true ->
        (_domain_matches d ("*." +:+ base) = true
         <-> lower d = lower base
             \/ exists sub, lower d = sub +:+ "." +:+ lower base))
  /\ (forall d p, nonempty d = true -> nonempty p = true ->
        startswith p "*." = false ->
        (_domain_matches d p = true
         <-> lower d = lower p
             \/ exists sub, lower d = sub +:+ "." +:+ lower p)).
Proof.
  split; [exact domain_matches_case|].
  split; [|split; [exact domain_matches_wildcard|exact domain_matches_plain]].
  intros sch h p Hs Hh Hp. split; [now apply get_domain_http|].
  assert (Hw : plain_host ("www." +:+ h) = true).
  { unfold plain_host in *. apply andb_true_iff in Hh as [_ Hh].
    rewrite forallb_app, Hh. reflexivity. }
  pose proof (get_domain_http sch ("www." +:+ h) p Hs Hw Hp) as Hd.
  rewrite lower_app in Hd.
  replace (sch +:+ "://www." +:+ h +:+ p) with (sch +:+ "://" +:+ ("www." +:+ h) +:+ p)
    by reflexivity.
  rewrite Hd. reflexivity.
Qed.

(** C5, the statement as written fails: a pattern without wildcard
    matches a proper subdomain. *)
Lemma plain_pattern_matches_subdomain :
  _domain_matches "sub.example.com" "example.com" = true
  /\ startswith "example.com" "*." = false
  /\ "sub.example.com" <> "example.com".
Proof. repeat split. discriminate. Qed.

(** C6. Where [get_block_reason] departs from the classification: a
    GitHub URL blocked by the configuration switch has no reason, and an
    aggregator URL that is not blocked is given one. *)
Theorem get_block_reason_disagrees `{UrlLib} :
  (get_url_classification Examples.github_disabled "https://github.com/acme/agent"
     = "blocked"
   /\ get_block_reason Examples.github_disabled "https://github.com/acme/agent" = None)
  /\ (get_url_classification Examples.aggregator_settings
        "https://www.ycombinator.com/companies/foo" = "aggregator"
      /\ get_block_reason Examples.aggregator_settings
           "https://www.ycombinator.com/companies/foo"
         = Some "Path contains blocked pattern '/companies/'").
Proof. repeat split; vm_compute; reflexivity. Qed.

End FiltersSpec.

(** ** The URL normaliser *)

Module NormalizeSpec.
Import PyStr PyStrFacts UrlParse UrlShape UrlParseFacts NormalizeFacts Filters Base.

#[local] Arguments String.append !_ _ / : simpl nomatch.

Lemma normalize_url_case `{UrlLib} (u v : string) :
  lower v = lower u -> normalize_url v = normalize_url u.
Proof.
  intros Huv. unfold normalize_url.
  rewrite <- (nonempty_lower v), <- (nonempty_lower u). now rewrite Huv.
Qed.

Lemma strip_www_host (h : string) :
  forallb host_char h = true -> forallb host_char (strip_www h) = true.
Proof. intros Hh. unfold strip_www. destruct (startswith h "www."); [now apply forallb_drop|exact Hh]. Qed.

Lemma strip_www_no_upper (h : string) :
  forallb no_upper h = true -> forallb no_upper (strip_www h) = true.
Proof. intros Hh. unfold strip_www. destruct (startswith h "www."); [now apply forallb_drop|exact Hh]. Qed.

Lemma plain_path_snoc (p : string) :
  plain_path p = true -> plain_path (p +:+ "/") = true.
Proof.
  destruct p as [|c p]; [reflexivity|]. intros Hp.
  change (plain_path (String c p +:+ "/"))
    with (Ascii.eqb c "/" && forallb path_char (String c p +:+ "/")).
  unfold plain_path in Hp. apply andb_true_iff in Hp as [Hc Hp].
  rewrite Hc. cbn [andb]. now rewrite forallb_app, Hp.
Qed.

(** Where the normal form is as intended: for [http(s)://host/path] built
    from a plain host and path, [normalize_url] returns the lower-cased host
    without one leading [www.] followed by the lower-cased path without
    trailing slashes; scheme, letter case, one leading [www.] and a trailing
    slash do not change the result; and the result is a fixed point when its
    path is not empty (and the stripped host is non-empty and does not
    itself start with [www.]). *)
Lemma normalize_url_http_form `{UrlLib} (sch h p : string) :
  http_scheme sch = true -> plain_host h = true -> plain_path p = true ->
  let u := sch +:+ "://" +:+ h +:+ p in
  let hh := strip_www (lower h) in
  let pp := rstrip_char "/" (lower p) in
  normalize_url u = Some (hh +:+ pp)
  /\ (nonempty hh = true -> startswith hh "www." = false -> nonempty pp = true ->
      normalize_url (hh +:+ pp) = Some (hh +:+ pp))
  /\ normalize_url ("http://" +:+ h +:+ p) = normalize_url ("https://" +:+ h +:+ p)
  /\ (forall v, lower v = lower u -> normalize_url v = normalize_url u)
  /\ (startswith (lower h) "www." = false ->
      normalize_url (sch +:+ "://www." +:+ h +:+ p) = normalize_url u)
  /\ normalize_url (u +:+ "/") = normalize_url u.
Proof.
  intros Hs Hh Hp u hh pp.
  assert (Hu : normalize_url u = Some (hh +:+ pp)) by now apply normalize_url_http.
  pose proof (plain_host_lower _ Hh) as Hlh. unfold plain_host in Hlh.
  apply andb_true_iff in Hlh as [_ Hlh].
  assert (Hhh : forallb host_char hh = true) by now apply strip_www_host.
  assert (Hhu : forallb no_upper hh = true)
    by (apply strip_www_no_upper, no_upper_lower).
  split; [exact Hu|]. split; [|split; [|split; [|split]]].
  - intros Hne Hw Hpne. apply normalize_url_fixed; try assumption.
    + unfold plain_host. now rewrite Hne, Hhh.
    + apply rstrip_plain_path. now apply plain_path_lower.
    + apply forallb_rstrip, no_upper_lower.
    + apply rstrip_by_idem.
  - change ("http://" +:+ h +:+ p) with ("http" +:+ "://" +:+ h +:+ p).
    change ("https://" +:+ h +:+ p) with ("https" +:+ "://" +:+ h +:+ p).
    now rewrite !normalize_url_http.
  - intros v Hv. now apply normalize_url_case.
  - intros Hw.
    assert (Hwh : plain_host ("www." +:+ h) = true).
    { unfold plain_host in *. apply andb_true_iff in Hh as [_ Hh'].
      rewrite forallb_app, Hh'. reflexivity. }
    replace (sch +:+ "://www." +:+ h +:+ p)
      with (sch +:+ "://" +:+ ("www." +:+ h) +:+ p) by reflexivity.
    rewrite (normalize_url_http _ _ _ Hs Hwh Hp), Hu.
    rewrite lower_app. subst hh. unfold strip_www at 2. rewrite Hw. reflexivity.
  - assert (Heq : u +:+ "/" = sch +:+ "://" +:+ h +:+ (p +:+ "/"))
      by (subst u; now rewrite !app_assoc).
    rewrite Heq, (normalize_url_http _ _ _ Hs Hh (plain_path_snoc _ Hp)), Hu.
    rewrite lower_app. replace (lower "/") with "/" by reflexivity.
    subst pp. unfold rstrip_char.
    now rewrite (rstrip_by_snoc (Ascii.eqb "/") (lower p) "/" eq_refl).
Qed.

Lemma length_app (a b : string) :
  String.length (a +:+ b) = (String.length a + String.length b)%nat.
Proof. induction a as [|c a IH]; cbn [String.append String.length]; [reflexivity|]. now rewrite IH. Qed.

Lemma app_self_differs (s : string) : nonempty s = true -> s +:+ s <> s.
Proof.
  intros Hn Heq. apply (f_equal String.length) in Heq. rewrite length_app in Heq.
  destruct s as [|c s]; [discriminate Hn|]. cbn [String.length] in Heq. lia.
Qed.

(** C10.  Idempotence fails on inputs that carry a scheme: every
    [http(s)://host] without path (plain host, not empty after the removal
    of one leading [www.] and not starting with [www.] again) is normalised
    to its host, and that host, normalised again, is answered by the host
    written twice.  The branch for an input without scheme takes the host
    from the path but leaves the path as it is unless it holds a [/]. *)
Theorem normalize_url_not_idempotent_on_hosts `{UrlLib} (sch h : string) :
  http_scheme sch = true -> plain_host h = true ->
  let hh := strip_www (lower h) in
  nonempty hh = true -> startswith hh "www." = false ->
  normalize_url (sch +:+ "://" +:+ h) = Some hh
  /\ normalize_url hh = Some (hh +:+ hh)
  /\ normalize_url hh <> normalize_url (sch +:+ "://" +:+ h).
Proof.
  intros Hs Hh hh Hne Hw.
  assert (H1 : normalize_url (sch +:+ "://" +:+ h) = Some hh).
  { pose proof (normalize_url_http sch h EmptyString Hs Hh eq_refl) as Hu.
    change (rstrip_char "/" (lower EmptyString)) with EmptyString in Hu.
    rewrite !app_empty_r in Hu. exact Hu. }
  assert (H2 : normalize_url hh = Some (hh +:+ hh)).
  { pose proof (plain_host_lower _ Hh) as Hlh. unfold plain_host in Hlh.
    apply andb_true_iff in Hlh as [_ Hlh].
    assert (Hhh : forallb host_char hh = true) by now apply strip_www_host.
    assert (Hhu : forallb no_upper hh = true)
      by (apply strip_www_no_upper, no_upper_lower).
    assert (Hph : plain_host hh = true) by (unfold plain_host; now rewrite Hne, Hhh).
    rewrite (normalize_url_bare _ Hph).
    rewrite (lower_fixed hh Hhu). unfold strip_www at 1. now rewrite Hw. }
  split; [exact H1|]. split; [exact H2|].
  rewrite H1, H2. intros [= Heq]. exact (app_self_differs hh Hne Heq).
Qed.

End NormalizeSpec.

(** ** The sourcing service *)

Module SourcingSpec.
Import PyStr PyStrFacts Models World Base Sourcing.

Lemma not_rejected (st : SubmissionStatus) :
  negb (status_eqb st REJECTED) = true <-> st <> REJECTED.
Proof. destruct st; simpl; split; intros; congruence. Qed.

(** What [add_normalized] returns: it fails on the first website that does
    not parse, and otherwise adds exactly the non-empty normal forms. *)
Lemma add_normalized_spec `{UrlLib} (ws : list string) (urls : gset string) :
  match add_normalized ws urls with
  | None => exists w, In w ws /\ normalize_url w = None
  | Some r =>
      forall n, (n ∈ r) <->
        (n ∈ urls) \/ (n <> EmptyString /\ exists w, In w ws /\ normalize_url w = Some n)
  end.
Proof.
  revert urls. induction ws as [|w ws IH]; intros urls; simpl.
  - intros n. split; [auto|]. intros [Hn|(_ & w & [] & _)]. exact Hn.
  - destruct (normalize_url w) as [m|] eqn:Hw; [|now exists w; auto].
    specialize (IH (if nonempty m then {[m]} ∪ urls else urls)).
    destruct (add_normalized ws _) as [r|].
    + intros n. rewrite IH. clear IH. split.
      * intros [Hn|(Hne & w' & Hin & Hw')].
        -- destruct (nonempty m) eqn:Hm; [|now left].
           apply elem_of_union in Hn as [->%elem_of_singleton|Hn]; [|now left].
           right. split; [now apply nonempty_true|]. exists w. auto.
        -- right. split; [exact Hne|]. exists w'. auto.
      * intros [Hn|(Hne & w' & [<-|Hin] & Hw')].
        -- left. destruct (nonempty m); [set_solver|exact Hn].
        -- left. rewrite Hw in Hw'. injection Hw' as ->.
           apply nonempty_true in Hne. rewrite Hne. set_solver.
        -- right. split; [exact Hne|]. exists w'. auto.
    + destruct IH as (w' & Hin & Hw'). exists w'. auto.
Qed.

Lemma existing_urls_char `{UrlLib} (d : Db) :
  match _get_existing_urls d with
  | None =>
      (exists a, In a (agents d) /\ normalize_url (agent_website_ a) = None)
      \/ (exists s, In s (submissions d) /\ status s <> REJECTED
                    /\ normalize_url (agent_website s) = None)
  | Some urls =>
      forall n, (n ∈ urls) <->
         n <> EmptyString
         /\ ((exists a, In a (agents d) /\ normalize_url (agent_website_ a) = Some n)
             \/ (exists s, In s (submissions d) /\ status s <> REJECTED
                           /\ normalize_url (agent_website s) = Some n))
  end.
Proof.
  unfold _get_existing_urls.
  pose proof (add_normalized_spec (List.map agent_website_ (agents d)) ∅) as Ha.
  destruct (add_normalized (List.map agent_website_ (agents d)) ∅) as [u1|].
  2:{ left. destruct Ha as (w & (a & <- & Hin)%in_map_iff & Hw). eauto. }
  pose proof (add_normalized_spec
    (List.map agent_website
       (List.filter (fun s => negb (status_eqb (status s) REJECTED)) (submissions d))) u1) as Hs.
  destruct (add_normalized _ u1) as [urls|] eqn:E.
  2:{ right. destruct Hs as (w & (s & <- & Hin)%in_map_iff & Hw).
      apply filter_In in Hin as [Hin Hst]. apply not_rejected in Hst. eauto. }
  intros n. rewrite Hs, Ha. split.
  - intros [[Hn|(Hne & w & (a & <- & Hin)%in_map_iff & Hw)]
           |(Hne & w & (s & <- & Hin)%in_map_iff & Hw)].
    + set_solver.
    + split; [exact Hne|]. left. eauto.
    + apply filter_In in Hin as [Hin Hst]. apply not_rejected in Hst.
      split; [exact Hne|]. right. eauto.
  - intros (Hne & [(a & Hin & Hw)|(s & Hin & Hst & Hw)]).
    + left. right. split; [exact Hne|]. exists (agent_website_ a).
      split; [|exact Hw]. apply in_map_iff. eauto.
    + right. split; [exact Hne|]. exists (agent_website s).
      split; [|exact Hw]. apply in_map_iff. exists s. split; [reflexivity|].
      apply filter_In. split; [exact Hin|]. now apply not_rejected.
Qed.

(** A first candidate that is not blocked and whose non-empty normal form
    is not in the set is kept. *)
Lemma filter_discoveries_fresh `{UrlLib} (cfg : Settings) (a : DiscoveredAgent)
    (rest : list DiscoveredAgent) (urls : gset string) (b dup : nat) (n : string) :
  Filters.get_url_classification cfg (website a) <> "blocked" ->
  normalize_url (website a) = Some n -> n <> EmptyString -> n ∉ urls ->
  filter_discoveries cfg (a :: rest) urls b dup
  = match filter_discoveries cfg rest ({[n]} ∪ urls) b dup with
    | None => None
    | Some (kept, urls', b', dup') => Some (classified cfg a :: kept, urls', b', dup')
    end.
Proof.
  intros Hcls Hw Hne Hnot. cbn [filter_discoveries].
  apply String.eqb_neq in Hcls. rewrite Hcls, Hw.
  apply nonempty_true in Hne. rewrite Hne. cbn [negb orb].
  now rewrite (bool_decide_eq_false_2 _ Hnot).
Qed.

(** C7. The set seeded at the start of a run holds exactly the non-empty
    normal forms of the websites of all directory entries and of all
    submissions that are not REJECTED (the computation fails only on a
    stored website that [urlparse] refuses).  Hence a normal form that
    occurs only among REJECTED submissions is absent from the set, and a
    later discovery of a URL with that normal form passes the duplicate
    test: unless it is blocked or its normal form is empty, a submission is
    created for it. *)
Theorem existing_urls_seed `{UrlLib} (d : Db) :
  match _get_existing_urls d with
  | None =>
      (exists a, In a (agents d) /\ normalize_url (agent_website_ a) = None)
      \/ (exists s, In s (submissions d) /\ status s <> REJECTED
                    /\ normalize_url (agent_website s) = None)
  | Some urls =>
      (forall n, (n ∈ urls) <->
         n <> EmptyString
         /\ ((exists a, In a (agents d) /\ normalize_url (agent_website_ a) = Some n)
             \/ (exists s, In s (submissions d) /\ status s <> REJECTED
                           /\ normalize_url (agent_website s) = Some n)))
      /\ (forall n,
            (forall a, In a (agents d) -> normalize_url (agent_website_ a) <> Some n) ->
            (forall s, In s (submissions d) -> normalize_url (agent_website s) = Some n ->
                       status s = REJECTED) ->
            (n ∉ urls)
            /\ (forall cfg src a,
                  normalize_url (website a) = Some n -> n <> EmptyString ->
                  Filters.get_url_classification cfg (website a) <> "blocked" ->
                  exists d',
                    _process_discoveries cfg [a] src d
                    = inr ([new_submission (next_submission_pk d) src a
                              (Filters.get_url_classification cfg (website a))], d')))
  end.
Proof.
  pose proof (existing_urls_char d) as Hchar.
  destruct (_get_existing_urls d) as [urls|] eqn:E; [|exact Hchar].
  split; [exact Hchar|].
  intros n Hag Hsub.
  assert (Hnot : n ∉ urls).
  { rewrite Hchar. intros (_ & [(a & Hin & Hw)|(s & Hin & Hst & Hw)]).
    - exact (Hag a Hin Hw).
    - exact (Hst (Hsub s Hin Hw)). }
  split; [exact Hnot|].
  intros cfg src a Hw Hne Hcls.
  unfold _process_discoveries. rewrite E.
  rewrite (filter_discoveries_fresh cfg a [] urls 0 0 n Hcls Hw Hne Hnot).
  eexists. reflexivity.
Qed.

Lemma create_submissions_kept (src : string) (kept : list (DiscoveredAgent * string)) (d : Db) :
  Forall2 (fun s k => exists k0, s = new_submission k0 src (fst k) (snd k))
          (fst (create_submissions src kept d)) kept.
Proof.
  revert d. induction kept as [|[a cls] kept IH]; intros d; simpl; [constructor|].
  specialize (IH (bump_submission_pk (set_submissions d
                    (submissions d ++ [new_submission (next_submission_pk d) src a cls])))).
  destruct (create_submissions src kept _) as [l d'].
  constructor; [now eexists|exact IH].
Qed.

(** The kept candidates with normal form [n]: none when [n] is empty or
    already in the set, otherwise the earliest candidate that is not
    blocked. *)
Lemma kept_for `{UrlLib} (cfg : Settings) (n : string) (ds : list DiscoveredAgent) :
  forall urls b dup kept urls' b' dup',
  filter_discoveries cfg ds urls b dup = Some (kept, urls', b', dup') ->
  List.filter (has_norm n) kept
  = if bool_decide (n ∈ urls) || negb (nonempty n) then []
    else match List.find (candidate_for cfg n) ds with
         | Some a => [classified cfg a]
         | None => []
         end.
Proof.
  induction ds as [|a rest IH]; intros urls b dup kept urls' b' dup' Hf.
  - injection Hf as <- _ _ _. simpl. now destruct (_ || _).
  - cbn [filter_discoveries] in Hf. cbn [List.find]. unfold candidate_for at 1.
    destruct (String.eqb (Filters.get_url_classification cfg (website a)) "blocked") eqn:Hb.
    { cbn [negb andb]. exact (IH _ _ _ _ _ _ _ Hf). }
    destruct (normalize_url (website a)) as [m|] eqn:Hw; [|discriminate].
    cbn [negb andb].
    destruct (negb (nonempty m) || bool_decide (m ∈ urls)) eqn:Hc.
    + rewrite (IH _ _ _ _ _ _ _ Hf).
      destruct (decide (Some m = Some n)) as [Hmn|Hmn].
      * rewrite (bool_decide_eq_true_2 _ Hmn). injection Hmn as ->.
        rewrite orb_comm in Hc. now rewrite Hc.
      * now rewrite (bool_decide_eq_false_2 _ Hmn).
    + apply orb_false_iff in Hc as [Hne Hin].
      apply negb_false_iff in Hne. apply bool_decide_eq_false in Hin.
      destruct (filter_discoveries cfg rest ({[m]} ∪ urls) b dup)
        as [[[[kept0 u0] b0] d0]|] eqn:Hr; [|discriminate].
      injection Hf as <- _ _ _. cbn [List.filter]. unfold has_norm at 1. cbn [fst].
      rewrite Hw, (IH _ _ _ _ _ _ _ Hr).
      destruct (decide (Some m = Some n)) as [Hmn|Hmn].
      * rewrite (bool_decide_eq_true_2 _ Hmn). injection Hmn as ->.
        rewrite (bool_decide_eq_true_2 (n ∈ {[n]} ∪ urls)) by set_solver.
        rewrite (bool_decide_eq_false_2 _ Hin), Hne. reflexivity.
      * rewrite (bool_decide_eq_false_2 _ Hmn).
        assert (Hiff : bool_decide (n ∈ {[m]} ∪ urls) = bool_decide (n ∈ urls)).
        { apply bool_decide_ext. split; [|set_solver].
          intros [->%elem_of_singleton|Hn]%elem_of_union; [congruence|exact Hn]. }
        now rewrite Hiff.
Qed.

Lemma filter_discoveries_total `{UrlLib} (cfg : Settings) (ds : list DiscoveredAgent) :
  (forall x, In x ds -> normalize_url (website x) <> None) ->
  forall urls b dup, exists r, filter_discoveries cfg ds urls b dup = Some r.
Proof.
  induction ds as [|a rest IH]; intros Hp urls b dup; [now eexists|].
  cbn [filter_discoveries].
  assert (Hrest : forall x, In x rest -> normalize_url (website x) <> None)
    by (intros x Hx; apply Hp; now right).
  destruct (String.eqb _ "blocked"); [now apply IH|].
  destruct (normalize_url (website a)) as [m|] eqn:Hw; [|now destruct (Hp a (or_introl eq_refl))].
  destruct (negb (nonempty m) || bool_decide (m ∈ urls)); [now apply IH|].
  destruct (IH Hrest ({[m]} ∪ urls) b dup) as [[[[k u] b0] d0] ->]. now eexists.
Qed.

(** Every candidate with normal form [n] beyond those kept is dropped. *)
Lemma filter_discoveries_dropped `{UrlLib} (cfg : Settings) (n : string)
    (ds : list DiscoveredAgent) :
  forall urls b dup kept urls' b' dup',
  filter_discoveries cfg ds urls b dup = Some (kept, urls', b', dup') ->
  (List.length kept + List.length (List.filter (candidate_for cfg n) ds)
   <= List.length ds + List.length (List.filter (has_norm n) kept))%nat.
Proof.
  induction ds as [|a rest IH]; intros urls b dup kept urls' b' dup' Hf.
  - injection Hf as <- _ _ _. simpl. lia.
  - cbn [filter_discoveries] in Hf. cbn [List.filter List.length].
    unfold candidate_for at 1.
    destruct (String.eqb (Filters.get_url_classification cfg (website a)) "blocked") eqn:Hb.
    { cbn [negb andb]. specialize (IH _ _ _ _ _ _ _ Hf). lia. }
    destruct (normalize_url (website a)) as [m|] eqn:Hw; [|discriminate].
    cbn [negb andb].
    destruct (negb (nonempty m) || bool_decide (m ∈ urls)).
    + specialize (IH _ _ _ _ _ _ _ Hf).
      destruct (bool_decide (Some m = Some n)); cbn [List.length]; lia.
    + destruct (filter_discoveries cfg rest ({[m]} ∪ urls) b dup)
        as [[[[kept0 u0] b0] d0]|] eqn:Hr; [|discriminate].
      injection Hf as <- _ _ _. specialize (IH _ _ _ _ _ _ _ Hr).
      cbn [List.filter List.length]. unfold has_norm at 1. cbn [fst]. rewrite Hw.
      destruct (bool_decide (Some m = Some n)); cbn [List.length]; lia.
Qed.

(** C8 (as amended). In one sourcing run whose stored and discovered URLs
    all parse, take a non-empty normal form [n] that is not in the seeded
    set and let [a] be the earliest discovered candidate that is not blocked
    and has that normal form.  Then the submissions created correspond one
    to one to the kept candidates, exactly one kept candidate has normal
    form [n], it is [a], and every other candidate with normal form [n] is
    dropped: the run records [skipped_count = discovered_count - new_count],
    which counts each of them. *)
Theorem in_batch_dedup `{UrlLib} (cfg : Settings) (d : Db) (src : string)
    (ds : list DiscoveredAgent) (urls : gset string) (n : string) (a : DiscoveredAgent) :
  _get_existing_urls d = Some urls ->
  (forall x, In x ds -> normalize_url (website x) <> None) ->
  n <> EmptyString -> n ∉ urls ->
  List.find (candidate_for cfg n) ds = Some a ->
  exists kept,
    _process_discoveries cfg ds src d = inr (create_submissions src kept d)
    /\ Forall2 (fun s k => exists k0, s = new_submission k0 src (fst k) (snd k))
               (fst (create_submissions src kept d)) kept
    /\ List.filter (has_norm n) kept = [classified cfg a]
    /\ (List.length kept + List.length (List.filter (candidate_for cfg n) ds)
        <= List.length ds + 1)%nat
    /\ (forall env source limit st,
          db st = d -> src_id source = src -> discover source limit = Returned ds ->
          let r := fst (run cfg env source limit false st) in
          run_success r = true
          /\ discovered_count r = List.length ds
          /\ new_count r = List.length kept
          /\ skipped_count r = (List.length ds - List.length kept)%nat).
Proof.
  intros Hseed Hparse Hne Hnot Hfind.
  destruct (filter_discoveries_total cfg ds Hparse urls 0%nat 0%nat)
    as [[[[kept u'] b'] dup'] Hf].
  exists kept.
  pose proof (kept_for cfg n ds _ _ _ _ _ _ _ Hf) as Hk.
  rewrite (bool_decide_eq_false_2 _ Hnot) in Hk.
  apply nonempty_true in Hne. rewrite Hne, Hfind in Hk. cbn [negb orb] in Hk.
  pose proof (filter_discoveries_dropped cfg n ds _ _ _ _ _ _ _ Hf) as Hd.
  rewrite Hk in Hd. cbn [List.length] in Hd.
  assert (Hproc : forall d0, _get_existing_urls d0 = Some urls ->
            _process_discoveries cfg ds src d0 = inr (create_submissions src kept d0)).
  { intros d0 Hd0. unfold _process_discoveries. destruct ds as [|x rest]; [discriminate|].
    now rewrite Hd0, Hf. }
  split; [now apply Hproc|]. split; [apply create_submissions_kept|].
  split; [exact Hk|]. split; [exact Hd|].
  intros env source limit st Hdb Hsrc Hdisc. unfold run. rewrite Hdisc, Hsrc, Hdb.
  rewrite Hproc by exact Hseed.
  pose proof (create_submissions_kept src kept
    (bump_run_pk (set_sourcing_runs d
       (sourcing_runs d ++ [mkSourcingRun (next_run_pk d) src 0 0 0 true "" [] false])))) as Hc.
  apply Forall2_length in Hc.
  destruct (create_submissions src kept _) as [created d']. cbn [fst] in Hc.
  cbn. rewrite Hc. auto.
Qed.


End SourcingSpec.

(** ** The review service *)

Module ReviewSpec.
Import PyStr Models World Review.

Lemma Qlt_bool_iff (x y : Q) : Qlt_bool x y = true <-> (x < y)%Q.
Proof.
  unfold Qlt_bool. rewrite negb_true_iff. split.
  - intros Hle. apply Qnot_le_lt. intros Hc. apply Qle_bool_iff in Hc. congruence.
  - intros Hlt. destruct (Qle_bool y x) eqn:E; [|reflexivity].
    apply Qle_bool_iff in E. exfalso. exact (Qlt_not_le _ _ Hlt E).
Qed.

Lemma find_saved (s : AgentSubmission) (l : list AgentSubmission) :
  List.find (fun row => Z.eqb (pk row) (pk s))
    (if existsb (fun row => Z.eqb (pk row) (pk s)) l
     then List.map (fun row => if Z.eqb (pk row) (pk s) then s else row) l
     else l ++ [s])
  = Some s.
Proof.
  induction l as [|x l IH].
  - simpl. now rewrite Z.eqb_refl.
  - cbn [existsb]. destruct (Z.eqb (pk x) (pk s)) eqn:E.
    + cbn [orb List.map List.find]. rewrite E. cbn [List.find].
      now rewrite Z.eqb_refl.
    + cbn [orb]. destruct (existsb _ l) eqn:Ex.
      * cbn [List.map List.find]. rewrite E, E. exact IH.
      * cbn [app List.find]. rewrite E. exact IH.
Qed.

Lemma get_submission_save (s : AgentSubmission) (d : Db) :
  get_submission (save s d) (pk s) = Some s.
Proof.
  unfold get_submission, save. pose proof (find_saved s (submissions d)) as Hf.
  now destruct (existsb _ (submissions d)).
Qed.

Lemma agents_save (s : AgentSubmission) (d : Db) : agents (save s d) = agents d.
Proof. unfold save. now destruct (existsb _ (submissions d)). Qed.

(** C1 (as amended). [review_submission] attaches the review result and
    sets [needs_manual_review] exactly when the confidence is strictly
    below the threshold of the service (0.7 unless overridden).  The
    decision is applied, and recorded as [auto_applied], exactly when
    [auto_apply] holds, the confidence is not below the threshold and the
    decision is approved or rejected: the status then becomes APPROVED or
    REJECTED.  In every other case the status is left as it was.  The
    function saves the submission and nothing else: no directory entry is
    created or linked, also on approval. *)
Theorem review_confidence_gate (env : Env) (self : ReviewService)
    (submission : AgentSubmission) (auto_apply : bool) (st : St) :
  let out := review_submission env self submission auto_apply st in
  exists r,
    ai_review_result (fst out) = Some r
    /\ (needs_manual_review (fst out) = true
        <-> (confidence r < confidence_threshold self)%Q)
    /\ (auto_applied r = true
        <-> auto_apply = true
            /\ ~ (confidence r < confidence_threshold self)%Q
            /\ (decision r = approved \/ decision r = rejected))
    /\ (auto_applied r = true -> decision r = approved -> status (fst out) = APPROVED)
    /\ (auto_applied r = true -> decision r = rejected -> status (fst out) = REJECTED)
    /\ (auto_applied r = false -> status (fst out) = status submission)
    /\ (forall o, (forall prompt, run_sync env prompt = Returned o) ->
          decision r = decision o /\ confidence r = confidence o)
    /\ (forall e, (forall prompt, run_sync env prompt = Raised e) ->
          decision r = needs_review /\ confidence r = 0%Q
          /\ flags r = ["review_error"])
    /\ agent (fst out) = agent submission
    /\ agents (db (snd out)) = agents (db st)
    /\ get_submission (db (snd out)) (pk submission) = Some (fst out)
    /\ confidence_threshold (__init__ None) = CONFIDENCE_THRESHOLD.
Proof.
  cbv zeta. unfold review_submission.
  destruct (review env (agent_name submission) (agent_website submission) _ _ st)
    as [result st1] eqn:Hrev.
  eexists. cbn [fst snd set_review ai_review_result needs_manual_review status agent
                  decision confidence auto_applied flags].
  split; [reflexivity|].
  assert (Hagents : agents (db st1) = agents (db st)).
  { unfold review in Hrev. destruct (run_sync env _); injection Hrev as _ <-; reflexivity. }
  split; [apply Qlt_bool_iff|].
  split.
  { rewrite <- Qlt_bool_iff. cbn [confidence decision auto_applied].
    destruct auto_apply, (Qlt_bool (confidence result) (confidence_threshold self)),
             (decision result); cbn; intuition (try congruence; auto). }
  split.
  { cbn [auto_applied decision confidence]. intros Ha Hd. now rewrite Ha, Hd. }
  split.
  { cbn [auto_applied decision confidence]. intros Ha Hd. now rewrite Ha, Hd. }
  split.
  { cbn [auto_applied decision confidence]. intros Ha. now rewrite Ha. }
  split.
  { intros o Ho. unfold review in Hrev. rewrite Ho in Hrev.
    injection Hrev as <- _. auto. }
  split.
  { intros e He. unfold review in Hrev. rewrite He in Hrev.
    injection Hrev as <- _. auto. }
  split; [reflexivity|].
  split; [unfold log, with_db; cbn [db]; now rewrite agents_save|].
  split; [|reflexivity].
  unfold log, with_db. cbn [db].
  match goal with
  | |- get_submission (save ?s _) _ = _ => exact (get_submission_save s (db st1))
  end.
Qed.

End ReviewSpec.

(** ** The enrichment service *)

Module EnrichmentSpec.
Import PyStr PyStrFacts Models World Enrichment.

#[local] Arguments String.append !_ _ / : simpl nomatch.

(** The duplicate check raises as soon as some entry collides, and the
    entry it carries is one that collides. *)
Lemma duplicate_check_raises (env : Env) (d : Db) (submission : AgentSubmission) :
  (exists a, In a (agents d) /\ collides env submission a = true) ->
  exists msg existing,
    _check_for_duplicate_agent env d submission = inl (DuplicateAgentError msg existing)
    /\ In existing (agents d) /\ collides env submission existing = true.
Proof.
  intros (a & Hin & Hc). unfold _check_for_duplicate_agent, collides in *.
  destruct (List.find (fun a => String.eqb (agent_website_ a) (agent_website submission))
              (agents d)) as [x|] eqn:E1.
  { apply find_some in E1 as [Hx Hw]. do 2 eexists. split; [reflexivity|].
    split; [exact Hx|]. now rewrite Hw. }
  destruct (List.find (fun a => iexact (agent_name_ a) (agent_name submission))
              (agents d)) as [x|] eqn:E2.
  { apply find_some in E2 as [Hx Hn]. do 2 eexists. split; [reflexivity|].
    split; [exact Hx|]. now rewrite Hn, orb_true_r. }
  destruct (List.find (fun a => String.eqb (agent_slug a) (slugify env (agent_name submission)))
              (agents d)) as [x|] eqn:E3.
  { apply find_some in E3 as [Hx Hs]. do 2 eexists. split; [reflexivity|].
    split; [exact Hx|]. now rewrite Hs, orb_true_r. }
  exfalso.
  pose proof (find_none _ _ E1 a Hin) as H1. pose proof (find_none _ _ E2 a Hin) as H2.
  pose proof (find_none _ _ E3 a Hin) as H3. cbv beta in H1, H2, H3.
  rewrite H1, H2, H3 in Hc. discriminate.
Qed.

Lemma extract_state (env : Env) (url : string) (st : St) :
  snd (_extract_product_url_from_aggregator env url st) = log (EvScrapeAggregator url) st.
Proof.
  unfold _extract_product_url_from_aggregator.
  destruct (scrape_aggregator env url) as [e|[[j|]|]]; try reflexivity.
  destruct (some_nonempty (product_website j)); [|reflexivity].
  destruct (get_default (product_confidence j) 0%Q); [|reflexivity].
  now destruct (Qle_bool _ _ && is_http_url _).
Qed.

Lemma enrich_state `{UrlLib} (env : Env) (url : string) (st : St) :
  snd (enrich env url st) = log (EvScrape url) st.
Proof.
  unfold enrich. destruct (scrape env url) as [e|[response|]]; try reflexivity.
  destruct (_extract_best_logo_url (resp_branding response)); [|reflexivity].
  now destruct (resp_metadata response) as [[og final]|].
Qed.

(** What the aggregator step may change: the website of the object, one
    column of its row, and the trace. *)
Lemma resolve_aggregator_facts `{UrlLib} (cfg : Settings) (env : Env)
    (s : AgentSubmission) (meta : option SourcingMetadata) (st : St) :
  let '(url, s1, st1) := resolve_aggregator cfg env s meta st in
  s1 = set_website s url /\ agents (db st1) = agents (db st).
Proof.
  unfold resolve_aggregator.
  destruct (Filters.is_aggregator_url cfg (agent_website s) || _).
  - pose proof (extract_state env (agent_website s) st) as Hst.
    destruct (_extract_product_url_from_aggregator env (agent_website s) st) as [x st1].
    cbn [snd] in Hst. subst st1.
    destruct (some_nonempty x) as [u|]; [|now destruct s].
    destruct (String.eqb u (agent_website s)); [now destruct s|]. split; reflexivity.
  - now destruct s.
Qed.

Lemma find_map_same {A} (p : A -> bool) (f : A -> A) (l : list A) :
  (forall x, p (f x) = p x) ->
  List.find p (List.map f l) = option_map f (List.find p l).
Proof.
  intros Hp. induction l as [|x l IH]; [reflexivity|].
  cbn [List.map List.find]. rewrite Hp. now destruct (p x).
Qed.

Lemma get_submission_save_fields (fs : list SubmissionField) (s : AgentSubmission)
    (d : Db) (k : Z) (row : AgentSubmission) :
  pk s = k -> get_submission d k = Some row ->
  get_submission (save_fields fs s d) k = Some (update_row fs s row).
Proof.
  intros <-. unfold get_submission, save_fields. cbn [submissions set_submissions].
  intros Hrow. rewrite find_map_same.
  - rewrite Hrow. cbn [option_map].
    apply find_some in Hrow as [_ Hk]. cbv beta in Hk. now rewrite Hk.
  - intros x. destruct (Z.eqb (pk x) (pk s)) eqn:E; exact E.
Qed.

(** What the second part of [enrich_submission] does to the object and the
    state. *)
Lemma store_enrichment_facts (env : Env) (original_url url : string)
    (meta : option SourcingMetadata) (s : AgentSubmission) (result : EnrichmentResult)
    (st : St) :
  let out := store_enrichment env original_url url meta s result st in
  agent_website (fst out) = agent_website s
  /\ pk (fst out) = pk s
  /\ status (fst out) = status s
  /\ (exists data,
        enrichment_data (fst out) = Some data
        /\ ed_result data = Some result
        /\ _url_extraction data
           = if negb (String.eqb original_url url)
             then Some (mkUrlExtraction original_url url true) else None)
  /\ (exists fields,
        existsb (field_eqb f_agent_website) fields = true
        /\ snd out = log (EvSaveSubmission (fst out) fields)
                         (with_db (save_fields fields (fst out)) st)).
Proof.
  unfold store_enrichment. cbn [fst snd].
  assert (Hname : forall (o : option NameVerification) (f : AgentSubmission -> string * Z * SubmissionStatus),
            (forall n, f (set_name s n) = f s) ->
            f (match o with
               | Some info =>
                   match should_update info, some_nonempty (extracted_name info) with
                   | true, Some n => set_name s (take 200 n)
                   | _, _ => s
                   end
               | None => s
               end) = f s).
  { intros [info|] f Hf; [|reflexivity].
    destruct (should_update info), (some_nonempty (extracted_name info)); auto. }
  pose proof (fun o => Hname o (fun x => (agent_website x, pk x, status x))
                              (fun n => eq_refl)) as Hn.
  cbv beta in Hn.
  repeat split.
  - cbn [set_enrichment agent_website]. now injection (Hn (match content_data result with
      | Some c => if success result && content_nonempty c
                  then Some (_verify_agent_name (agent_name s) c) else None
      | None => None end)).
  - cbn [set_enrichment pk]. now injection (Hn (match content_data result with
      | Some c => if success result && content_nonempty c
                  then Some (_verify_agent_name (agent_name s) c) else None
      | None => None end)).
  - cbn [set_enrichment status]. now injection (Hn (match content_data result with
      | Some c => if success result && content_nonempty c
                  then Some (_verify_agent_name (agent_name s) c) else None
      | None => None end)).
  - eexists. split; [reflexivity|]. split; reflexivity.
  - eexists. split; [|reflexivity]. reflexivity.
Qed.

(** When the extraction is accepted. *)
Lemma extraction_accepted (env : Env) (url : string) (st : St) (u : string) :
  fst (_extract_product_url_from_aggregator env url st) = Some u
  <-> exists j c,
        scrape_aggregator env url = Returned (Some (Some j))
        /\ product_website j = Some u
        /\ get_default (product_confidence j) 0%Q = Some c
        /\ (EXTRACTION_CONFIDENCE <= c)%Q
        /\ is_http_url u = true.
Proof.
  unfold _extract_product_url_from_aggregator. split.
  - destruct (scrape_aggregator env url) as [e|[[j|]|]]; try discriminate.
    destruct (product_website j) as [w|] eqn:Hw; [|discriminate].
    cbn [some_nonempty]. destruct (nonempty w); [|discriminate].
    destruct (get_default (product_confidence j) 0%Q) as [c|] eqn:Hc; [|discriminate].
    destruct (Qle_bool EXTRACTION_CONFIDENCE c) eqn:Hle; [|discriminate].
    destruct (is_http_url w) eqn:Hh; [|discriminate].
    cbn. intros [= <-]. exists j, c. rewrite Hw.
    apply Qle_bool_iff in Hle. auto.
  - intros (j & c & -> & Hw & Hc & Hle & Hh). rewrite Hw, Hc.
    apply Qle_bool_iff in Hle. rewrite Hle.
    assert (Hne : nonempty u = true) by (destruct u; [discriminate Hh|reflexivity]).
    cbn [some_nonempty]. now rewrite Hne, Hh.
Qed.

(** C2 (as amended). For a submission whose stored enrichment succeeded
    and that collides with an existing entry on website, on name compared
    without case, or on the slug of its name, [create_agent_from_submission]
    raises [DuplicateAgentError] carrying an entry that collides, and the
    database is left as it was: no entry and none of its child records is
    created. *)
Theorem duplicate_blocks_creation (env : Env) (submission : AgentSubmission) (st : St) :
  enrichment_succeeded submission = true ->
  (exists a, In a (agents (db st)) /\ collides env submission a = true) ->
  exists msg existing,
    create_agent_from_submission env submission st
    = (inl (DuplicateAgentError msg existing), st)
    /\ In existing (agents (db st))
    /\ (agent_website_ existing = agent_website submission
        \/ lower (agent_name_ existing) = lower (agent_name submission)
        \/ agent_slug existing = slugify env (agent_name submission)).
Proof.
  intros Hok Hdup. unfold enrichment_succeeded in Hok.
  destruct (duplicate_check_raises env (db st) submission Hdup)
    as (msg & existing & Hchk & Hin & Hc).
  exists msg, existing. unfold create_agent_from_submission.
  destruct (enrichment_data submission) as [data|]; [|discriminate].
  apply andb_true_iff in Hok as [Hne Hs]. rewrite Hne, Hs. cbn [negb]. rewrite Hchk.
  split; [reflexivity|]. split; [exact Hin|].
  unfold collides, iexact in Hc.
  apply orb_true_iff in Hc as [[Hc|Hc]%orb_true_iff|Hc]; apply String.eqb_eq in Hc; auto.
Qed.

(** C3. For a submission whose enrichment data is absent (or empty) or does
    not record success, [create_agent_from_submission] raises
    [EnrichmentError] and leaves the state as it was, so that no entry is
    created and the submission keeps its status; the message says that the
    enrichment is missing, or quotes the stored error message.  A scrape
    that fails does not raise: [enrich] returns, and [enrich_submission]
    stores, a result with [success=False] and the error text, without
    touching the status, and the approval of that submission is refused
    with that text. *)
Theorem failed_enrichment_blocks_approval `{UrlLib} (cfg : Settings) (env : Env)
    (submission : AgentSubmission) (st : St) :
  enrichment_succeeded submission = false ->
  (exists msg,
     create_agent_from_submission env submission st = (inl (EnrichmentError msg), st)
     /\ (enrichment_data submission = None ->
         msg = "Submission '" +:+ agent_name submission
               +:+ "' has no enrichment data. Call enrich_submission() first.")
     /\ (forall data r m, enrichment_data submission = Some data ->
           ed_result data = Some r -> error_message r = Some m ->
           msg = "Submission '" +:+ agent_name submission +:+ "' enrichment failed: "
                 +:+ m +:+ ". Re-run enrichment before approving."))
  /\ (forall url e st0, scrape env url = Raised e ->
        fst (enrich env url st0) = from_error ("Firecrawl scrape failed: " +:+ e))
  /\ (forall url st0, scrape env url = Returned None ->
        fst (enrich env url st0) = from_error "No response from Firecrawl")
  /\ (forall s st0,
        let out := enrich_submission cfg env s st0 in
        status (fst out) = status s
        /\ agents (db (snd out)) = agents (db st0)
        /\ (forall e, (forall url, scrape env url = Raised e) ->
              exists data,
                enrichment_data (fst out) = Some data
                /\ ed_result data = Some (from_error ("Firecrawl scrape failed: " +:+ e))
                /\ create_agent_from_submission env (fst out) (snd out)
                   = (inl (EnrichmentError
                             ("Submission '" +:+ agent_name (fst out)
                              +:+ "' enrichment failed: "
                              +:+ ("Firecrawl scrape failed: " +:+ e)
                              +:+ ". Re-run enrichment before approving.")), snd out))).
Proof.
  intros Hfail. split; [|split; [|split]].
  - unfold enrichment_succeeded in Hfail. unfold create_agent_from_submission.
    destruct (enrichment_data submission) as [data|].
    + destruct (enrichment_nonempty data) eqn:Hne; cbn [negb].
      * cbn [andb] in Hfail. rewrite Hfail. cbn [negb].
        eexists. split; [reflexivity|]. split; [discriminate|].
        intros data' r m [= <-] Hr Hm. now rewrite Hr, Hm.
      * eexists. split; [reflexivity|]. split; [discriminate|].
        intros data' r m [= <-] Hr Hm. exfalso.
        unfold enrichment_nonempty in Hne. rewrite Hr in Hne. discriminate.
    + eexists. split; [reflexivity|]. split; [reflexivity|]. discriminate.
  - intros url e st0 He. unfold enrich. now rewrite He.
  - intros url st0 He. unfold enrich. now rewrite He.
  - intros s st0 out. subst out. unfold enrich_submission.
    match goal with
    | |- context [resolve_aggregator cfg env s ?m st0] =>
        pose proof (resolve_aggregator_facts cfg env s m st0) as Hres;
        destruct (resolve_aggregator cfg env s m st0) as [[url s1] st1]
    end.
    destruct Hres as [-> Hag].
    pose proof (enrich_state env url st1) as Hst.
    destruct (enrich env url st1) as [result st2] eqn:Hen.
    cbn [snd] in Hst. subst st2.
    match goal with
    | |- context [store_enrichment env ?o ?u ?m ?x ?r ?t] =>
        pose proof (store_enrichment_facts env o u m x r t) as Hfin
    end.
    cbv zeta in Hfin.
    destruct Hfin as (_ & _ & Hstatus & _ & (fields & _ & Hsnd)).
    split; [exact Hstatus|]. split; [rewrite Hsnd; exact Hag|].
    intros e He. unfold enrich in Hen. rewrite He in Hen. injection Hen as <-.
    eexists. split; [reflexivity|]. split; [reflexivity|].
    reflexivity.
Qed.

(** C9. Let a submission be treated as an aggregator listing (its URL is
    on an aggregator domain, or its sourcing metadata says so).  The
    extraction yields a URL exactly when the narrow scrape returned a
    product website with confidence at least 0.5 that starts with
    [http://] or [https://].  If it yields a URL that differs from the
    original, the website of the submission is replaced and its row saved
    before the full scrape, which is made on the new URL, and the stored
    enrichment data records [original_url] and [extracted_url] under
    [_url_extraction].  Otherwise the original URL is scraped, the website
    is unchanged and no [_url_extraction] is stored. *)
Theorem aggregator_url_adoption `{UrlLib} (cfg : Settings) (env : Env)
    (s : AgentSubmission) (st : St) :
  treated_as_aggregator cfg s = true ->
  let original_url := agent_website s in
  let extracted := fst (_extract_product_url_from_aggregator env original_url st) in
  let out := enrich_submission cfg env s st in
  (forall u, extracted = Some u
     <-> exists j c,
           scrape_aggregator env original_url = Returned (Some (Some j))
           /\ product_website j = Some u
           /\ get_default (product_confidence j) 0%Q = Some c
           /\ (EXTRACTION_CONFIDENCE <= c)%Q
           /\ is_http_url u = true)
  /\ (forall u, extracted = Some u -> u <> original_url ->
        agent_website (fst out) = u
        /\ (exists fields,
              trace (snd out)
              = trace st ++ [EvScrapeAggregator original_url;
                             EvSaveSubmission (set_website s u) [f_agent_website];
                             EvScrape u;
                             EvSaveSubmission (fst out) fields])
        /\ (exists data,
              enrichment_data (fst out) = Some data
              /\ _url_extraction data = Some (mkUrlExtraction original_url u true))
        /\ (forall row, get_submission (db st) (pk s) = Some row ->
              exists row', get_submission (db (snd out)) (pk s) = Some row'
                           /\ agent_website row' = u))
  /\ (extracted = None \/ extracted = Some original_url ->
        agent_website (fst out) = original_url
        /\ (exists fields,
              trace (snd out)
              = trace st ++ [EvScrapeAggregator original_url;
                             EvScrape original_url;
                             EvSaveSubmission (fst out) fields])
        /\ (exists data,
              enrichment_data (fst out) = Some data /\ _url_extraction data = None)).
Proof.
  intros Hagg original_url extracted out.
  split; [intros u; apply extraction_accepted|].
  unfold treated_as_aggregator in Hagg.
  pose proof (extraction_accepted env (agent_website s) st) as Hacc.
  pose proof (extract_state env (agent_website s) st) as Hst.
  subst out. unfold enrich_submission, resolve_aggregator. rewrite Hagg.
  subst extracted original_url.
  destruct (_extract_product_url_from_aggregator env (agent_website s) st) as [x st1].
  cbn [fst snd] in Hst, Hacc |- *. subst st1.
  split.
  - intros u -> Hne.
    destruct (proj1 (Hacc u) eq_refl) as (j & c & _ & _ & _ & _ & Hhttp).
    assert (Hnu : nonempty u = true) by (destruct u; [discriminate Hhttp|reflexivity]).
    cbn [some_nonempty]. rewrite Hnu.
    apply String.eqb_neq in Hne. rewrite Hne. cbn [negb].
    pose proof (enrich_state env u
      (log (EvSaveSubmission (set_website s u) [f_agent_website])
         (with_db (save_fields [f_agent_website] (set_website s u))
            (log (EvScrapeAggregator (agent_website s)) st)))) as Hen.
    destruct (enrich env u _) as [result st2]. cbn [snd] in Hen. subst st2.
    match goal with
    | |- context [store_enrichment env ?o ?u' ?m ?x ?r ?t] =>
        pose proof (store_enrichment_facts env o u' m x r t) as Hfin
    end.
    cbv zeta in Hfin.
    destruct Hfin as (Hweb & Hpk & _ & (data & Hdata & _ & Hux) & (fields & Hin & Hsnd)).
    split; [exact Hweb|]. split; [|split].
    + exists fields. rewrite Hsnd. cbn [trace log with_db].
      now rewrite <- !List.app_assoc.
    + exists data. split; [exact Hdata|]. rewrite Hux.
      rewrite String.eqb_sym, Hne. reflexivity.
    + intros row Hrow. rewrite Hsnd. cbn [db log with_db].
      eexists. split.
      * apply get_submission_save_fields; [exact Hpk|].
        apply get_submission_save_fields; [reflexivity|exact Hrow].
      * unfold update_row at 1. cbn [agent_website]. now rewrite Hin, Hweb.
  - intros Hx.
    assert (Hsame : match some_nonempty x with
                    | Some extracted_url =>
                        if negb (String.eqb extracted_url (agent_website s))
                        then (extracted_url, set_website s extracted_url,
                              log (EvSaveSubmission (set_website s extracted_url)
                                     [f_agent_website])
                                  (with_db (save_fields [f_agent_website]
                                              (set_website s extracted_url))
                                     (log (EvScrapeAggregator (agent_website s)) st)))
                        else (agent_website s, s,
                              log (EvScrapeAggregator (agent_website s)) st)
                    | None => (agent_website s, s,
                               log (EvScrapeAggregator (agent_website s)) st)
                    end
                    = (agent_website s, s, log (EvScrapeAggregator (agent_website s)) st)).
    { destruct Hx as [-> | ->]; [reflexivity|]. cbn [some_nonempty].
      destruct (nonempty (agent_website s)); [|reflexivity].
      now rewrite String.eqb_refl. }
    rewrite Hsame.
    pose proof (enrich_state env (agent_website s)
                  (log (EvScrapeAggregator (agent_website s)) st)) as Hen.
    destruct (enrich env (agent_website s) _) as [result st2]. cbn [snd] in Hen. subst st2.
    match goal with
    | |- context [store_enrichment env ?o ?u' ?m ?x ?r ?t] =>
        pose proof (store_enrichment_facts env o u' m x r t) as Hfin
    end.
    cbv zeta in Hfin.
    destruct Hfin as (Hweb & _ & _ & (data & Hdata & _ & Hux) & (fields & _ & Hsnd)).
    split; [exact Hweb|]. split.
    + exists fields. rewrite Hsnd. cbn [trace log with_db].
      now rewrite <- !List.app_assoc.
    + exists data. split; [exact Hdata|]. rewrite Hux.
      now rewrite String.eqb_refl.
Qed.

End EnrichmentSpec.

(** ** Evaluations on concrete inputs *)

Module Concrete.
Import PyStr UrlParse UrlShape Filters Base.

#[local] Existing Instance lenient_urllib.

(** C10 at [https://example.com]: the first normal form is the host, the
    second one the host twice. *)
Lemma normalize_url_not_idempotent_on_hosts_witness :
  normalize_url "https://example.com" = Some "example.com"
  /\ normalize_url "example.com" = Some "example.comexample.com"
  /\ normalize_url "example.com" <> normalize_url "https://example.com".
Proof.
  exact (NormalizeSpec.normalize_url_not_idempotent_on_hosts
           "https" "example.com" eq_refl eq_refl eq_refl eq_refl).
Defined.

(** A rejected submission does not occupy the set: its URL, discovered
    again, becomes a new submission. *)
Lemma rejected_url_is_rediscovered :
  normalize_url (Models.agent_website Examples.rejected_submission) = Some "foo.ai"
  /\ normalize_url (website Examples.foo_candidate) = Some "foo.ai"
  /\ Sourcing._get_existing_urls Examples.rejected_db = Some ∅
  /\ (exists d',
        Sourcing._process_discoveries default_settings [Examples.foo_candidate] "serp"
          Examples.rejected_db
        = inr ([Sourcing.new_submission 2 "serp" Examples.foo_candidate "normal"], d')).
Proof.
  pose proof (SourcingSpec.existing_urls_seed Examples.rejected_db) as Hseed.
  assert (E : Sourcing._get_existing_urls Examples.rejected_db = Some ∅) by reflexivity.
  rewrite E in Hseed. destruct Hseed as [_ Hrej].
  destruct (Hrej "foo.ai") as [_ Hnew].
  - intros a [].
  - intros x [<-|[]] _. reflexivity.
  - repeat split.
    apply (Hnew default_settings "serp" Examples.foo_candidate);
      [reflexivity|discriminate|vm_compute; discriminate].
Defined.

Lemma in_batch_dedup_witness :
  exists kept,
    Sourcing._process_discoveries default_settings
      [Examples.first_candidate; Examples.second_candidate] "serp" Models.empty_db
    = inr (Sourcing.create_submissions "serp" kept Models.empty_db)
    /\ List.filter (Sourcing.has_norm "example.com") kept
       = [Sourcing.classified default_settings Examples.first_candidate].
Proof.
  destruct (SourcingSpec.in_batch_dedup default_settings Models.empty_db "serp"
              [Examples.first_candidate; Examples.second_candidate] ∅
              "example.com" Examples.first_candidate)
    as (kept & Hp & _ & Hk & _).
  - reflexivity.
  - intros x [<-|[<-|[]]]; vm_compute; discriminate.
  - discriminate.
  - apply not_elem_of_empty.
  - vm_compute. reflexivity.
  - exists kept. split; [exact Hp|exact Hk].
Defined.

(** C8, the statement as written fails: two discoveries that are not
    blocked and share a normal form absent from the seeded set, yet no
    submission is created, because the normal form is empty. *)
Lemma blank_candidates_create_nothing :
  website (Examples.blank_candidate "A") = "https://"
  /\ get_url_classification default_settings (website (Examples.blank_candidate "A")) = "normal"
  /\ get_url_classification default_settings (website (Examples.blank_candidate "B")) = "normal"
  /\ normalize_url (website (Examples.blank_candidate "A")) = Some ""
  /\ normalize_url (website (Examples.blank_candidate "B")) = Some ""
  /\ Sourcing._get_existing_urls Models.empty_db = Some ∅
  /\ Sourcing._process_discoveries default_settings
       [Examples.blank_candidate "A"; Examples.blank_candidate "B"] "serp" Models.empty_db
     = inr ([], Models.empty_db).
Proof. repeat split. Qed.

(** C1, the statement as written fails in its last clause: the automatic
    approval sets the status and creates no directory entry. *)
Lemma auto_approval_creates_no_entry :
  let out :=
    Review.review_submission (Examples.reviewing_env (World.Returned Examples.confident_approval))
      (Review.__init__ None) Examples.pending_submission true
      (World.mkSt Examples.pending_db []) in
  Models.status (fst out) = Models.APPROVED
  /\ option_map Models.auto_applied (Models.ai_review_result (fst out)) = Some true
  /\ Models.agent (fst out) = None
  /\ Models.agents (World.db (snd out)) = []
  /\ Models.agents Examples.pending_db = [].
Proof. vm_compute. repeat split. Qed.

(** With confidence 0.5 and the default threshold the submission stays
    PENDING and is flagged, whatever [auto_apply] is. *)
Lemma low_confidence_stays_pending (auto_apply : bool) :
  let out :=
    Review.review_submission (Examples.reviewing_env (World.Returned Examples.hesitant_approval))
      (Review.__init__ None) Examples.pending_submission auto_apply
      (World.mkSt Examples.pending_db []) in
  Models.status (fst out) = Models.PENDING
  /\ Models.needs_manual_review (fst out) = true.
Proof. destruct auto_apply; vm_compute; repeat split. Qed.

Lemma duplicate_blocks_creation_witness :
  exists msg,
    Enrichment.create_agent_from_submission
      (Examples.reviewing_env (World.Raised "unused")) Examples.enriched_duplicate
      (World.mkSt Examples.foo_db [])
    = (inl (World.DuplicateAgentError msg Examples.foo_agent),
       World.mkSt Examples.foo_db []).
Proof.
  destruct (EnrichmentSpec.duplicate_blocks_creation
              (Examples.reviewing_env (World.Raised "unused")) Examples.enriched_duplicate
              (World.mkSt Examples.foo_db []))
    as (msg & existing & Hc & [<-|[]] & _).
  - reflexivity.
  - exists Examples.foo_agent. split; [left; reflexivity|reflexivity].
  - exists msg. exact Hc.
Defined.

(** C2, the statement as written fails: a submission whose website is the
    website of an existing entry, but which has no enrichment data, is
    refused with [EnrichmentError], not with the duplicate error. *)
Lemma duplicate_without_enrichment :
  Models.agent_website Examples.pending_submission
  = Models.agent_website_ Examples.foo_agent
  /\ Models.agents Examples.foo_db = [Examples.foo_agent]
  /\ Enrichment.create_agent_from_submission
       (Examples.reviewing_env (World.Raised "unused")) Examples.pending_submission
       (World.mkSt Examples.foo_db [])
     = (inl (World.EnrichmentError
               "Submission 'Foo' has no enrichment data. Call enrich_submission() first."),
        World.mkSt Examples.foo_db []).
Proof. repeat split. Qed.

Lemma failed_enrichment_blocks_approval_witness :
  exists msg,
    Enrichment.create_agent_from_submission Examples.offline_env Examples.pending_submission
      (World.mkSt Examples.pending_db [])
    = (inl (World.EnrichmentError msg), World.mkSt Examples.pending_db []).
Proof.
  destruct (EnrichmentSpec.failed_enrichment_blocks_approval default_settings
              Examples.offline_env Examples.pending_submission
              (World.mkSt Examples.pending_db []) eq_refl)
    as [(msg & Hc & _) _].
  exists msg. exact Hc.
Defined.

(** Scenario C of the specification: the scrape fails, the failure is
    stored, and the approval is refused with the stored reason. *)
Lemma failed_scrape_then_approval :
  let out :=
    Enrichment.enrich_submission default_settings Examples.offline_env
      Examples.pending_submission (World.mkSt Examples.pending_db []) in
  Models.status (fst out) = Models.PENDING
  /\ option_map Models.ed_result (Models.enrichment_data (fst out))
     = Some (Some (Models.from_error "Firecrawl scrape failed: connection refused"))
  /\ fst (Enrichment.create_agent_from_submission Examples.offline_env (fst out) (snd out))
     = inl (World.EnrichmentError
              "Submission 'Foo' enrichment failed: Firecrawl scrape failed: connection refused. Re-run enrichment before approving.").
Proof. vm_compute. repeat split. Qed.

Lemma aggregator_url_adoption_witness :
  Models.agent_website
    (fst (Enrichment.enrich_submission Examples.yc_settings Examples.yc_env
            Examples.yc_submission (World.mkSt Examples.yc_db [])))
  = "https://foo.ai".
Proof.
  destruct (EnrichmentSpec.aggregator_url_adoption Examples.yc_settings Examples.yc_env
              Examples.yc_submission (World.mkSt Examples.yc_db []) eq_refl)
    as (_ & Hadopt & _).
  destruct (Hadopt "https://foo.ai" eq_refl) as (Hweb & _).
  - discriminate.
  - exact Hweb.
Defined.

End Concrete.

(** ** More facts about the string primitives and [urlparse] *)

Module StringExtra.
Import PyStr PyStrFacts UrlParse UrlShape.

#[local] Arguments String.append !_ _ / : simpl nomatch.

Lemma forallb_lstrip (f g : ascii -> bool) (s : string) :
  forallb f s = true -> forallb f (lstrip_by g s) = true.
Proof.
  induction s as [|c s IH]; simpl; [reflexivity|].
  intros [Hc Hs]%andb_prop. destruct (g c); [auto|].
  simpl. rewrite Hc, Hs. reflexivity.
Qed.

Lemma forallb_strip (f : ascii -> bool) (s : string) :
  forallb f s = true -> forallb f (strip s) = true.
Proof. intros Hs. unfold strip. apply forallb_rstrip, forallb_lstrip, Hs. Qed.

Lemma forallb_remove_char (f : ascii -> bool) (c : ascii) (s : string) :
  forallb f s = true -> forallb f (remove_char c s) = true.
Proof.
  induction s as [|a s IH]; simpl; [reflexivity|].
  intros [Ha Hs]%andb_prop. destruct (Ascii.eqb a c); [auto|].
  simpl. rewrite Ha, (IH Hs). reflexivity.
Qed.

Lemma forallb_take (f : ascii -> bool) (n : nat) (s : string) :
  forallb f s = true -> forallb f (take n s) = true.
Proof.
  revert s. induction n as [|n IH]; intros [|c s]; simpl; try reflexivity.
  intros [Hc Hs]%andb_prop. rewrite Hc, (IH _ Hs). reflexivity.
Qed.

Lemma forallb_split_once (f : ascii -> bool) (c : ascii) (s : string) :
  forallb f s = true ->
  forallb f (fst (split_once c s)) = true
  /\ match snd (split_once c s) with
     | Some r => forallb f r = true
     | None => True
     end.
Proof.
  induction s as [|a s IH]; simpl; [auto|].
  intros [Ha Hs]%andb_prop. destruct (Ascii.eqb a c); simpl; [auto|].
  destruct (IH Hs) as [H1 H2]. destruct (split_once c s) as [h t]; simpl in *.
  rewrite Ha, H1. auto.
Qed.

Lemma forallb_span_netloc (f : ascii -> bool) (s : string) :
  forallb f s = true ->
  forallb f (fst (span_netloc s)) = true /\ forallb f (snd (span_netloc s)) = true.
Proof.
  induction s as [|a s IH]; simpl; [auto|].
  intros [Ha Hs]%andb_prop. destruct (is_netloc_delim a); simpl.
  - rewrite Ha, Hs. auto.
  - destruct (IH Hs) as [H1 H2]. destruct (span_netloc s) as [n r]; simpl in *.
    rewrite Ha, H1. auto.
Qed.

Lemma forallb_split_scheme (f : ascii -> bool) (s : string) :
  forallb f s = true -> forallb f (snd (split_scheme s)) = true.
Proof.
  intros Hs. unfold split_scheme.
  pose proof (forallb_split_once f ":" s Hs) as [_ H2].
  destruct (split_once ":" s) as [[|c0 pre] [rest|]]; simpl in *; try exact Hs.
  destruct (is_alpha c0 && (scheme_char c0 && forallb scheme_char pre)); simpl; auto.
Qed.

Lemma forallb_splitparams (f : ascii -> bool) (s : string) :
  forallb f s = true -> forallb f (fst (_splitparams s)) = true.
Proof.
  intros Hs. unfold _splitparams.
  destruct (rfind_char "/" s) as [k|].
  - destruct (find_char ";" (drop k s)); simpl; [apply forallb_take|]; exact Hs.
  - destruct (find_char ";" s); simpl; apply forallb_take; exact Hs.
Qed.

(** Every character of the path component of a parsed URL is a character
    of the URL. *)
Lemma urlparse_path_forallb `{UrlLib} (f : ascii -> bool) (u : string) (r : ParseResult) :
  forallb f u = true -> urlparse u = Some r -> forallb f (path r) = true.
Proof.
  intros Hu. unfold urlparse, urlsplit.
  set (u1 := remove_char _ _).
  assert (H1 : forallb f u1 = true).
  { unfold u1. repeat apply forallb_remove_char. apply forallb_lstrip, Hu. }
  pose proof (forallb_split_scheme f u1 H1) as H2.
  destruct (split_scheme u1) as [sch u2]; simpl in H2.
  set (after := if startswith u2 "//" then _ else _).
  assert (Ha : match after with Some (_, rest) => forallb f rest = true | None => True end).
  { unfold after. destruct (startswith u2 "//"); [|exact H2].
    unfold _splitnetloc.
    pose proof (forallb_span_netloc f (drop 2 u2) (forallb_drop f 2 u2 H2)) as [_ H3].
    destruct (span_netloc (drop 2 u2)) as [nl rest]; simpl in H3.
    destruct (_ || _); [exact I|]. destruct (_ && _); [exact I|]. exact H3. }
  destruct after as [[nl u3]|]; [|discriminate].
  pose proof (forallb_split_once f "#" u3 Ha) as [H4 _].
  assert (H5 : forallb f (fst (match split_once "#" u3 with
                               | (x, Some fr) => (x, fr)
                               | (x, None) => (x, EmptyString)
                               end)) = true).
  { destruct (split_once "#" u3) as [x [fr|]]; exact H4. }
  destruct (match split_once "#" u3 with
            | (x, Some fr) => (x, fr) | (x, None) => (x, EmptyString) end)
    as [u4 frag]; simpl in H5.
  pose proof (forallb_split_once f "?" u4 H5) as [H6 _].
  assert (H7 : forallb f (fst (match split_once "?" u4 with
                               | (x, Some q) => (x, q)
                               | (x, None) => (x, EmptyString)
                               end)) = true).
  { destruct (split_once "?" u4) as [x [q|]]; exact H6. }
  destruct (match split_once "?" u4 with
            | (x, Some q) => (x, q) | (x, None) => (x, EmptyString) end)
    as [u5 q]; simpl in H7.
  pose proof (forallb_splitparams f u5 H7) as H8.
  destruct (_ && _).
  - destruct (_splitparams u5) as [u6 prm]; simpl in H8.
    intros [= <-]. exact H8.
  - intros [= <-]. exact H7.
Qed.

(** A non-empty result of [rstrip] holds a character outside the stripped
    class. *)
Lemma rstrip_by_nonempty (f : ascii -> bool) (s : string) :
  rstrip_by f s <> EmptyString -> forallb f (rstrip_by f s) = false.
Proof.
  induction s as [|c s IH]; simpl; [congruence|].
  destruct (rstrip_by f s) as [|a r] eqn:E.
  - destruct (f c) eqn:Hc; [congruence|]. intros _. simpl. rewrite Hc. reflexivity.
  - intros _. simpl. simpl in IH. rewrite IH by congruence.
    rewrite andb_false_r. reflexivity.
Qed.

(** The result of [rstrip] never ends in a stripped character; in
    particular it is not that character alone. *)
Lemma rstrip_by_not_single (f : ascii -> bool) (c : ascii) (s : string) :
  f c = true -> rstrip_by f s <> String c EmptyString.
Proof.
  intros Hc. induction s as [|a s IH]; simpl; [congruence|].
  destruct (rstrip_by f s) as [|b r] eqn:E.
  - destruct (f a) eqn:Ha; [congruence|]. intros [= ->]. congruence.
  - intros [= ]. 
Qed.

Lemma split_has_segment (s : string) :
  forallb (Ascii.eqb "/") s = false ->
  existsb nonempty (split "/" s) = true.
Proof.
  induction s as [|a s IH]; [discriminate|].
  cbn [forallb split]. rewrite (Ascii.eqb_sym "/" a).
  destruct (Ascii.eqb a "/"); cbn [andb existsb nonempty orb].
  - exact IH.
  - intros _. destruct (split "/" s); reflexivity.
Qed.

Lemma filter_length_pos {A} (p : A -> bool) (l : list A) :
  existsb p l = true -> Nat.ltb 0 (List.length (List.filter p l)) = true.
Proof.
  induction l as [|x l IH]; simpl; [discriminate|].
  destruct (p x); simpl; [reflexivity|exact IH].
Qed.

End StringExtra.

(** ** More about the URL classifier *)

Module FiltersExtra.
Import PyStr PyStrFacts UrlParse UrlShape Filters StringExtra.

#[local] Arguments String.append !_ _ / : simpl nomatch.

(** [_get_path] returns a lower-case string. *)
Lemma get_path_no_upper `{UrlLib} (url : string) :
  forallb no_upper (_get_path url) = true.
Proof.
  unfold _get_path. destruct (negb (nonempty url)); [reflexivity|].
  destruct (urlparse (strip (lower url))) as [r|] eqn:E; [|reflexivity].
  eapply urlparse_path_forallb; [|exact E].
  apply forallb_strip. apply (no_upper_lower url).
Qed.

Lemma get_path_lower `{UrlLib} (url : string) : lower (_get_path url) = _get_path url.
Proof. apply lower_fixed. apply (get_path_no_upper url). Qed.

Lemma get_domain_case `{UrlLib} (u v : string) :
  lower v = lower u -> _get_domain v = _get_domain u.
Proof.
  intros E. unfold _get_domain.
  rewrite <- (nonempty_lower v), <- (nonempty_lower u), E. reflexivity.
Qed.

Lemma get_path_case `{UrlLib} (u v : string) :
  lower v = lower u -> _get_path v = _get_path u.
Proof.
  intros E. unfold _get_path.
  rewrite <- (nonempty_lower v), <- (nonempty_lower u), E. reflexivity.
Qed.

(** The classifier reads a URL only through [_get_domain] and
    [_get_path]. *)
Lemma classification_by_parts `{UrlLib} (cfg : Settings) (u v : string) :
  _get_domain v = _get_domain u -> _get_path v = _get_path u ->
  get_url_classification cfg v = get_url_classification cfg u
  /\ get_block_reason cfg v = get_block_reason cfg u.
Proof.
  intros Ed Ep.
  unfold get_url_classification, get_block_reason, is_blocked_url, is_aggregator_url,
    is_github_url, is_allowlisted_url, is_non_root_url.
  rewrite Ed, Ep. split; reflexivity.
Qed.

(** X1. The path test of [is_non_root_url]: after the trailing slashes are
    removed the path is compared with the root paths, and the count of
    path segments that follows never decides: every path outside the list
    has a segment. *)
Theorem non_root_is_a_path_test `{UrlLib} (url : string) :
  is_non_root_url url
  = negb (existsb (String.eqb (rstrip_char "/" (_get_path url)))
                  [""; "/en"; "/en-us"; "/en-gb"]).
Proof.
  unfold is_non_root_url, root_paths.
  set (p := rstrip_char "/" (_get_path url)).
  assert (Hl : lower p = p).
  { apply lower_fixed. apply forallb_rstrip. apply (get_path_no_upper url). }
  rewrite Hl.
  assert (Hs : String.eqb p "/" = false).
  { apply String.eqb_neq. apply rstrip_by_not_single. reflexivity. }
  cbn [existsb]. rewrite Hs. cbn [orb].
  destruct (String.eqb p "") eqn:E0; [reflexivity|].
  cbn [orb].
  destruct (String.eqb p "/en" || (String.eqb p "/en-us" || (String.eqb p "/en-gb" || false)));
    [reflexivity|].
  cbn [negb]. apply filter_length_pos, split_has_segment.
  apply rstrip_by_nonempty. apply String.eqb_neq in E0. exact E0.
Qed.

Lemma find_existsb {A} (p : A -> bool) (l : list A) :
  match List.find p l with
  | Some x => In x l /\ p x = true /\ existsb p l = true
  | None => existsb p l = false
  end.
Proof.
  induction l as [|a l IH]; simpl; [reflexivity|].
  destruct (p a) eqn:E; [auto|].
  destruct (List.find p l); simpl; [|exact IH].
  destruct IH as (?&?&?). auto.
Qed.

(** X2. [get_block_reason] characterised: it reports nothing exactly when
    neither blocklist matches; a URL that [is_blocked_url] blocks always
    gets a reason, and off the aggregator domains the two agree; the reason
    names a pattern of the list that matched, the domain blocklist first. *)
Theorem block_reason_characterised `{UrlLib} (cfg : Settings) (url : string) :
  (get_block_reason cfg url = None
   <-> domain_blocked cfg url = false /\ path_blocked cfg url = false)
  /\ (is_blocked_url cfg url = true -> get_block_reason cfg url <> None)
  /\ (is_aggregator_url cfg url = false ->
      (is_blocked_url cfg url = true <-> get_block_reason cfg url <> None))
  /\ (forall reason, get_block_reason cfg url = Some reason ->
        (exists p, In p (AUTO_DIRECTORY_DOMAIN_BLOCKLIST cfg)
                   /\ _domain_matches (_get_domain url) p = true
                   /\ reason = "Domain '" +:+ p +:+ "' is in blocklist")
        \/ (domain_blocked cfg url = false
            /\ exists p, In p (AUTO_DIRECTORY_PATH_BLOCKLIST cfg)
                         /\ contains (_get_path url) (lower p) = true
                         /\ reason = "Path contains blocked pattern '" +:+ p +:+ "'")).
Proof.
  assert (Hchar : get_block_reason cfg url = None
                  <-> domain_blocked cfg url = false /\ path_blocked cfg url = false).
  { unfold get_block_reason, domain_blocked, path_blocked.
    rewrite get_path_lower.
    pose proof (find_existsb (_domain_matches (_get_domain url))
                  (AUTO_DIRECTORY_DOMAIN_BLOCKLIST cfg)) as Hd.
    pose proof (find_existsb (fun bp => contains (_get_path url) (lower bp))
                  (AUTO_DIRECTORY_PATH_BLOCKLIST cfg)) as Hp.
    destruct (List.find _ (AUTO_DIRECTORY_DOMAIN_BLOCKLIST cfg)).
    - destruct Hd as (_ & _ & ->). split; [discriminate|]. intros [? _]. discriminate.
    - rewrite Hd.
      destruct (List.find _ (AUTO_DIRECTORY_PATH_BLOCKLIST cfg)).
      + destruct Hp as (_ & _ & ->). split; [discriminate|]. intros [_ ?]. discriminate.
      + rewrite Hp. split; auto. }
  assert (Hblk : is_blocked_url cfg url
                 = domain_blocked cfg url
                   || (negb (is_aggregator_url cfg url) && path_blocked cfg url)).
  { unfold is_blocked_url, domain_blocked, is_aggregator_url, path_blocked.
    destruct (existsb _ (AUTO_DIRECTORY_DOMAIN_BLOCKLIST cfg)); [reflexivity|].
    destruct (existsb _ (AUTO_DIRECTORY_AGGREGATOR_DOMAINS cfg)); reflexivity. }
  split; [exact Hchar|]. split; [|split].
  - rewrite Hblk, Hchar. intros Hb [Hd Hp]. rewrite Hd, Hp, andb_false_r in Hb.
    discriminate.
  - intros Hagg. rewrite Hblk, Hchar, Hagg. cbn [negb andb].
    destruct (domain_blocked cfg url), (path_blocked cfg url); cbn;
      split; intros Hx; try reflexivity; try discriminate;
      try (intros [? ?]; discriminate);
      try (exfalso; apply Hx; split; reflexivity).
  - intros reason. unfold get_block_reason, domain_blocked.
    rewrite get_path_lower.
    pose proof (find_existsb (_domain_matches (_get_domain url))
                  (AUTO_DIRECTORY_DOMAIN_BLOCKLIST cfg)) as Hd.
    pose proof (find_existsb (fun bp => contains (_get_path url) (lower bp))
                  (AUTO_DIRECTORY_PATH_BLOCKLIST cfg)) as Hp.
    destruct (List.find _ (AUTO_DIRECTORY_DOMAIN_BLOCKLIST cfg)) as [p|].
    + destruct Hd as (Hin & Hm & _). intros [= <-]. left. exists p. auto.
    + destruct (List.find _ (AUTO_DIRECTORY_PATH_BLOCKLIST cfg)) as [p|]; [|discriminate].
      destruct Hp as (Hin & Hm & _). intros [= <-]. right. split; [exact Hd|].
      exists p. auto.
Qed.

(** X3. The classification and the block reason do not depend on the
    letter case of the URL. *)
Theorem classification_ignores_case `{UrlLib} (cfg : Settings) (u v : string) :
  lower v = lower u ->
  get_url_classification cfg v = get_url_classification cfg u
  /\ get_block_reason cfg v = get_block_reason cfg u.
Proof.
  intros E. apply classification_by_parts.
  - apply get_domain_case, E.
  - apply get_path_case, E.
Qed.

End FiltersExtra.

(** ** The discovered-agent record *)

Module BaseExtra.
Import PyStr PyStrFacts UrlParse UrlShape Base.

#[local] Arguments String.append !_ _ / : simpl nomatch.

Lemma lstrip_by_head (f : ascii -> bool) (s : string) :
  lstrip_by f s = EmptyString
  \/ exists c r, lstrip_by f s = String c r /\ f c = false.
Proof.
  induction s as [|c s IH]; simpl; [auto|].
  destruct (f c) eqn:E; [exact IH|]. right. eauto.
Qed.

Lemma rstrip_by_keeps_head (f : ascii -> bool) (c : ascii) (s : string) :
  f c = false -> rstrip_by f (String c s) = String c (rstrip_by f s).
Proof. intros Hc. simpl. destruct (rstrip_by f s); [rewrite Hc|]; reflexivity. Qed.

Lemma rstrip_by_prefix (f : ascii -> bool) (p w : string) :
  forallb (fun c => negb (f c)) p = true ->
  rstrip_by f (p +:+ w) = p +:+ rstrip_by f w.
Proof.
  induction p as [|c p IH]; [reflexivity|].
  cbn [forallb]. intros [Hc Hp]%andb_prop. apply negb_true_iff in Hc.
  change (String c p +:+ w) with (String c (p +:+ w)).
  rewrite (rstrip_by_keeps_head f c _ Hc), (IH Hp). reflexivity.
Qed.

(** [strip] is idempotent. *)
Lemma strip_idem (s : string) : strip (strip s) = strip s.
Proof.
  unfold strip. destruct (lstrip_by_head is_space s) as [->|(c & r & -> & Hc)].
  - reflexivity.
  - rewrite (rstrip_by_keeps_head _ c r Hc). cbn [lstrip_by]. rewrite Hc.
    rewrite <- (rstrip_by_keeps_head _ c r Hc). apply rstrip_by_idem.
Qed.

Lemma startswith_decomp (s p : string) :
  startswith s p = true -> s = p +:+ drop (String.length p) s.
Proof.
  revert s. induction p as [|a p IH]; intros s; [reflexivity|].
  destruct s as [|b s]; [discriminate|]. cbn [startswith].
  intros [Hab Hs]%andb_prop. apply Ascii.eqb_eq in Hab. subst b.
  cbn [String.length drop]. change (String a p +:+ drop (String.length p) s)
    with (String a (p +:+ drop (String.length p) s)).
  f_equal. apply IH, Hs.
Qed.

(** Stripping a string that starts with a blank-free prefix keeps the
    prefix. *)
Lemma strip_keeps_prefix (p w : string) :
  nonempty p = true -> forallb (fun c => negb (is_space c)) p = true ->
  strip (p +:+ w) = p +:+ rstrip_by is_space w.
Proof.
  intros Hn Hp. unfold strip. destruct p as [|c p]; [discriminate|].
  cbn [forallb] in Hp. apply andb_prop in Hp as [Hc Hp'].
  change (String c p +:+ w) with (String c (p +:+ w)).
  cbn [lstrip_by]. apply negb_true_iff in Hc. rewrite Hc.
  change (String c (p +:+ w)) with (String c p +:+ w).
  apply rstrip_by_prefix. cbn [forallb]. rewrite Hc, Hp'. reflexivity.
Qed.

Lemma strip_http (w : string) :
  startswith w "http://" = true -> startswith (strip w) "http://" = true.
Proof.
  intros Hw. rewrite (startswith_decomp _ _ Hw).
  rewrite strip_keeps_prefix by reflexivity. apply startswith_app.
Qed.

Lemma strip_https (w : string) :
  startswith w "https://" = true -> startswith (strip w) "https://" = true.
Proof.
  intros Hw. rewrite (startswith_decomp _ _ Hw).
  rewrite strip_keeps_prefix by reflexivity. apply startswith_app.
Qed.

(** X4. [DiscoveredAgent.__post_init__]: the website of the record is
    empty exactly when the given one was, and otherwise carries an
    [http://] or [https://] prefix; the three text fields are stripped;
    and the normalisation is idempotent. *)
Theorem post_init_normal_form (a : DiscoveredAgent) :
  let b := __post_init__ a in
  (website b = EmptyString <-> website a = EmptyString)
  /\ (website a <> EmptyString ->
      startswith (website b) "http://" = true
      \/ startswith (website b) "https://" = true)
  /\ (startswith (website a) "http://" = false ->
      startswith (website a) "https://" = false ->
      website b = strip ("https://" +:+ website a) \/ website a = EmptyString)
  /\ strip (name b) = name b
  /\ strip (website b) = website b
  /\ strip (description b) = description b
  /\ source_id b = source_id a /\ source_url b = source_url a
  /\ __post_init__ b = b.
Proof.
  cbv zeta.
  assert (Hw : website a <> EmptyString ->
               startswith (website (__post_init__ a)) "http://" = true
               \/ startswith (website (__post_init__ a)) "https://" = true).
  { intros Hne. unfold __post_init__. cbn [website].
    apply nonempty_true in Hne. rewrite Hne. cbn [andb].
    destruct (startswith (website a) "http://") eqn:E1; cbn [orb negb].
    - left. apply strip_http, E1.
    - destruct (startswith (website a) "https://") eqn:E2; cbn [negb].
      + right. apply strip_https, E2.
      + right. apply strip_https, startswith_app. }
  assert (He : website (__post_init__ a) = EmptyString <-> website a = EmptyString).
  { split.
    - intros Hb. destruct (website a) as [|c w] eqn:E; [reflexivity|].
      exfalso. destruct Hw as [H1|H1]; [congruence| |]; rewrite Hb in H1; discriminate.
    - intros Ha. unfold __post_init__. cbn [website]. rewrite Ha. reflexivity. }
  split; [exact He|]. split; [exact Hw|]. split; [|repeat split].
  - intros E1 E2. unfold __post_init__. cbn [website]. rewrite E1, E2. cbn [orb negb].
    destruct (website a); [right; reflexivity|left; reflexivity].
  - apply strip_idem.
  - apply strip_idem.
  - apply strip_idem.
  - unfold __post_init__ at 1. cbn [name website description source_id source_url].
    set (b := __post_init__ a) in *.
    assert (Hc : (nonempty (website b)
                  && negb (startswith (website b) "http://"
                           || startswith (website b) "https://")) = false).
    { destruct (website a) as [|c w] eqn:E.
      - assert (Hb : website b = EmptyString) by (apply He; reflexivity).
        rewrite Hb. reflexivity.
      - destruct Hw as [H1|H1]; [congruence| |]; rewrite H1;
          rewrite ?orb_true_r; cbn [orb negb]; apply andb_false_r. }
    rewrite Hc. unfold b, __post_init__.
    cbn [name website description source_id source_url].
    rewrite !strip_idem. reflexivity.
Qed.

End BaseExtra.

(** ** The choice of a logo *)

Module LogoExtra.
Import PyStr Models Enrichment.

Lemma some_nonempty_spec (o : option string) (u : string) :
  some_nonempty o = Some u <-> o = Some u /\ u <> EmptyString.
Proof.
  unfold some_nonempty. destruct o as [[|c s]|]; cbn [nonempty]; split;
    try (intros [= <-]; split; [reflexivity|discriminate]);
    try discriminate;
    try (intros [[= <-] Hn]; congruence);
    try (intros [[= ] _]).
Qed.

Lemma usable_logo_true `{UrlLib} (o : option string) :
  usable_logo o = Some true ->
  exists u, o = Some u /\ u <> EmptyString /\ _is_svg_url u = Some false.
Proof.
  unfold usable_logo. destruct (some_nonempty o) as [u|] eqn:E; [|discriminate].
  apply some_nonempty_spec in E as [-> Hne].
  destruct (_is_svg_url u) as [[]|] eqn:Es; cbn; try discriminate.
  intros _. exists u. auto.
Qed.

Lemma usable_logo_false `{UrlLib} (o : option string) :
  usable_logo o = Some false ->
  some_nonempty o = None
  \/ exists u, some_nonempty o = Some u /\ _is_svg_url u = Some true.
Proof.
  unfold usable_logo. destruct (some_nonempty o) as [u|] eqn:E; [|auto].
  destruct (_is_svg_url u) as [[]|] eqn:Es; cbn; try discriminate.
  intros _. right. exists u. auto.
Qed.

(** X5. [_extract_best_logo_url]: a logo that is returned is one of the
    three candidates of the branding data and is not empty; an SVG is
    returned only when no candidate is usable, and then it is the primary
    logo or, without one, the logo of the images, never the Open Graph
    image; nothing is returned only when both logos are missing or
    empty. *)
Theorem best_logo_choice `{UrlLib} (b : Branding) :
  (forall u, _extract_best_logo_url (Some b) = Some (Some u) ->
     u <> EmptyString
     /\ (branding_logo b = Some u \/ images_logo b = Some u \/ images_ogImage b = Some u)
     /\ (_is_svg_url u = Some false
         \/ (_is_svg_url u = Some true
             /\ usable_logo (branding_logo b) = Some false
             /\ usable_logo (images_logo b) = Some false
             /\ usable_logo (images_ogImage b) = Some false
             /\ (branding_logo b = Some u
                 \/ (some_nonempty (branding_logo b) = None /\ images_logo b = Some u)))))
  /\ (_extract_best_logo_url (Some b) = Some None ->
      some_nonempty (branding_logo b) = None
      /\ some_nonempty (images_logo b) = None
      /\ usable_logo (images_ogImage b) = Some false)
  /\ (forall u, branding_logo b = Some u -> u <> EmptyString ->
        _is_svg_url u = Some false ->
        _extract_best_logo_url (Some b) = Some (Some u)).
Proof.
  unfold _extract_best_logo_url. split; [|split].
  - intros u.
    destruct (usable_logo (branding_logo b)) as [[]|] eqn:E1; [| |discriminate].
    { apply usable_logo_true in E1 as (v & Ev & Hne & Hsvg).
      rewrite Ev. intros [= <-]. auto. }
    destruct (usable_logo (images_logo b)) as [[]|] eqn:E2; [| |discriminate].
    { apply usable_logo_true in E2 as (v & Ev & Hne & Hsvg).
      rewrite Ev. intros [= <-]. auto. }
    destruct (usable_logo (images_ogImage b)) as [[]|] eqn:E3; [| |discriminate].
    { apply usable_logo_true in E3 as (v & Ev & Hne & Hsvg).
      rewrite Ev. intros [= <-]. auto. }
    destruct (usable_logo_false _ E1) as [N1|(v1 & S1 & V1)].
    + rewrite N1.
      destruct (usable_logo_false _ E2) as [N2|(v2 & S2 & V2)].
      * rewrite N2. discriminate.
      * rewrite S2. intros [= <-]. apply some_nonempty_spec in S2 as [S2 Hne].
        split; [exact Hne|]. split; [auto|]. right. auto 10.
    + rewrite S1. intros [= <-]. apply some_nonempty_spec in S1 as [S1 Hne].
      split; [exact Hne|]. split; [auto|]. right. auto 10.
  - destruct (usable_logo (branding_logo b)) as [[]|] eqn:E1; [| |discriminate].
    { apply usable_logo_true in E1 as (v & Ev & _). rewrite Ev. discriminate. }
    destruct (usable_logo (images_logo b)) as [[]|] eqn:E2; [| |discriminate].
    { apply usable_logo_true in E2 as (v & Ev & _). rewrite Ev. discriminate. }
    destruct (usable_logo (images_ogImage b)) as [[]|] eqn:E3; [| |discriminate].
    { apply usable_logo_true in E3 as (v & Ev & _). rewrite Ev. discriminate. }
    destruct (some_nonempty (branding_logo b)); [discriminate|].
    destruct (some_nonempty (images_logo b)); [discriminate|]. auto.
  - intros u Eu Hne Hsvg.
    assert (E1 : usable_logo (branding_logo b) = Some true).
    { unfold usable_logo. rewrite Eu.
      assert (S : some_nonempty (Some u) = Some u) by (apply some_nonempty_spec; auto).
      rewrite S, Hsvg. reflexivity. }
    rewrite E1, Eu. reflexivity.
Qed.

End LogoExtra.

(** ** More about the enrichment of a submission *)

Module EnrichmentExtra.
Import PyStr PyStrFacts Models World Enrichment Frames EnrichmentSpec.

#[local] Arguments String.append !_ _ / : simpl nomatch.

Lemma same_but_submissions_refl (d : Db) : same_but_submissions d d.
Proof. repeat split. Qed.

Lemma same_but_submissions_trans (d1 d2 d3 : Db) :
  same_but_submissions d1 d2 -> same_but_submissions d2 d3 ->
  same_but_submissions d1 d3.
Proof.
  unfold same_but_submissions.
  intros (A1&A2&A3&A4&A5&A6&A7&A8) (B1&B2&B3&B4&B5&B6&B7&B8).
  repeat split; congruence.
Qed.

Lemma enrichment_keeps_refl (k : Z) (row : AgentSubmission) : enrichment_keeps k row row.
Proof. repeat split. Qed.

Lemma enrichment_keeps_trans (k : Z) (r1 r2 r3 : AgentSubmission) :
  enrichment_keeps k r1 r2 -> enrichment_keeps k r2 r3 -> enrichment_keeps k r1 r3.
Proof.
  unfold enrichment_keeps.
  intros (A1&A2&A3&A4&A5&A6&A7&A8&A9&A10&A11) (B1&B2&B3&B4&B5&B6&B7&B8&B9&B10&B11).
  repeat split; try congruence.
  intros Hk. rewrite B11, A11; [reflexivity|exact Hk|congruence].
Qed.

Lemma Forall2_keeps_refl (k : Z) (l : list AgentSubmission) :
  Forall2 (enrichment_keeps k) l l.
Proof. induction l; constructor; auto using enrichment_keeps_refl. Qed.

Lemma Forall2_keeps_trans (k : Z) (l1 l2 l3 : list AgentSubmission) :
  Forall2 (enrichment_keeps k) l1 l2 -> Forall2 (enrichment_keeps k) l2 l3 ->
  Forall2 (enrichment_keeps k) l1 l3.
Proof.
  intros H12. revert l3. induction H12; intros l3 H23; inversion H23; subst;
    constructor; eauto using enrichment_keeps_trans.
Qed.

Lemma not_enrichment_column (f : SubmissionField) (fs : list SubmissionField) :
  Forall (fun x => In x enrichment_columns) fs ->
  ~ In f enrichment_columns -> existsb (field_eqb f) fs = false.
Proof.
  intros Hfs Hf. induction Hfs as [|x fs Hx _ IH]; [reflexivity|].
  cbn [existsb]. rewrite IH, orb_false_r.
  destruct (field_eqb f x) eqn:E; [|reflexivity].
  exfalso. apply Hf. destruct f, x; try discriminate E; exact Hx.
Qed.

(** A save that names enrichment columns only. *)
Lemma save_fields_frame (fs : list SubmissionField) (s : AgentSubmission) (d : Db) :
  Forall (fun x => In x enrichment_columns) fs ->
  same_but_submissions d (save_fields fs s d)
  /\ Forall2 (enrichment_keeps (pk s)) (submissions d) (submissions (save_fields fs s d)).
Proof.
  intros Hfs. split; [repeat split|].
  unfold save_fields. cbn [submissions set_submissions].
  induction (submissions d) as [|row l IH]; [constructor|].
  cbn [List.map]. constructor; [|exact IH].
  destruct (Z.eqb (pk row) (pk s)) eqn:E; [|apply enrichment_keeps_refl].
  apply Z.eqb_eq in E.
  unfold enrichment_keeps, update_row.
  cbn [pk email agent_description source agent status reviewer reviewer_notes
       ai_review_result needs_manual_review].
  assert (Hno : forall f, ~ In f enrichment_columns -> existsb (field_eqb f) fs = false)
    by (intros f; apply not_enrichment_column, Hfs).
  rewrite (Hno f_agent), (Hno f_status), (Hno f_reviewer_notes),
    (Hno f_ai_review_result), (Hno f_needs_manual_review);
    try (cbn; intuition discriminate).
Qed.

Lemma verify_never_updates (n : string) (c : ContentData) :
  should_update (_verify_agent_name n c) = false.
Proof.
  unfold _verify_agent_name.
  destruct (some_nonempty _); [|reflexivity].
  destruct (negb _); reflexivity.
Qed.

(** The three ways through the aggregator step. *)
Lemma resolve_aggregator_shape `{UrlLib} (cfg : Settings) (env : Env)
    (s : AgentSubmission) (st : St) :
  let r := resolve_aggregator cfg env s (sourcing_metadata_of s) st in
  (treated_as_aggregator cfg s = false /\ r = (agent_website s, s, st))
  \/ (treated_as_aggregator cfg s = true
      /\ r = (agent_website s, s, log (EvScrapeAggregator (agent_website s)) st))
  \/ (treated_as_aggregator cfg s = true
      /\ exists u, u <> agent_website s /\ is_http_url u = true
         /\ fst (_extract_product_url_from_aggregator env (agent_website s) st) = Some u
         /\ r = (u, set_website s u,
                 log (EvSaveSubmission (set_website s u) [f_agent_website])
                     (with_db (save_fields [f_agent_website] (set_website s u))
                              (log (EvScrapeAggregator (agent_website s)) st)))).
Proof.
  cbv zeta. unfold resolve_aggregator, treated_as_aggregator.
  destruct (Filters.is_aggregator_url cfg (agent_website s) || _); [|left; auto].
  right.
  pose proof (extract_state env (agent_website s) st) as Hst.
  pose proof (extraction_accepted env (agent_website s) st) as Hacc.
  destruct (_extract_product_url_from_aggregator env (agent_website s) st) as [x st1].
  cbn [fst snd] in Hst, Hacc |- *. subst st1.
  destruct x as [u|]; cbn [some_nonempty]; [|left; auto].
  destruct (proj1 (Hacc u) eq_refl) as (j & c & _ & _ & _ & _ & Hhttp).
  assert (Hnu : nonempty u = true) by (destruct u; [discriminate Hhttp|reflexivity]).
  rewrite Hnu.
  destruct (String.eqb u (agent_website s)) eqn:E; cbn [negb]; [left; auto|].
  right. split; [reflexivity|]. exists u. apply String.eqb_neq in E. auto.
Qed.

(** What the second part of [enrich_submission] writes. *)
Lemma store_enrichment_shape (env : Env) (original_url url : string)
    (meta : option SourcingMetadata) (s : AgentSubmission) (result : EnrichmentResult)
    (st : St) :
  let out := store_enrichment env original_url url meta s result st in
  exists data lg sc fields,
    fst out = set_enrichment s data lg sc
    /\ ed_result data = Some result
    /\ _sourcing_metadata data = meta
    /\ _url_extraction data
       = (if negb (String.eqb original_url url)
          then Some (mkUrlExtraction original_url url true) else None)
    /\ Forall (fun x => In x enrichment_columns) fields
    /\ snd out = log (EvSaveSubmission (fst out) fields)
                     (with_db (save_fields fields (fst out)) st).
Proof.
  cbv zeta. unfold store_enrichment.
  set (name_info := match content_data result with
                    | Some c => if success result && content_nonempty c
                                then Some (_verify_agent_name (agent_name s) c)
                                else None
                    | None => None
                    end).
  assert (Hs : match name_info with
               | Some info =>
                   match should_update info, some_nonempty (extracted_name info) with
                   | true, Some n => set_name s (take 200 n)
                   | _, _ => s
                   end
               | None => s
               end = s).
  { destruct name_info as [info|] eqn:E; [|reflexivity].
    assert (Hu : should_update info = false).
    { unfold name_info in E. destruct (content_data result); [|discriminate].
      destruct (_ && _); [|discriminate]. injection E as <-.
      apply verify_never_updates. }
    rewrite Hu. reflexivity. }
  rewrite Hs. cbn [fst snd].
  eexists _, _, _, _. split; [reflexivity|].
  split; [reflexivity|]. split; [reflexivity|]. split; [reflexivity|].
  split; [|reflexivity].
  unfold enrichment_columns.
  match goal with
  | |- Forall _ (_ ++ (if ?a then _ else _) ++ (if ?b then _ else _)) =>
      destruct a, b
  end; cbn [app]; repeat (constructor; [cbn; auto 10|]); constructor.
Qed.

(** [enrich_submission] as the composition of its three parts. *)
Lemma enrich_submission_shape `{UrlLib} (cfg : Settings) (env : Env)
    (s : AgentSubmission) (st : St) :
  let out := enrich_submission cfg env s st in
  exists url s1 st1 data lg sc fields,
    ((treated_as_aggregator cfg s = false /\ url = agent_website s /\ s1 = s /\ st1 = st)
     \/ (treated_as_aggregator cfg s = true /\ url = agent_website s /\ s1 = s
         /\ st1 = log (EvScrapeAggregator (agent_website s)) st)
     \/ (treated_as_aggregator cfg s = true /\ url <> agent_website s
         /\ is_http_url url = true /\ s1 = set_website s url
         /\ fst (_extract_product_url_from_aggregator env (agent_website s) st) = Some url
         /\ st1 = log (EvSaveSubmission s1 [f_agent_website])
                      (with_db (save_fields [f_agent_website] s1)
                               (log (EvScrapeAggregator (agent_website s)) st))))
    /\ fst out = set_enrichment s1 data lg sc
    /\ (exists result, ed_result data = Some result)
    /\ _sourcing_metadata data = sourcing_metadata_of s
    /\ _url_extraction data
       = (if negb (String.eqb (agent_website s) url)
          then Some (mkUrlExtraction (agent_website s) url true) else None)
    /\ Forall (fun x => In x enrichment_columns) fields
    /\ snd out = log (EvSaveSubmission (fst out) fields)
                     (with_db (save_fields fields (fst out)) (log (EvScrape url) st1)).
Proof.
  cbv zeta. unfold enrich_submission.
  pose proof (resolve_aggregator_shape cfg env s st) as Hr. cbv zeta in Hr.
  destruct (resolve_aggregator cfg env s (sourcing_metadata_of s) st) as [[url s1] st1].
  pose proof (enrich_state env url st1) as He.
  destruct (enrich env url st1) as [result st2]. cbn [snd] in He. subst st2.
  destruct (store_enrichment_shape env (agent_website s) url (sourcing_metadata_of s)
              s1 result (log (EvScrape url) st1))
    as (data & lg & sc & fields & Hf & Hres & Hmeta & Hux & Hcols & Hsnd).
  exists url, s1, st1, data, lg, sc, fields.
  split; [|split; [exact Hf|split; [eauto|split; [exact Hmeta|split; [exact Hux|
            split; [exact Hcols|exact Hsnd]]]]]].
  destruct Hr as [[Ht E]|[[Ht E]|[Ht (u & Hne & Hhttp & Hex & E)]]]; injection E as -> -> ->.
  - left. auto.
  - right. left. auto.
  - right. right. auto 10.
Qed.

Lemma enrichment_nonempty_result (data : EnrichmentData) (r : EnrichmentResult) :
  ed_result data = Some r -> enrichment_nonempty data = true.
Proof. intros E. unfold enrichment_nonempty. rewrite E. reflexivity. Qed.

(** What [enrich_submission] does to the tables. *)
Lemma enrich_submission_db `{UrlLib} (cfg : Settings) (env : Env)
    (s : AgentSubmission) (st : St) :
  same_but_submissions (db st) (db (snd (enrich_submission cfg env s st)))
  /\ Forall2 (enrichment_keeps (pk s))
             (submissions (db st)) (submissions (db (snd (enrich_submission cfg env s st)))).
Proof.
  destruct (enrich_submission_shape cfg env s st)
    as (url & s1 & st1 & data & lg & sc & fields & Hcase & Hf & _ & _ & _ & Hcols & Hsnd).
  cbv zeta in Hf, Hsnd.
  assert (Hpk : pk s1 = pk s).
  { destruct Hcase as [(_&_&->&_)|[(_&_&->&_)|(_&_&_&->&_)]]; reflexivity. }
  assert (Hst1 : same_but_submissions (db st) (db st1)
                 /\ Forall2 (enrichment_keeps (pk s)) (submissions (db st))
                            (submissions (db st1))).
  { destruct Hcase as [(_&_&_&->)|[(_&_&_&->)|(_&_&_&Es1&_&->)]].
    - split; [apply same_but_submissions_refl|apply Forall2_keeps_refl].
    - split; [apply same_but_submissions_refl|apply Forall2_keeps_refl].
    - cbn [db log with_db]. rewrite <- Hpk.
      apply save_fields_frame. constructor; [cbn; auto|constructor]. }
  rewrite Hsnd, Hf. cbn [db log with_db].
  destruct Hst1 as [Hsame Hrows].
  match goal with
  | |- context [save_fields fields ?x (db st1)] =>
      pose proof (save_fields_frame fields x (db st1) Hcols) as [Hsame2 Hrows2]
  end.
  cbn [pk set_enrichment] in Hrows2. rewrite Hpk in Hrows2.
  split.
  - eapply same_but_submissions_trans; eassumption.
  - eapply Forall2_keeps_trans; eassumption.
Qed.

(** X6. [enrich_submission] writes the enrichment columns only.  The
    object keeps its key, name, status, linked entry, review verdict and
    manual-review flag (the name, because [_verify_agent_name] never asks
    for an update), and its enrichment data hold the result of the scrape
    and the sourcing metadata it had, so that a record marked as aggregator
    stays marked over repeated enrichments.  In the database nothing but
    the submission table changes; no row is added or removed, rows of other
    submissions are untouched, and the row of this submission keeps its
    status, verdict, flag and linked entry. *)
Theorem enrich_submission_frame `{UrlLib} (cfg : Settings) (env : Env)
    (s : AgentSubmission) (st : St) :
  let out := enrich_submission cfg env s st in
  (pk (fst out) = pk s /\ agent_name (fst out) = agent_name s
   /\ status (fst out) = status s /\ agent (fst out) = agent s
   /\ ai_review_result (fst out) = ai_review_result s
   /\ needs_manual_review (fst out) = needs_manual_review s
   /\ reviewer_notes (fst out) = reviewer_notes s)
  /\ (exists data r,
        enrichment_data (fst out) = Some data
        /\ ed_result data = Some r
        /\ _sourcing_metadata data = sourcing_metadata_of s)
  /\ sourcing_metadata_of (fst out) = sourcing_metadata_of s
  /\ same_but_submissions (db st) (db (snd out))
  /\ Forall2 (enrichment_keeps (pk s))
             (submissions (db st)) (submissions (db (snd out))).
Proof.
  cbv zeta.
  destruct (enrich_submission_shape cfg env s st)
    as (url & s1 & st1 & data & lg & sc & fields & Hcase & Hf & [r Hres] & Hmeta
        & _ & Hcols & Hsnd).
  cbv zeta in Hf, Hsnd.
  assert (Hs1 : pk s1 = pk s /\ agent_name s1 = agent_name s /\ status s1 = status s
                /\ agent s1 = agent s /\ ai_review_result s1 = ai_review_result s
                /\ needs_manual_review s1 = needs_manual_review s
                /\ reviewer_notes s1 = reviewer_notes s).
  { destruct Hcase as [(_&_&->&_)|[(_&_&->&_)|(_&_&_&->&_)]]; repeat split. }
  destruct Hs1 as (Hpk & Hname & Hstatus & Hagent & Hrev & Hflag & Hnotes).
  pose proof (enrich_submission_db cfg env s st) as Hdb.
  rewrite Hsnd, Hf. cbn [db log with_db fst snd set_enrichment pk agent_name status agent
                         ai_review_result needs_manual_review reviewer_notes
                         enrichment_data].
  split; [auto 10|]. split; [eauto|]. split.
  - unfold sourcing_metadata_of at 1. unfold set_enrichment. cbn [enrichment_data].
    rewrite (enrichment_nonempty_result _ _ Hres). exact Hmeta.
  - rewrite Hsnd, Hf in Hdb. exact Hdb.
Qed.

(** X7. The calls that [enrich_submission] makes, in order: for a
    submission that is not treated as an aggregator page, one full scrape of
    its own URL and one save, with the website untouched and no extraction
    recorded; in every case the last two events are the full scrape of the
    URL that the object ends with and the save of the object, preceded by
    at most the narrow aggregator scrape of the original URL and the save of
    the adopted website. *)
Theorem enrich_submission_trace `{UrlLib} (cfg : Settings) (env : Env)
    (s : AgentSubmission) (st : St) :
  let out := enrich_submission cfg env s st in
  exists pre fields,
    trace (snd out)
    = trace st ++ pre ++ [EvScrape (agent_website (fst out));
                          EvSaveSubmission (fst out) fields]
    /\ existsb (field_eqb f_enrichment_data) fields = true
    /\ (treated_as_aggregator cfg s = false ->
        pre = [] /\ agent_website (fst out) = agent_website s
        /\ option_map _url_extraction (enrichment_data (fst out)) = Some None)
    /\ (treated_as_aggregator cfg s = true ->
        (pre = [EvScrapeAggregator (agent_website s)]
         /\ agent_website (fst out) = agent_website s)
        \/ (pre = [EvScrapeAggregator (agent_website s);
                   EvSaveSubmission (set_website s (agent_website (fst out)))
                                    [f_agent_website]]
            /\ agent_website (fst out) <> agent_website s
            /\ is_http_url (agent_website (fst out)) = true)).
Proof.
  cbv zeta.
  unfold enrich_submission.
  pose proof (resolve_aggregator_shape cfg env s st) as Hr. cbv zeta in Hr.
  destruct (resolve_aggregator cfg env s (sourcing_metadata_of s) st) as [[url s1] st1].
  pose proof (enrich_state env url st1) as He.
  destruct (enrich env url st1) as [result st2]. cbn [snd] in He. subst st2.
  pose proof (store_enrichment_facts env (agent_website s) url (sourcing_metadata_of s)
                s1 result (log (EvScrape url) st1)) as Hfin.
  cbv zeta in Hfin.
  destruct Hfin as (Hweb & _ & _ & (data & Hdata & _ & Hux) & _).
  unfold store_enrichment in *. cbn [fst snd] in *.
  cbn [trace log with_db] in *.
  match goal with
  | |- context [EvSaveSubmission ?x ?fs :: nil] =>
      set (final := x) in *; set (fields := fs) in *
  end.
  assert (Hfields : existsb (field_eqb f_enrichment_data) fields = true) by reflexivity.
  clearbody final fields.
  destruct Hr as [[Ht E]|[[Ht E]|[Ht (u & Hne & Hhttp & Hex & E)]]]; injection E as -> -> ->.
  - exists [], fields. rewrite Hweb. cbn [app]. rewrite <- List.app_assoc.
    split; [reflexivity|]. split; [exact Hfields|]. split.
    + intros _. rewrite Hdata. cbn [option_map]. rewrite Hux, String.eqb_refl.
      auto.
    + congruence.
  - exists [EvScrapeAggregator (agent_website s)], fields. rewrite Hweb.
    cbn [trace log app]. rewrite <- !List.app_assoc.
    split; [reflexivity|]. split; [exact Hfields|]. split; [congruence|].
    intros _. left. auto.
  - exists [EvScrapeAggregator (agent_website s);
            EvSaveSubmission (set_website s u) [f_agent_website]], fields.
    rewrite Hweb. cbn [trace log with_db app set_website agent_website].
    rewrite <- !List.app_assoc. cbn [app].
    split; [reflexivity|]. split; [exact Hfields|]. split; [congruence|].
    intros _. right. auto.
Qed.

End EnrichmentExtra.

(** ** The creation of a directory entry *)

Module CreationExtra.
Import PyStr PyStrFacts Models World Enrichment Frames.

#[local] Arguments String.append !_ _ / : simpl nomatch.

Lemma find_none_all {A} (p : A -> bool) (l : list A) :
  List.find p l = None <-> forall x, In x l -> p x = false.
Proof.
  split; [apply find_none|].
  induction l as [|a l IH]; [reflexivity|]. intros Hall. cbn [List.find].
  rewrite (Hall a (or_introl eq_refl)). apply IH. intros x Hx. apply Hall. now right.
Qed.

(** The duplicate check passes exactly when no entry collides. *)
Lemma duplicate_check_passes (env : Env) (d : Db) (s : AgentSubmission) :
  _check_for_duplicate_agent env d s = inr tt
  <-> forall b, In b (agents d) -> collides env s b = false.
Proof.
  unfold _check_for_duplicate_agent, collides. split.
  - destruct (List.find _ (agents d)) eqn:E1; [discriminate|].
    destruct (List.find (fun a => iexact _ _) (agents d)) eqn:E2; [discriminate|].
    destruct (List.find (fun a => String.eqb (agent_slug a) _) (agents d)) eqn:E3;
      [discriminate|].
    intros _ b Hb.
    pose proof (find_none _ _ E1 b Hb) as H1.
    pose proof (find_none _ _ E2 b Hb) as H2.
    pose proof (find_none _ _ E3 b Hb) as H3.
    cbv beta in H1, H2, H3. rewrite H1, H2, H3. reflexivity.
  - intros Hall.
    assert (E1 : List.find (fun a => String.eqb (agent_website_ a) (agent_website s))
                   (agents d) = None).
    { apply find_none_all. intros b Hb. specialize (Hall b Hb).
      apply orb_false_elim in Hall as [Hall _].
      apply orb_false_elim in Hall as [Hall _]. exact Hall. }
    assert (E2 : List.find (fun a => iexact (agent_name_ a) (agent_name s))
                   (agents d) = None).
    { apply find_none_all. intros b Hb. specialize (Hall b Hb).
      apply orb_false_elim in Hall as [Hall _].
      apply orb_false_elim in Hall as [_ Hall]. exact Hall. }
    assert (E3 : List.find (fun a => String.eqb (agent_slug a) (slugify env (agent_name s)))
                   (agents d) = None).
    { apply find_none_all. intros b Hb. specialize (Hall b Hb).
      apply orb_false_elim in Hall as [_ Hall]. exact Hall. }
    rewrite E1, E2, E3. reflexivity.
Qed.

Lemma insert_agent_perm (a : Agent) (l : list Agent) :
  Permutation (insert_agent a l) (a :: l).
Proof.
  induction l as [|b l IH]; [reflexivity|]. cbn [insert_agent].
  destruct (agent_before a b); [reflexivity|].
  rewrite IH. apply perm_swap.
Qed.

Lemma length_take (n : nat) (s : string) : (String.length (take n s) <= n)%nat.
Proof.
  revert s. induction n as [|n IH]; intros [|c s]; cbn [take String.length]; try lia.
  specialize (IH s). lia.
Qed.

(** Rewriting the row of the new entry: with fresh keys only that row is
    touched. *)
Lemma replace_fresh (a a' : Agent) (l : list Agent) :
  Forall (fun b => agent_pk b <> agent_pk a) l ->
  List.map (fun b => if Z.eqb (agent_pk b) (agent_pk a) then a' else b) l = l.
Proof.
  induction 1 as [|b l Hb _ IH]; [reflexivity|]. cbn [List.map].
  apply Z.eqb_neq in Hb. rewrite Hb, IH. reflexivity.
Qed.

Lemma replace_perm (a a' : Agent) (l : list Agent) :
  Forall (fun b => agent_pk b <> agent_pk a) l ->
  Permutation (List.map (fun b => if Z.eqb (agent_pk b) (agent_pk a) then a' else b)
                        (insert_agent a l))
              (a' :: l).
Proof.
  intros Hl. rewrite (insert_agent_perm a l). cbn [List.map].
  rewrite Z.eqb_refl, (replace_fresh a a' l Hl). reflexivity.
Qed.

(** What the media step does to the entry and the tables. *)
Lemma attach_media_shape (env : Env) (s : AgentSubmission) (data : EnrichmentData)
    (a : Agent) (d : Db) :
  let out := attach_media env s data a d in
  ((fst out = a /\ agents (snd out) = agents d)
   \/ exists f, fst out = set_logo a f
        /\ agents (snd out)
           = List.map (fun b => if Z.eqb (agent_pk b) (agent_pk a) then set_logo a f else b)
                      (agents d))
  /\ submissions (snd out) = submissions d
  /\ sourcing_runs (snd out) = sourcing_runs d
  /\ next_agent_pk (snd out) = next_agent_pk d.
Proof.
  cbv zeta. unfold attach_media.
  set (shot := fun (a1 : Agent) (d1 : Db) =>
         match some_nonempty (screenshot s),
               match ed_result data with
               | Some r => some_nonempty (screenshot_url r)
               | None => None
               end with
         | Some _, _ =>
             match _copy_submission_screenshot_to_agent env s a1 with
             | Some f => store_screenshot d1 a1 f
             | None => d1
             end
         | None, Some u =>
             match _download_screenshot env a1 u with
             | Some f => store_screenshot d1 a1 f
             | None => d1
             end
         | None, None => d1
         end).
  assert (Hshot : forall a1 d1, agents (shot a1 d1) = agents d1
                                /\ submissions (shot a1 d1) = submissions d1
                                /\ sourcing_runs (shot a1 d1) = sourcing_runs d1
                                /\ next_agent_pk (shot a1 d1) = next_agent_pk d1).
  { intros a1 d1. unfold shot.
    destruct (some_nonempty (screenshot s)).
    - destruct (_copy_submission_screenshot_to_agent env s a1); repeat split.
    - destruct (match ed_result data with Some r => _ | None => None end);
        [destruct (_download_screenshot env a1 _)|]; repeat split. }
  destruct (match some_nonempty (logo s),
                  match ed_result data with
                  | Some r => some_nonempty (logo_url r)
                  | None => None
                  end with
            | Some _, _ =>
                match _copy_submission_logo_to_agent env s a with
                | Some f => store_logo d a f
                | None => (a, d)
                end
            | None, Some u =>
                match _download_logo env a u with
                | Some f => store_logo d a f
                | None => (a, d)
                end
            | None, None => (a, d)
            end) as [a1 d1] eqn:E.
  fold (shot a1 d1). cbn [fst snd].
  destruct (Hshot a1 d1) as (H1 & H2 & H3 & H4). rewrite H1, H2, H3, H4.
  assert (Hl : (a1 = a /\ d1 = d) \/ exists f, (a1, d1) = store_logo d a f).
  { destruct (some_nonempty (logo s)); cbn beta iota in E.
    - destruct (_copy_submission_logo_to_agent env s a) as [f|]; cbn beta iota in E.
      + right. exists f. symmetry. exact E.
      + left. injection E as <- <-. auto.
    - destruct (match ed_result data with
                | Some r => some_nonempty (logo_url r)
                | None => None
                end) as [u|]; cbn beta iota in E.
      + destruct (_download_logo env a u) as [f|]; cbn beta iota in E.
        * right. exists f. symmetry. exact E.
        * left. injection E as <- <-. auto.
      + left. injection E as <- <-. auto. }
  destruct Hl as [[-> ->]|[f Hf]].
  - split; [left; auto|auto].
  - unfold store_logo in Hf. injection Hf as -> ->. cbn [agents set_agents submissions
       sourcing_runs set_sequences sequences seq_agent seq_category seq_submission seq_run
       bump_agent_pk bump_category_pk bump_submission_pk bump_run_pk].
    split; [right; exists f; auto|auto].
Qed.

(** What the atomic block has done when it completes. *)
Lemma create_agent_rows_shape (env : Env) (s : AgentSubmission) (data : EnrichmentData)
    (content : ContentData) (d : Db) :
  match create_agent_rows env s data content d with
  | inl _ => True
  | inr (a, d') =>
      agent_pk a = next_agent_pk d
      /\ agent_name_ a = agent_name s
      /\ agent_website_ a = agent_website s
      /\ agent_slug a = slugify env (agent_name s)
      /\ agent_status a = PUBLISHED
      /\ (String.length (agent_short_description a) <= 250)%nat
      /\ (agent_demo_video_url a = None
          \/ is_valid_video_url (agent_demo_video_url a) = true)
      /\ List.length (agents d') = S (List.length (agents d))
      /\ (next_agent_pk d < next_agent_pk d')%Z
      /\ (Forall (fun b => agent_pk b <> next_agent_pk d) (agents d) ->
          Permutation (agents d') (a :: agents d))
      /\ submissions d' = submissions d
      /\ sourcing_runs d' = sourcing_runs d
      /\ In a (agents d')
      /\ Permutation (List.map agent_pk (agents d'))
                     (next_agent_pk d :: List.map agent_pk (agents d))
  end.
Proof.
  unfold create_agent_rows.
  destruct (get_default (short_description content) (agent_description s)) as [sd|];
    [|exact I].
  unfold Agent_objects_create.
  destruct (get_default (description content) (agent_description s)) as [desc|];
    [|exact I].
  destruct (get_default (pricing_model content) "UNKNOWN") as [pricing|]; [|exact I].
  destruct (get_default (industry content) "UNKNOWN") as [ind|]; [|exact I].
  destruct (existsb _ (agents d)); [exact I|].
  set (a0 := mkAgent _ _ _ _ _ _ _ _ _ _ _ _ _ _ _ _).
  set (d0 := bump_agent_pk _).
  set (created := match some_nonempty (get (category content)) with
                  | Some category_name =>
                      match Category_get_or_create env d0 category_name with
                      | inl e => inl e
                      | inr (c, d) => inr (Some c, d)
                      end
                  | None => inr (None, d0)
                  end).
  assert (Hcr : match created with
                | inl _ => True
                | inr (_, d1) =>
                    agents d1 = agents d0 /\ submissions d1 = submissions d0
                    /\ sourcing_runs d1 = sourcing_runs d0
                    /\ (next_agent_pk d0 <= next_agent_pk d1)%Z
                end).
  { unfold created. destruct (some_nonempty (get (category content))) as [cn|].
    - unfold Category_get_or_create.
      destruct (List.find _ (categories d0)); [repeat split; lia|].
      destruct (existsb _ (categories d0)); [exact I|].
      cbn [agents submissions sourcing_runs bump_agent_pk set_sequences sequences seq_agent
           seq_category seq_submission seq_run bump_category_pk bump_submission_pk
           bump_run_pk]. repeat split; lia.
    - repeat split; lia. }
  destruct created as [e|[cat d1]]; [exact I|].
  destruct Hcr as (Ha1 & Hs1 & Hr1 & Hn1).
  match goal with
  | |- context [attach_media env s data a0 ?dd] =>
      pose proof (attach_media_shape env s data a0 dd) as Hm;
      destruct (attach_media env s data a0 dd) as [a d2]
  end.
  cbv zeta in Hm. cbn [fst snd] in Hm.
  cbn [agents submissions sourcing_runs add_children set_sequences sequences seq_agent
       seq_category seq_submission seq_run bump_agent_pk bump_category_pk bump_submission_pk
       bump_run_pk] in Hm.
  destruct Hm as (Hag & Hs2 & Hr2 & Hn2).
  assert (Ha0 : agent_pk a = next_agent_pk d /\ agent_name_ a = agent_name s
                /\ agent_website_ a = agent_website s
                /\ agent_slug a = slugify env (agent_name s)
                /\ agent_status a = PUBLISHED
                /\ agent_short_description a = take 250 sd
                /\ agent_demo_video_url a = agent_demo_video_url a0).
  { destruct Hag as [[-> _]|(f & -> & _)]; repeat split. }
  destruct Ha0 as (P1 & P2 & P3 & P4 & P5 & P6 & P7).
  split; [exact P1|]. split; [exact P2|]. split; [exact P3|]. split; [exact P4|].
  split; [exact P5|]. split; [rewrite P6; apply length_take|].
  split.
  { rewrite P7. unfold a0. cbn [agent_demo_video_url].
    destruct (is_valid_video_url (get (demo_video_url content))) eqn:Ev; auto. }
  split.
  { destruct Hag as [[_ ->]|(f & _ & ->)]; rewrite ?length_map, Ha1;
      unfold d0; cbn [agents bump_agent_pk set_agents set_sequences sequences seq_agent
           seq_category seq_submission seq_run bump_category_pk bump_submission_pk
           bump_run_pk];
      rewrite (Permutation_length (insert_agent_perm a0 _)); reflexivity. }
  split.
  { rewrite Hn2. unfold d0 in Hn1. cbn [bump_agent_pk set_agents set_sequences sequences
       seq_agent seq_category seq_submission seq_run bump_category_pk bump_submission_pk
       bump_run_pk] in Hn1. lia. }
  split.
  { intros Hfresh.
    destruct Hag as [[-> ->]|(f & -> & ->)]; rewrite Ha1; unfold d0;
      cbn [agents bump_agent_pk set_agents set_sequences sequences seq_agent seq_category
           seq_submission seq_run bump_category_pk bump_submission_pk bump_run_pk].
    - apply insert_agent_perm.
    - apply replace_perm. exact Hfresh. }
  rewrite Hs2, Hr2, Hs1, Hr1. unfold d0.
  split; [reflexivity|]. split; [reflexivity|].
  cbn [agents bump_agent_pk set_agents submissions sourcing_runs set_sequences sequences
       seq_agent seq_category seq_submission seq_run bump_category_pk bump_submission_pk
       bump_run_pk] in *.
  destruct Hag as [[-> ->]|(f & -> & ->)]; rewrite Ha1; unfold d0;
    cbn [agents bump_agent_pk set_agents set_sequences sequences seq_agent seq_category
         seq_submission seq_run bump_category_pk bump_submission_pk bump_run_pk].
  - split.
    + eapply Permutation_in; [symmetry; apply insert_agent_perm|left; reflexivity].
    + rewrite (insert_agent_perm a0 (agents d)). reflexivity.
  - split.
    + apply in_map_iff. exists a0. rewrite Z.eqb_refl. split; [reflexivity|].
      eapply Permutation_in; [symmetry; apply insert_agent_perm|left; reflexivity].
    + rewrite List.map_map.
      rewrite (List.map_ext _ agent_pk).
      * rewrite (insert_agent_perm a0 (agents d)). reflexivity.
      * intros b. destruct (Z.eqb (agent_pk b) (agent_pk a0)) eqn:E; [|reflexivity].
        apply Z.eqb_eq in E. cbn [agent_pk set_logo]. congruence.
Qed.

(** X8. [create_agent_from_submission] is all or nothing.  It never
    touches the submissions; when it raises, the database is as before;
    when it returns an entry, the stored enrichment had succeeded, no
    existing entry collided on website, name or slug, the entry carries the
    name and website of the submission, the slug of the name, the next key,
    a short description of at most 250 characters and a demo video only
    if the URL is a valid video URL, and exactly one row was added to the
    directory. *)
Theorem creation_all_or_nothing (env : Env) (s : AgentSubmission) (st : St) :
  let out := create_agent_from_submission env s st in
  trace (snd out) = trace st
  /\ submissions (db (snd out)) = submissions (db st)
  /\ sourcing_runs (db (snd out)) = sourcing_runs (db st)
  /\ (forall e, fst out = inl e -> snd out = st)
  /\ (forall a, fst out = inr a ->
        enrichment_succeeded s = true
        /\ (forall b, In b (agents (db st)) -> collides env s b = false)
        /\ agent_pk a = next_agent_pk (db st)
        /\ agent_name_ a = agent_name s
        /\ agent_website_ a = agent_website s
        /\ agent_slug a = slugify env (agent_name s)
        /\ agent_status a = PUBLISHED
        /\ (String.length (agent_short_description a) <= 250)%nat
        /\ (agent_demo_video_url a = None
            \/ is_valid_video_url (agent_demo_video_url a) = true)
        /\ List.length (agents (db (snd out))) = S (List.length (agents (db st)))
        /\ (next_agent_pk (db st) < next_agent_pk (db (snd out)))%Z
        /\ (Forall (fun b => agent_pk b <> next_agent_pk (db st)) (agents (db st)) ->
            Permutation (agents (db (snd out))) (a :: agents (db st)))).
Proof.
  cbv zeta. unfold create_agent_from_submission, enrichment_succeeded.
  destruct (enrichment_data s) as [data|]; cbn [fst snd];
    [|repeat split; try discriminate].
  destruct (enrichment_nonempty data); cbn [negb andb fst snd];
    [|repeat split; try discriminate].
  destruct (match ed_result data with Some r => success r | None => false end);
    cbn [negb fst snd]; [|repeat split; try discriminate].
  pose proof (duplicate_check_passes env (db st) s) as Hdup.
  destruct (_check_for_duplicate_agent env (db st) s) as [e|[]]; cbn [fst snd];
    [repeat split; try discriminate|].
  assert (Hnc : forall b, In b (agents (db st)) -> collides env s b = false)
    by (apply Hdup; reflexivity).
  match goal with
  | |- context [create_agent_rows env s data ?c (db st)] =>
      pose proof (create_agent_rows_shape env s data c (db st)) as Hrows;
      destruct (create_agent_rows env s data c (db st)) as [e|[a d']]
  end; cbn [fst snd db trace]; [repeat split; try discriminate|].
  destruct Hrows as (P1 & P2 & P3 & P4 & P5 & P6 & P7 & P8 & P9 & P10 & P11 & P12 & _).
  split; [reflexivity|]. split; [exact P11|]. split; [exact P12|].
  split; [discriminate|].
  intros a' [= <-]. auto 15.
Qed.

(** The outcome of a creation that returns, in the terms of the atomic
    block. *)
Lemma creation_returns (env : Env) (s : AgentSubmission) (st : St) (a : Agent) :
  fst (create_agent_from_submission env s st) = inr a ->
  (forall b, In b (agents (db st)) -> collides env s b = false)
  /\ exists data content,
       create_agent_rows env s data content (db st)
       = inr (a, db (snd (create_agent_from_submission env s st))).
Proof.
  unfold create_agent_from_submission.
  destruct (enrichment_data s) as [data|]; [|discriminate].
  destruct (enrichment_nonempty data); [|discriminate]. cbn [negb].
  destruct (match ed_result data with Some r => success r | None => false end);
    [|discriminate]. cbn [negb].
  pose proof (duplicate_check_passes env (db st) s) as Hdup.
  destruct (_check_for_duplicate_agent env (db st) s) as [e|[]]; [discriminate|].
  match goal with
  | |- context [create_agent_rows env s data ?c (db st)] =>
      destruct (create_agent_rows env s data c (db st)) as [e|[a' d']] eqn:E;
      [discriminate|]; cbn [fst snd db]; intros [= <-];
      split; [apply Hdup; reflexivity|exists data, c; exact E]
  end.
Qed.


Lemma creation_trace (env : Env) (s : AgentSubmission) (st : St) :
  trace (snd (create_agent_from_submission env s st)) = trace st.
Proof.
  unfold create_agent_from_submission.
  destruct (enrichment_data s) as [data|]; [|reflexivity].
  destruct (negb (enrichment_nonempty data)); [reflexivity|].
  destruct (negb _); [reflexivity|].
  destruct (_check_for_duplicate_agent env (db st) s) as [?|[]]; [reflexivity|].
  destruct (create_agent_rows env s data _ (db st)) as [?|[a d']]; reflexivity.
Qed.

Lemma creation_needs_enrichment (env : Env) (s : AgentSubmission) (st : St) :
  enrichment_succeeded s = false ->
  exists msg, create_agent_from_submission env s st = (inl (EnrichmentError msg), st).
Proof.
  unfold create_agent_from_submission, enrichment_succeeded.
  destruct (enrichment_data s) as [data|]; [|eauto].
  destruct (enrichment_nonempty data); cbn [negb andb]; [|eauto].
  intros ->. cbn [negb]. eauto.
Qed.

Lemma NoDup_map_perm {A B} (f : A -> B) (l l' : list A) :
  Permutation l l' -> NoDup (List.map f l') -> NoDup (List.map f l).
Proof.
  intros Hp Hn. rewrite Hp. exact Hn.
Qed.

Lemma not_in_map {A B} (f : A -> B) (y : B) (l : list A) :
  (forall x, In x l -> f x <> y) -> y ∉ List.map f l.
Proof.
  intros Hall Hin. apply list_elem_of_In, in_map_iff in Hin as (x & Hx & Hi).
  exact (Hall x Hi Hx).
Qed.

(** X9. A successful creation preserves the uniqueness constraints of the
    directory: websites, names up to letter case, slugs and keys stay
    pairwise distinct, and every key stays below the next one. *)
Theorem creation_keeps_directory_unique (env : Env) (s : AgentSubmission) (st : St)
    (a : Agent) :
  directory_unique (db st) ->
  fst (create_agent_from_submission env s st) = inr a ->
  directory_unique (db (snd (create_agent_from_submission env s st)))
  /\ In a (agents (db (snd (create_agent_from_submission env s st)))).
Proof.
  intros (Uw & Un & Us & Uk & Hlt) Hok.
  destruct (creation_returns env s st a Hok) as (Hnc & data & content & Hrows).
  pose proof (create_agent_rows_shape env s data content (db st)) as Hshape.
  rewrite Hrows in Hshape.
  destruct Hshape as (Pk & Pn & Pw & Ps & _ & _ & _ & _ & Hnext & Hperm & _).
  assert (Hfresh : Forall (fun b => agent_pk b <> next_agent_pk (db st)) (agents (db st))).
  { eapply List.Forall_impl; [|exact Hlt]. cbv beta. intros b Hb. lia. }
  specialize (Hperm Hfresh).
  assert (Hcol : forall b, In b (agents (db st)) ->
            agent_website_ b <> agent_website_ a
            /\ lower (agent_name_ b) <> lower (agent_name_ a)
            /\ agent_slug b <> agent_slug a).
  { intros b Hb. specialize (Hnc b Hb). unfold collides, iexact in Hnc.
    apply orb_false_elim in Hnc as [Hnc H3].
    apply orb_false_elim in Hnc as [H1 H2].
    apply String.eqb_neq in H1, H2, H3. rewrite Pw, Pn, Ps. auto. }
  split; [|eapply Permutation_in; [symmetry; exact Hperm|left; reflexivity]].
  unfold directory_unique.
  split; [|split; [|split; [|split]]].
  - apply (NoDup_map_perm _ _ _ Hperm). cbn [List.map]. constructor; [|exact Uw].
    apply not_in_map. intros b Hb. apply (Hcol b Hb).
  - apply (NoDup_map_perm _ _ _ Hperm). cbn [List.map]. constructor; [|exact Un].
    apply not_in_map. intros b Hb. apply (Hcol b Hb).
  - apply (NoDup_map_perm _ _ _ Hperm). cbn [List.map]. constructor; [|exact Us].
    apply not_in_map. intros b Hb. apply (Hcol b Hb).
  - apply (NoDup_map_perm _ _ _ Hperm). cbn [List.map]. constructor; [|exact Uk].
    apply not_in_map. intros b Hb. rewrite Pk.
    rewrite List.Forall_forall in Hfresh. apply (Hfresh b Hb).
  - rewrite List.Forall_forall. intros b Hb.
    apply (Permutation_in _ Hperm) in Hb. destruct Hb as [<-|Hb].
    + lia.
    + rewrite List.Forall_forall in Hlt. specialize (Hlt b Hb). lia.
Qed.

(** X10. A [null] in the extracted content aborts the creation: for a
    submission that passes the enrichment guards and the duplicate check, a
    [short_description] that is present and null raises [TypeError] (the
    slice of [None]), and a null [description], [pricing_model] or
    [industry] is refused by the NOT NULL columns; the database is left as
    it was. *)
Theorem null_content_aborts_creation (env : Env) (s : AgentSubmission) (st : St)
    (data : EnrichmentData) (r : EnrichmentResult) (c : ContentData) :
  enrichment_data s = Some data -> ed_result data = Some r -> success r = true ->
  content_data r = Some c ->
  (forall b, In b (agents (db st)) -> collides env s b = false) ->
  (short_description c = Null ->
   create_agent_from_submission env s st
   = (inl (TypeError "'NoneType' object is not subscriptable"), st))
  /\ (short_description c <> Null ->
      description c = Null \/ pricing_model c = Null \/ industry c = Null ->
      create_agent_from_submission env s st
      = (inl (IntegrityError "NOT NULL constraint failed"), st)).
Proof.
  intros Hd Hr Hs Hc Hnc. unfold create_agent_from_submission.
  rewrite Hd. unfold enrichment_nonempty. rewrite Hr, Hs. cbn [negb].
  apply duplicate_check_passes in Hnc. rewrite Hnc. rewrite Hc.
  unfold create_agent_rows. split.
  - intros ->. reflexivity.
  - intros Hsd Hnull.
    destruct (short_description c) as [| |sd]; [|congruence|]; cbn [get_default].
    + unfold Agent_objects_create.
      destruct Hnull as [ -> | [ -> | -> ] ]; cbn [get_default];
        repeat match goal with
               | |- context [get_default ?f ?x] => destruct (get_default f x)
               end; reflexivity.
    + unfold Agent_objects_create.
      destruct Hnull as [ -> | [ -> | -> ] ]; cbn [get_default];
        repeat match goal with
               | |- context [get_default ?f ?x] => destruct (get_default f x)
               end; reflexivity.
Qed.

(** X11. The primary flag of screenshots: the first screenshot stored for
    an entry is its primary one, a later one is not, and the screenshots
    of other entries keep their flags; so an entry never has two primary
    screenshots because of [store_screenshot]. *)
Theorem store_screenshot_primary (d : Db) (a : Agent) (f : string) :
  let d' := store_screenshot d a f in
  List.length (screenshots d') = S (List.length (screenshots d))
  /\ has_screenshot d' (agent_pk a) = true
  /\ (has_screenshot d (agent_pk a) = false -> primary_count d' (agent_pk a) = 1%nat)
  /\ (has_screenshot d (agent_pk a) = true ->
      primary_count d' (agent_pk a) = primary_count d (agent_pk a))
  /\ (forall k, k <> agent_pk a ->
        primary_count d' k = primary_count d k
        /\ has_screenshot d' k = has_screenshot d k).
Proof.
  cbv zeta. unfold store_screenshot, has_screenshot, primary_count.
  cbn [screenshots].
  destruct (existsb (fun s => Z.eqb (screenshot_agent s) (agent_pk a)) (screenshots d))
    eqn:E; cbn [negb].
  - rewrite !List.length_app, !List.filter_app, !List.length_app, List.existsb_app. cbn [List.length List.filter existsb screenshot_agent screenshot_is_primary].
    rewrite Z.eqb_refl. cbn [andb List.length]. rewrite orb_true_r.
    split; [lia|]. split; [reflexivity|]. split; [discriminate|].
    split; [intros _; lia|].
    intros k Hk. rewrite List.filter_app, List.length_app, List.existsb_app.
    cbn [existsb List.filter screenshot_agent].
    apply Z.eqb_neq in Hk. rewrite (Z.eqb_sym (agent_pk a) k), Hk.
    cbn [andb orb List.length]. rewrite orb_false_r. split; [lia|reflexivity].
  - assert (Hmap : List.map (fun s => if Z.eqb (screenshot_agent s) (agent_pk a)
                                      then mkScreenshot (screenshot_agent s)
                                             (screenshot_image s) false
                                      else s) (screenshots d) = screenshots d).
    { induction (screenshots d) as [|x l IH]; [reflexivity|].
      cbn [existsb] in E. apply orb_false_elim in E as [Ex El].
      cbn [List.map]. rewrite Ex, (IH El). reflexivity. }
    rewrite Hmap.
    rewrite !List.length_app, !List.filter_app, !List.length_app, List.existsb_app.
    cbn [List.length List.filter existsb screenshot_agent screenshot_is_primary].
    rewrite Z.eqb_refl. cbn [andb List.length]. rewrite orb_true_r.
    split; [lia|]. split; [reflexivity|]. split.
    + intros _.
      assert (Hz : List.filter (fun s => Z.eqb (screenshot_agent s) (agent_pk a)
                                         && screenshot_is_primary s) (screenshots d) = []).
      { induction (screenshots d) as [|x l IH]; [reflexivity|].
        cbn [existsb] in E. apply orb_false_elim in E as [Ex El].
        cbn [List.filter]. rewrite Ex. cbn [andb]. apply IH; [exact El|].
        cbn [List.map] in Hmap. rewrite Ex in Hmap. now injection Hmap. }
      rewrite Hz. reflexivity.
    + split; [discriminate|].
      intros k Hk. rewrite List.filter_app, List.length_app, List.existsb_app.
      cbn [existsb List.filter screenshot_agent].
      apply Z.eqb_neq in Hk. rewrite (Z.eqb_sym (agent_pk a) k), Hk.
      cbn [andb orb List.length]. rewrite orb_false_r. split; [lia|reflexivity].
Qed.

End CreationExtra.

(** ** More about the sourcing service *)

Module SourcingExtra.
Import PyStr PyStrFacts Models World Base Filters Sourcing Frames.

#[local] Arguments String.append !_ _ / : simpl nomatch.

Lemma classification_in_list `{UrlLib} (cfg : Settings) (url : string) :
  In (get_url_classification cfg url) URLClassification.
Proof.
  unfold get_url_classification, URLClassification.
  destruct (is_blocked_url cfg url); [cbn; auto|].
  destruct (is_aggregator_url cfg url); [cbn; auto|].
  destruct (is_github_url url).
  { destruct (AUTO_DIRECTORY_GITHUB_VALID cfg); cbn; auto. }
  destruct (is_allowlisted_url cfg url); [cbn; auto 10|].
  destruct (is_non_root_url url); cbn; auto 10.
Qed.

(** A candidate that is not blocked and whose URL the parser refuses makes
    the filtering loop raise, wherever it stands in the batch. *)
Lemma filter_discoveries_unparseable `{UrlLib} (cfg : Settings) (a : DiscoveredAgent)
    (ds : list DiscoveredAgent) :
  In a ds -> get_url_classification cfg (website a) <> "blocked" ->
  normalize_url (website a) = None ->
  forall urls b dup, filter_discoveries cfg ds urls b dup = None.
Proof.
  intros Hin Hnb Hnone. induction ds as [|x ds IH]; [destruct Hin|].
  intros urls b dup. cbn [filter_discoveries].
  destruct Hin as [->|Hin].
  - apply String.eqb_neq in Hnb. rewrite Hnb, Hnone. reflexivity.
  - specialize (IH Hin).
    destruct (String.eqb _ "blocked"); [apply IH|].
    destruct (normalize_url (website x)) as [n|]; [|reflexivity].
    destruct (negb (nonempty n) || bool_decide (n ∈ urls)); [apply IH|].
    rewrite IH. reflexivity.
Qed.

(** The bookkeeping of the filtering loop: every candidate is kept, counted
    as blocked, or counted as duplicate; a kept candidate comes from the
    batch with its classification, is not blocked and has a non-empty normal
    form; the set grows by the normal forms of the kept candidates; and
    every candidate of the batch that is not blocked has an empty normal
    form or one that is in the final set. *)
Lemma filter_discoveries_spec `{UrlLib} (cfg : Settings) (ds : list DiscoveredAgent) :
  forall urls b dup kept urls' b' dup',
  filter_discoveries cfg ds urls b dup = Some (kept, urls', b', dup') ->
  (List.length kept + b' + dup' = List.length ds + b + dup)%nat
  /\ Forall (fun k => In (fst k) ds
                      /\ snd k = get_url_classification cfg (website (fst k))
                      /\ snd k <> "blocked"
                      /\ exists n, normalize_url (website (fst k)) = Some n
                                   /\ n <> EmptyString /\ n ∈ urls') kept
  /\ (forall n, n ∈ urls -> n ∈ urls')
  /\ (forall n, n ∈ urls' ->
        n ∈ urls \/ exists k, In k kept /\ normalize_url (website (fst k)) = Some n)
  /\ Forall (fun a => get_url_classification cfg (website a) = "blocked"
                      \/ exists n, normalize_url (website a) = Some n
                                   /\ (n = EmptyString \/ n ∈ urls')) ds.
Proof.
  induction ds as [|a ds IH]; intros urls b dup kept urls' b' dup'.
  - cbn [filter_discoveries]. intros [= <- <- <- <-].
    repeat split; auto; constructor.
  - cbn [filter_discoveries].
    destruct (String.eqb (get_url_classification cfg (website a)) "blocked") eqn:Eb.
    { intros Hf. destruct (IH _ _ _ _ _ _ _ Hf) as (Hc & Hk & Hm & Hn & Hall).
      apply String.eqb_eq in Eb.
      split; [cbn [List.length]; lia|]. split.
      { eapply List.Forall_impl; [|exact Hk]. cbv beta.
        intros k (K1 & K2); split; [right; exact K1|exact K2]. }
      split; [exact Hm|]. split; [exact Hn|]. constructor; [left; exact Eb|exact Hall]. }
    destruct (normalize_url (website a)) as [n|] eqn:En; [|discriminate].
    destruct (negb (nonempty n) || bool_decide (n ∈ urls)) eqn:Ed.
    { intros Hf. destruct (IH _ _ _ _ _ _ _ Hf) as (Hc & Hk & Hm & Hn & Hall).
      split; [cbn [List.length]; lia|]. split.
      { eapply List.Forall_impl; [|exact Hk]. cbv beta.
        intros k (K1 & K2); split; [right; exact K1|exact K2]. }
      split; [exact Hm|]. split; [exact Hn|].
      constructor; [|exact Hall]. right. exists n. split; [exact En|].
      apply orb_prop in Ed as [Ee|Ei].
      - left. destruct n; [reflexivity|discriminate].
      - right. apply bool_decide_eq_true_1 in Ei. apply Hm, Ei. }
    destruct (filter_discoveries cfg ds ({[n]} ∪ urls) b dup)
      as [[[[kept0 urls0] b0] dup0]|] eqn:Ef; [|discriminate].
    intros [= <- <- <- <-].
    destruct (IH _ _ _ _ _ _ _ Ef) as (Hc & Hk & Hm & Hn & Hall).
    apply orb_false_elim in Ed as [Ee Ei].
    assert (Hne : n <> EmptyString) by (destruct n; [discriminate|congruence]).
    assert (Hin : n ∈ urls0)
      by (apply Hm, elem_of_union; left; apply elem_of_singleton; reflexivity).
    apply String.eqb_neq in Eb.
    split; [cbn [List.length]; lia|]. split.
    { constructor.
      - cbn [fst snd]. split; [left; reflexivity|]. split; [reflexivity|].
        split; [exact Eb|]. exists n. auto.
      - eapply List.Forall_impl; [|exact Hk]. cbv beta.
        intros k (K1 & K2); split; [right; exact K1|exact K2]. }
    split; [intros m Hm'; apply Hm, elem_of_union; right; exact Hm'|]. split.
    { intros m Hm'. destruct (Hn m Hm') as [Hu|(k & Hk1 & Hk2)].
      - apply elem_of_union in Hu as [Hu|Hu]; [|left; exact Hu].
        apply elem_of_singleton in Hu. subst m. right.
        exists (a, get_url_classification cfg (website a)). split; [left; reflexivity|exact En].
      - right. exists k. split; [right; exact Hk1|exact Hk2]. }
    constructor; [|exact Hall]. right. exists n. auto.
Qed.

(** When every candidate that is not blocked has a normal form that is
    empty or already in the set, nothing is kept. *)
Lemma filter_discoveries_nothing `{UrlLib} (cfg : Settings) (ds : list DiscoveredAgent)
    (urls : gset string) :
  Forall (fun a => get_url_classification cfg (website a) = "blocked"
                   \/ exists n, normalize_url (website a) = Some n
                                /\ (n = EmptyString \/ n ∈ urls)) ds ->
  forall b dup, exists b' dup',
    filter_discoveries cfg ds urls b dup = Some ([], urls, b', dup').
Proof.
  induction 1 as [|a ds Ha _ IH]; intros b dup.
  - exists b, dup. reflexivity.
  - cbn [filter_discoveries]. destruct Ha as [Hb|(n & Hn & Hd)].
    + rewrite Hb. cbn. apply IH.
    + destruct (String.eqb _ "blocked"); [apply IH|]. rewrite Hn.
      assert (Hs : negb (nonempty n) || bool_decide (n ∈ urls) = true).
      { destruct Hd as [->|Hd]; [reflexivity|].
        rewrite (bool_decide_eq_true_2 _ Hd). apply orb_true_r. }
      rewrite Hs. apply IH.
Qed.

(** The creation loop appends one row per kept candidate, with consecutive
    keys, and touches nothing else. *)
Lemma create_submissions_spec (src : string) (kept : list (DiscoveredAgent * string)) :
  forall d,
  let out := create_submissions src kept d in
  submissions (snd out) = submissions d ++ fst out
  /\ next_submission_pk (snd out) = (next_submission_pk d + Z.of_nat (List.length kept))%Z
  /\ List.length (fst out) = List.length kept
  /\ List.map pk (fst out)
     = List.map (fun i => (next_submission_pk d + Z.of_nat i)%Z) (seq 0 (List.length kept))
  /\ Forall2 (fun s k => s = new_submission (pk s) src (fst k) (snd k)) (fst out) kept
  /\ agents (snd out) = agents d /\ categories (snd out) = categories d
  /\ agent_categories (snd out) = agent_categories d
  /\ feature_set (snd out) = feature_set d /\ use_case_set (snd out) = use_case_set d
  /\ screenshots (snd out) = screenshots d /\ sourcing_runs (snd out) = sourcing_runs d.
Proof.
  induction kept as [|[a c] kept IH]; intros d; cbv zeta.
  - cbn. rewrite app_nil_r, Z.add_0_r. repeat split. constructor.
  - cbn [create_submissions].
    specialize (IH (bump_submission_pk (set_submissions d
                       (submissions d ++ [new_submission (next_submission_pk d) src a c])))).
    cbv zeta in IH.
    destruct (create_submissions src kept _) as [l d'].
    cbn [fst snd] in *.
    cbn [submissions agents categories agent_categories feature_set use_case_set screenshots
         sourcing_runs bump_submission_pk set_submissions set_sequences sequences seq_agent
         seq_category seq_submission seq_run bump_agent_pk bump_category_pk bump_run_pk] in
         IH.
    destruct IH as (I1 & I2 & I3 & I4 & I5 & I6 & I7 & I8 & I9 & I10 & I11 & I12).
    split; [rewrite I1, <- List.app_assoc; reflexivity|].
    split; [rewrite I2; cbn [List.length]; lia|].
    split; [cbn [List.length]; congruence|].
    split.
    { cbn [List.map List.length seq pk new_submission]. rewrite Z.add_0_r. f_equal.
      rewrite I4, <- seq_shift, List.map_map. apply List.map_ext. intros i. lia. }
    split; [constructor; [reflexivity|exact I5]|].
    auto 10.
Qed.

(** What a call of [_process_discoveries] that returns has done. *)
Lemma process_discoveries_created `{UrlLib} (cfg : Settings) (ds : list DiscoveredAgent)
    (src : string) (d : Db) (subs : list AgentSubmission) (d' : Db) :
  _process_discoveries cfg ds src d = inr (subs, d') ->
  exists kept,
    create_submissions src kept d = (subs, d')
    /\ (List.length kept <= List.length ds)%nat
    /\ Forall (fun k => In (fst k) ds
                        /\ snd k = get_url_classification cfg (website (fst k))
                        /\ snd k <> "blocked"
                        /\ exists n, normalize_url (website (fst k)) = Some n
                                     /\ n <> EmptyString) kept.
Proof.
  unfold _process_discoveries. destruct ds as [|x ds'].
  - intros [= <- <-]. exists []. split; [reflexivity|]. split; [cbn; lia|constructor].
  - destruct (_get_existing_urls d) as [urls|]; [|discriminate].
    destruct (filter_discoveries cfg (x :: ds') urls 0 0)
      as [[[[kept urls'] b'] dup']|] eqn:Ef; [|discriminate].
    intros [= Hc]. exists kept. split; [exact Hc|].
    destruct (filter_discoveries_spec cfg _ _ _ _ _ _ _ _ Ef) as (Hn & Hk & _).
    split; [lia|].
    eapply List.Forall_impl; [|exact Hk]. cbv beta.
    intros k (K1 & K2 & K3 & n & K4 & K5 & _). eauto 10.
Qed.

(** X12. One candidate whose URL the parser refuses aborts the whole run:
    when a discovered candidate is not blocked and [urlparse] raises on its
    website, [_process_discoveries] raises, whatever else is in the batch,
    and [run] records a failed run that counts the discoveries, creates no
    submission and leaves the submissions table as it was. *)
Theorem unparseable_candidate_aborts_run `{UrlLib} (cfg : Settings) (env : Env)
    (source : Source) (limit : nat) (auto_enrich : bool) (st : St)
    (ds : list DiscoveredAgent) (a : DiscoveredAgent) :
  discover source limit = Returned ds -> In a ds ->
  get_url_classification cfg (website a) <> "blocked" ->
  normalize_url (website a) = None ->
  (exists msg, _process_discoveries cfg ds (src_id source) (db st) = inl (ValueError msg))
  /\ (let out := run cfg env source limit auto_enrich st in
      run_success (fst out) = false
      /\ discovered_count (fst out) = List.length ds
      /\ new_count (fst out) = 0%nat
      /\ created_submission_ids (fst out) = []
      /\ run_completed (fst out) = true
      /\ submissions (db (snd out)) = submissions (db st)
      /\ trace (snd out) = trace st).
Proof.
  intros Hdisc Hin Hnb Hnone.
  assert (Hp : forall d, exists msg,
             _process_discoveries cfg ds (src_id source) d = inl (ValueError msg)).
  { intros d. unfold _process_discoveries.
    destruct ds as [|x ds']; [destruct Hin|].
    destruct (_get_existing_urls d) as [urls|]; [|eauto].
    rewrite (filter_discoveries_unparseable cfg a (x :: ds') Hin Hnb Hnone). eauto. }
  split; [apply Hp|].
  cbv zeta. unfold run. rewrite Hdisc.
  match goal with
  | |- context [_process_discoveries cfg ds (src_id source) ?d] =>
      destruct (Hp d) as [msg ->]
  end.
  cbn [fst snd run_success discovered_count new_count created_submission_ids run_completed
       db trace submissions save_run set_sourcing_runs bump_run_pk set_sequences sequences
       seq_agent seq_category seq_submission seq_run bump_agent_pk bump_category_pk
       bump_submission_pk].
  repeat split.
Qed.

Lemma enrich_each_frame `{UrlLib} (cfg : Settings) (env : Env)
    (l : list AgentSubmission) :
  forall st,
  same_but_submissions (db st) (db (enrich_each cfg env l st))
  /\ List.map pk (submissions (db (enrich_each cfg env l st)))
     = List.map pk (submissions (db st)).
Proof.
  induction l as [|s l IH]; intros st; cbn [enrich_each].
  - split; [apply EnrichmentExtra.same_but_submissions_refl|reflexivity].
  - pose proof (EnrichmentExtra.enrich_submission_db cfg env s st) as Hf.
    destruct (Enrichment.enrich_submission cfg env s st) as [s' st'].
    cbn [fst snd] in Hf. destruct Hf as (Hsame & Hrows).
    destruct (IH st') as [Hsame' Hpk']. split.
    + eapply EnrichmentExtra.same_but_submissions_trans; eassumption.
    + rewrite Hpk'. clear -Hrows.
      induction Hrows as [|x y l1 l2 Hxy _ IHr]; [reflexivity|].
      cbn [List.map]. destruct Hxy as (-> & _). rewrite IHr. reflexivity.
Qed.

Lemma map_pk_nil (l : list AgentSubmission) : List.map pk l = [] <-> l = [].
Proof. destruct l; split; intros E; try reflexivity; discriminate E. Qed.

(** X13. The bookkeeping of [run]: the run record is completed and stored
    under the key handed out at the start; it lists one key per new
    submission, and those are the keys of the rows appended to the
    submissions table.  A successful run has discovered = new + skipped and
    no error message, and when enrichment was asked for and something was
    created, the enrichment service could be constructed.  A failed run
    either created nothing (no new and no skipped submission, the table as it
    was), or enrichment was asked for, something was created and the
    constructor of the enrichment service raised: the run then carries the
    message of that exception together with the counts and keys of the
    submissions created, and no external call was made. *)
Theorem run_bookkeeping `{UrlLib} (cfg : Settings) (env : Env) (source : Source)
    (limit : nat) (auto_enrich : bool) (st : St) :
  let out := run cfg env source limit auto_enrich st in
  let r := fst out in
  run_completed r = true /\ run_pk r = next_run_pk (db st)
  /\ run_source_id r = src_id source
  /\ In r (sourcing_runs (db (snd out)))
  /\ agents (db (snd out)) = agents (db st)
  /\ List.length (created_submission_ids r) = new_count r
  /\ List.map pk (submissions (db (snd out)))
     = List.map pk (submissions (db st)) ++ created_submission_ids r
  /\ (run_success r = true ->
      discovered_count r = (new_count r + skipped_count r)%nat
      /\ run_error_message r = ""
      /\ (exists ds, discover source limit = Returned ds
                     /\ discovered_count r = List.length ds)
      /\ (auto_enrich = true -> created_submission_ids r <> [] ->
          exists u, EnrichmentService_init env = Returned u))
  /\ (run_success r = false ->
      (new_count r = 0%nat /\ skipped_count r = 0%nat /\ created_submission_ids r = []
       /\ submissions (db (snd out)) = submissions (db st))
      \/ (auto_enrich = true /\ created_submission_ids r <> []
          /\ EnrichmentService_init env = Raised (run_error_message r)
          /\ discovered_count r = (new_count r + skipped_count r)%nat
          /\ trace (snd out) = trace st
          /\ exists ds, discover source limit = Returned ds
                        /\ discovered_count r = List.length ds)).
Proof.
  cbv zeta. unfold run.
  set (d0 := bump_run_pk (set_sourcing_runs (db st) _)).
  assert (Hsave : forall r d, run_pk r = next_run_pk (db st) ->
            sourcing_runs d = sourcing_runs d0 -> In r (sourcing_runs (save_run r d))).
  { intros r d Hr Hd. unfold save_run. cbn [sourcing_runs set_sourcing_runs].
    rewrite Hd. unfold d0.
    cbn [sourcing_runs bump_run_pk set_sequences set_sourcing_runs].
    rewrite List.map_app. apply in_or_app. right. cbn [List.map run_pk].
    rewrite Hr, Z.eqb_refl. left. reflexivity. }
  assert (Hresave : forall r r' d, run_pk r' = run_pk r ->
            In r (sourcing_runs d) -> In r' (sourcing_runs (save_run r' d))).
  { intros r r' d Hk Hin. unfold save_run. cbn [sourcing_runs set_sourcing_runs].
    apply in_map_iff. exists r. rewrite Hk, Z.eqb_refl. auto. }
  destruct (discover source limit) as [e|ds] eqn:Hd.
  { cbn [fst snd run_completed run_pk run_source_id run_success new_count skipped_count
         created_submission_ids db].
    split; [reflexivity|]. split; [reflexivity|]. split; [reflexivity|].
    split; [apply Hsave; reflexivity|]. split; [reflexivity|]. split; [reflexivity|].
    split; [unfold save_run; cbn [submissions set_sourcing_runs]; unfold d0;
            cbn [submissions bump_run_pk set_sequences set_sourcing_runs];
            rewrite app_nil_r; reflexivity|].
    split; [discriminate|]. intros _. left. repeat split. }
  destruct (_process_discoveries cfg ds (src_id source) d0) as [e|[l d1]] eqn:Ep.
  { cbn [fst snd run_completed run_pk run_source_id run_success new_count skipped_count
         created_submission_ids db].
    split; [reflexivity|]. split; [reflexivity|]. split; [reflexivity|].
    split; [apply Hsave; reflexivity|]. split; [reflexivity|]. split; [reflexivity|].
    split; [unfold save_run; cbn [submissions set_sourcing_runs]; unfold d0;
            cbn [submissions bump_run_pk set_sequences set_sourcing_runs];
            rewrite app_nil_r; reflexivity|].
    split; [discriminate|]. intros _. left. repeat split. }
  destruct (process_discoveries_created cfg ds (src_id source) d0 l d1 Ep)
    as (kept & Hc & Hlen & _).
  pose proof (create_submissions_spec (src_id source) kept d0) as Hs. cbv zeta in Hs.
  rewrite Hc in Hs. cbn [fst snd] in Hs.
  destruct Hs as (C1 & C2 & C3 & C4 & C5 & C6 & C7 & C8 & C9 & C10 & C11 & C12).
  set (r := mkSourcingRun _ _ _ _ _ true _ _ _).
  set (st1 := mkSt (save_run r d1) (trace st)).
  assert (H1 : In r (sourcing_runs (db st1))
               /\ agents (db st1) = agents (db st)
               /\ List.map pk (submissions (db st1))
                  = List.map pk (submissions (db st)) ++ List.map pk l).
  { unfold st1. cbn [db]. split; [apply Hsave; [reflexivity|exact C12]|].
    unfold save_run. cbn [agents submissions set_sourcing_runs].
    rewrite C6, C1, List.map_app. split; reflexivity. }
  destruct H1 as (A1 & A2 & A3).
  destruct (auto_enrich && negb (bool_decide (l = []))) eqn:Eb.
  2:{ cbn [fst snd].
      split; [reflexivity|]. split; [reflexivity|]. split; [reflexivity|].
      split; [exact A1|]. split; [exact A2|].
      cbn [discovered_count new_count skipped_count created_submission_ids
           run_success run_error_message r].
      split; [apply List.length_map|]. split; [exact A3|]. split; [|discriminate].
      intros _. split; [lia|]. split; [reflexivity|]. split; [exists ds; auto|].
      intros -> Hne. exfalso. apply Hne. apply map_pk_nil.
      cbn [andb] in Eb. apply negb_false_iff in Eb.
      destruct (decide (l = [])) as [Hl|Hl]; [exact Hl|].
      rewrite (bool_decide_eq_false_2 _ Hl) in Eb. discriminate. }
  apply andb_true_iff in Eb as [-> Hl]. apply negb_true_iff in Hl.
  assert (Hne : List.map pk l <> []).
  { intros Hm. apply map_pk_nil in Hm.
    rewrite (bool_decide_eq_true_2 _ Hm) in Hl. discriminate. }
  unfold _enrich_submissions.
  destruct (EnrichmentService_init env) as [e|u] eqn:Ei.
  - cbn [fst snd run_completed run_pk run_source_id run_success new_count skipped_count
         discovered_count created_submission_ids run_error_message db trace st1].
    split; [reflexivity|]. split; [reflexivity|]. split; [reflexivity|].
    split; [apply (Hresave r); [reflexivity|exact A1]|].
    split; [unfold save_run; cbn [agents set_sourcing_runs]; exact A2|].
    split; [apply List.length_map|].
    split; [unfold save_run; cbn [submissions set_sourcing_runs]; exact A3|].
    split; [discriminate|]. intros _. right.
    split; [reflexivity|]. split; [exact Hne|]. split; [reflexivity|].
    split; [lia|]. split; [reflexivity|]. exists ds. auto.
  - destruct (enrich_each_frame cfg env l st1) as [(F1&_&_&_&_&_&F7&_) Fpk].
    cbn [fst snd].
    split; [reflexivity|]. split; [reflexivity|]. split; [reflexivity|].
    split; [rewrite F7; exact A1|]. split; [rewrite F1; exact A2|].
    cbn [discovered_count new_count skipped_count created_submission_ids
         run_success run_error_message r].
    split; [apply List.length_map|]. split; [rewrite Fpk; exact A3|].
    split; [|discriminate].
    intros _. split; [lia|]. split; [reflexivity|]. split; [exists ds; auto|].
    intros _ _. exists u. reflexivity.
Qed.

Lemma take_all (n : nat) (s : string) :
  (String.length s <= n)%nat -> take n s = s.
Proof.
  revert s. induction n as [|n IH]; intros [|c s]; cbn [String.length take];
    try reflexivity; try lia.
  intros Hl. f_equal. apply IH. lia.
Qed.

(** X14. The submissions that [_process_discoveries] creates: they are
    appended to the table with consecutive fresh keys and nothing else is
    touched; each is PENDING, of source AUTO, without entry or review, with
    name and website cut to the column widths and a non-empty description;
    its sourcing metadata record the classification of the candidate, which
    is never [blocked]; it is flagged for manual review exactly for the
    classifications [non_root] and [github], and marked as aggregator
    exactly for [aggregator]. *)
Theorem created_submissions_shape `{UrlLib} (cfg : Settings) (ds : list DiscoveredAgent)
    (src : string) (d : Db) (subs : list AgentSubmission) (d' : Db) :
  _process_discoveries cfg ds src d = inr (subs, d') ->
  submissions d' = submissions d ++ subs
  /\ agents d' = agents d /\ sourcing_runs d' = sourcing_runs d
  /\ next_submission_pk d' = (next_submission_pk d + Z.of_nat (List.length subs))%Z
  /\ List.map pk subs
     = List.map (fun i => (next_submission_pk d + Z.of_nat i)%Z) (seq 0 (List.length subs))
  /\ (List.length subs <= List.length ds)%nat
  /\ Forall (fun s =>
       status s = PENDING /\ source s = AUTO /\ agent s = None
       /\ ai_review_result s = None
       /\ (String.length (agent_name s) <= 200)%nat
       /\ (String.length (agent_website s) <= 255)%nat
       /\ agent_description s <> EmptyString
       /\ exists a m,
            In a ds /\ agent_name s = take 200 (name a)
            /\ agent_website s = take 255 (website a)
            /\ enrichment_data s
               = Some (mkEnrichmentData None None (Some m) None None
                         false false false false)
            /\ url_classification m = get_url_classification cfg (website a)
            /\ url_classification m <> "blocked"
            /\ meta_source_id m = src
            /\ (needs_manual_review s = true
                <-> url_classification m = "non_root" \/ url_classification m = "github")
            /\ (is_aggregator m = true <-> url_classification m = "aggregator")
            /\ (is_github m = true <-> url_classification m = "github")) subs.
Proof.
  intros Hp.
  destruct (process_discoveries_created cfg ds src d subs d' Hp) as (kept & Hc & Hlen & Hk).
  pose proof (create_submissions_spec src kept d) as Hs. cbv zeta in Hs.
  rewrite Hc in Hs. cbn [fst snd] in Hs.
  destruct Hs as (C1 & C2 & C3 & C4 & C5 & C6 & _ & _ & _ & _ & _ & C12).
  rewrite C3. repeat (split; [first [assumption | lia]|]).
  clear -C5 Hk. induction C5 as [|s k subs kept Hsk _ IH]; [constructor|].
  apply List.Forall_cons_iff in Hk as [Hk0 Hk]. constructor; [|apply IH, Hk].
  destruct Hk0 as (K1 & K2 & K3 & _). rewrite Hsk.
  unfold new_submission.
  cbn [status source agent ai_review_result agent_name agent_website agent_description
       enrichment_data needs_manual_review].
  split; [reflexivity|]. split; [reflexivity|]. split; [reflexivity|].
  split; [reflexivity|]. split; [apply CreationExtra.length_take|].
  split; [apply CreationExtra.length_take|]. split.
  { destruct (description (fst k)); [discriminate|discriminate]. }
  exists (fst k). eexists. split; [exact K1|]. split; [reflexivity|].
  split; [reflexivity|]. split; [reflexivity|].
  cbn [url_classification meta_source_id is_aggregator is_github].
  split; [exact K2|]. split; [exact K3|]. split; [reflexivity|].
  rewrite orb_true_iff, !String.eqb_eq. tauto.
Qed.

Lemma add_normalized_app `{UrlLib} (l1 l2 : list string) :
  forall urls,
  add_normalized (l1 ++ l2) urls
  = match add_normalized l1 urls with
    | Some u => add_normalized l2 u
    | None => None
    end.
Proof.
  induction l1 as [|w l1 IH]; intros urls; [reflexivity|].
  cbn [app add_normalized]. destruct (normalize_url w); [apply IH|reflexivity].
Qed.

Lemma add_normalized_total `{UrlLib} (ws : list string) :
  (forall w, In w ws -> normalize_url w <> None) ->
  forall urls, exists r, add_normalized ws urls = Some r.
Proof.
  induction ws as [|w ws IH]; intros Hall urls; [eexists; reflexivity|].
  cbn [add_normalized].
  destruct (normalize_url w) as [n|] eqn:En;
    [|exfalso; apply (Hall w); [left; reflexivity|exact En]].
  apply IH. intros x Hx. apply Hall. right. exact Hx.
Qed.

Lemma Forall2_in_r {A B} (R : A -> B -> Prop) (l : list A) (k : list B) (y : B) :
  Forall2 R l k -> In y k -> exists x, In x l /\ R x y.
Proof.
  induction 1 as [|x y0 l k Hxy _ IH]; [intros []|].
  intros [->|Hin]; [exists x; split; [left; reflexivity|exact Hxy]|].
  destruct (IH Hin) as (x' & Hx' & Hr). exists x'. split; [right; exact Hx'|exact Hr].
Qed.

Lemma filter_all {A} (p : A -> bool) (l : list A) :
  Forall (fun x => p x = true) l -> List.filter p l = l.
Proof.
  induction 1 as [|x l Hx _ IH]; [reflexivity|]. cbn [List.filter]. rewrite Hx, IH.
  reflexivity.
Qed.

(** X15. Sourcing is idempotent on a batch: after [_process_discoveries]
    has returned, the same discoveries processed again on the resulting
    database create nothing, provided their websites fit the column (255
    characters), so that the stored website is the discovered one. *)
Theorem reprocessing_creates_nothing `{UrlLib} (cfg : Settings)
    (ds : list DiscoveredAgent) (src : string) (d : Db)
    (subs : list AgentSubmission) (d' : Db) :
  _process_discoveries cfg ds src d = inr (subs, d') ->
  (forall a, In a ds -> (String.length (website a) <= 255)%nat) ->
  _process_discoveries cfg ds src d' = inr ([], d').
Proof.
  intros Hp Hfit. unfold _process_discoveries in *.
  destruct ds as [|x ds']; [injection Hp as <- <-; reflexivity|].
  set (ds := x :: ds') in *.
  destruct (_get_existing_urls d) as [urls|] eqn:Eu; [|discriminate].
  destruct (filter_discoveries cfg ds urls 0 0)
    as [[[[kept urls'] b'] dup']|] eqn:Ef; [|discriminate].
  injection Hp as Hc.
  destruct (filter_discoveries_spec cfg _ _ _ _ _ _ _ _ Ef) as (_ & Hk & Hm & Hn & Hall).
  pose proof (create_submissions_spec src kept d) as Hs. cbv zeta in Hs.
  rewrite Hc in Hs. cbn [fst snd] in Hs.
  destruct Hs as (C1 & _ & _ & _ & C5 & C6 & _).
  (* the websites stored for the new rows *)
  assert (Hsubs : Forall (fun s => status s = PENDING
                     /\ exists k, In k kept /\ agent_website s = website (fst k)) subs).
  { clear -C5 Hk Hfit. induction C5 as [|s k subs kept Hsk _ IH]; [constructor|].
    apply List.Forall_cons_iff in Hk as [Hk0 Hk]. constructor.
    - rewrite Hsk. cbn [new_submission status agent_website]. split; [reflexivity|].
      exists k. split; [left; reflexivity|]. apply take_all, Hfit, Hk0.
    - eapply List.Forall_impl; [|apply IH, Hk]. cbv beta.
      intros s0 (S1 & k0 & S2 & S3). split; [exact S1|]. exists k0. split; [right; exact S2|exact S3]. }
  (* the set seeded from the new database *)
  unfold _get_existing_urls in Eu |- *. rewrite C6, C1.
  destruct (add_normalized (List.map agent_website_ (agents d)) ∅) as [u1|]; [|discriminate].
  rewrite List.filter_app, List.map_app, add_normalized_app, Eu.
  assert (Hf : List.filter (fun s => negb (status_eqb (status s) REJECTED)) subs = subs).
  { apply filter_all. eapply List.Forall_impl; [|exact Hsubs]. cbv beta.
    intros s (-> & _). reflexivity. }
  rewrite Hf.
  destruct (add_normalized_total (List.map agent_website subs)) with (urls := urls)
    as [V EV].
  { intros w Hw. apply in_map_iff in Hw as (s & <- & Hs).
    rewrite List.Forall_forall in Hsubs. destruct (Hsubs s Hs) as (_ & k & Hkin & ->).
    rewrite List.Forall_forall in Hk. destruct (Hk k Hkin) as (_ & _ & _ & n & -> & _).
    discriminate. }
  rewrite EV.
  pose proof (SourcingSpec.add_normalized_spec (List.map agent_website subs) urls) as HV.
  rewrite EV in HV.
  assert (Hall' : Forall (fun a => get_url_classification cfg (website a) = "blocked"
                             \/ exists n, normalize_url (website a) = Some n
                                          /\ (n = EmptyString \/ n ∈ V)) ds).
  { eapply List.Forall_impl; [|exact Hall]. cbv beta.
    intros a [Hb|(n & Hna & [->|Hin])]; [left; exact Hb|right; eauto|].
    right. exists n. split; [exact Hna|]. right. apply HV.
    destruct (Hn n Hin) as [Hu|(k & Hkin & Hkn)]; [left; exact Hu|].
    right.
    rewrite List.Forall_forall in Hk. destruct (Hk k Hkin) as (_ & _ & _ & n' & Hn' & Hne & _).
    assert (n' = n) by congruence. subst n'. split; [exact Hne|].
    destruct (Forall2_in_r _ _ _ k C5 Hkin) as (s & Hs & Hsk).
    exists (agent_website s). split; [apply in_map, Hs|].
    rewrite List.Forall_forall in Hsubs. destruct (Hsubs s Hs) as (_ & k0 & _ & _).
    rewrite Hsk. cbn [new_submission agent_website].
    rewrite take_all; [exact Hkn|]. apply Hfit. apply (Hk k Hkin). }
  destruct (filter_discoveries_nothing cfg ds V Hall' 0%nat 0%nat) as (b2 & dup2 & ->).
  reflexivity.
Qed.

End SourcingExtra.

(** ** More about the review service *)

Module ReviewExtra.
Import PyStr PyStrFacts Models World Review.

#[local] Arguments String.append !_ _ / : simpl nomatch.

Lemma threshold_positive (t : option Q) :
  match t with Some q => (0 <= q)%Q | None => True end ->
  (0 < confidence_threshold (__init__ t))%Q.
Proof.
  unfold __init__. destruct t as [q|]; [|intros _; reflexivity].
  intros Hq. destruct (Qeq_bool q 0) eqn:E; cbn [confidence_threshold]; [reflexivity|].
  apply Qeq_bool_neq in E. apply Qle_lteq in Hq as [Hlt|Heq]; [exact Hlt|].
  exfalso. apply E. symmetry. exact Heq.
Qed.

(** X16. The threshold of [ReviewService.__init__] is never zero: a
    configured threshold of 0 is replaced by the default 0.7 (the [or] of
    the source), any other value is kept.  Hence, with a threshold that is
    not negative, a failure of the review gateway always leaves the
    submission flagged for manual review, with its status unchanged, the
    decision [needs_review] not applied, and the error in the reasoning. *)
Theorem gateway_failure_is_flagged (env : Env) (t : option Q) (s : AgentSubmission)
    (auto_apply : bool) (st : St) (e : string) :
  (forall prompt, run_sync env prompt = Raised e) ->
  match t with Some q => (0 <= q)%Q | None => True end ->
  let self := __init__ t in
  let out := review_submission env self s auto_apply st in
  ~ (confidence_threshold self == 0)%Q
  /\ (forall q, t = Some q -> ~ (q == 0)%Q -> confidence_threshold self = q)
  /\ (forall q, t = Some q -> (q == 0)%Q -> confidence_threshold self = CONFIDENCE_THRESHOLD)
  /\ needs_manual_review (fst out) = true
  /\ status (fst out) = status s
  /\ ai_review_result (fst out)
     = Some (mkReviewResult needs_review false 0%Q
               ("Review failed due to error: " +:+ e) ["review_error"] false).
Proof.
  intros Hfail Ht. cbv zeta.
  pose proof (threshold_positive t Ht) as Hpos.
  split; [intros H0; rewrite H0 in Hpos; discriminate Hpos|].
  split.
  { intros q -> Hq. unfold __init__. destruct (Qeq_bool q 0) eqn:E; [|reflexivity].
    apply Qeq_bool_iff in E. contradiction. }
  split.
  { intros q -> Hq. unfold __init__. apply Qeq_bool_iff in Hq. rewrite Hq. reflexivity. }
  unfold review_submission, review. rewrite Hfail.
  cbn [confidence decision is_ai_agent reasoning flags fst snd set_review
       needs_manual_review status ai_review_result].
  assert (Hn : Qlt_bool 0 (confidence_threshold (__init__ t)) = true).
  { unfold Qlt_bool. apply negb_true_iff. apply not_true_iff_false.
    intros Hle. apply Qle_bool_iff in Hle. apply Qlt_not_le in Hpos. contradiction. }
  rewrite Hn. cbn [negb andb]. rewrite andb_false_r. auto.
Qed.

Lemma take_take (n : nat) (s : string) : take n (take n s) = take n s.
Proof.
  revert s. induction n as [|n IH]; intros [|c s]; cbn [take]; try reflexivity.
  rewrite IH. reflexivity.
Qed.

(** X17. The review prompt reads at most the first 4000 characters of the
    page: two markdown texts that are both longer than 4000 characters and
    agree on their first 4000 give the same prompt; and a missing markdown,
    an empty one, missing enrichment data and an empty enrichment dict add
    nothing to the prompt. *)
Theorem prompt_reads_at_most_4000 (name website : string)
    (data : option EnrichmentData) (md md' : string) :
  (4000 < String.length md)%nat -> (4000 < String.length md')%nat ->
  take 4000 md = take 4000 md' ->
  _build_review_prompt name website data (Some md)
  = _build_review_prompt name website data (Some md')
  /\ _build_review_prompt name website data (Some "")
     = _build_review_prompt name website data None
  /\ (forall d, enrichment_nonempty d = false ->
        _build_review_prompt name website (Some d) (Some md)
        = _build_review_prompt name website None (Some md)).
Proof.
  intros Hl Hl' Ht. unfold _build_review_prompt.
  assert (Hn : nonempty md = true) by (destruct md; [cbn in Hl; lia|reflexivity]).
  assert (Hn' : nonempty md' = true) by (destruct md'; [cbn in Hl'; lia|reflexivity]).
  apply Nat.ltb_lt in Hl, Hl'.
  rewrite Hn, Hn', Hl, Hl', Ht.
  split; [reflexivity|]. split; [reflexivity|].
  intros d ->. reflexivity.
Qed.

End ReviewExtra.

(** ** The approval command *)

Module ApproveExtra.
Import PyStr PyStrFacts Models World Enrichment Frames Approve.

#[local] Arguments String.append !_ _ / : simpl nomatch.












(** X19. One round of the approval loop, by the state of the submission:
    without successful enrichment nothing is written and the round counts
    as failed; with successful enrichment and an entry that collides on
    website, name or slug, no entry is created, the round counts as a
    rejected duplicate, and the row of the submission becomes REJECTED with
    the note [Auto-rejected: ] followed by the message of the error; and
    when an entry is created, the row becomes APPROVED and linked to it,
    its other columns are kept, and the entry is in the directory. *)
Theorem approve_one_outcome (env : Env) (s : AgentSubmission) (t : Tally) (st : St)
    (row : AgentSubmission) :
  get_submission (db st) (pk s) = Some row ->
  let out := approve_one env s (t, st) in
  (enrichment_succeeded s = false ->
   out = (mkTally (succeeded t) (rejected_duplicates t) (S (failed t)), st))
  /\ (enrichment_succeeded s = true ->
      (exists b, In b (agents (db st)) /\ collides env s b = true) ->
      fst out = mkTally (succeeded t) (S (rejected_duplicates t)) (failed t)
      /\ agents (db (snd out)) = agents (db st)
      /\ exists msg existing,
           fst (create_agent_from_submission env s st)
           = inl (DuplicateAgentError msg existing)
           /\ get_submission (db (snd out)) (pk s)
              = Some (update_row [f_status; f_reviewer_notes]
                        (set_rejected s ("Auto-rejected: " +:+ msg)) row))
  /\ (forall a, fst (create_agent_from_submission env s st) = inr a ->
      fst out = mkTally (S (succeeded t)) (rejected_duplicates t) (failed t)
      /\ In a (agents (db (snd out)))
      /\ get_submission (db (snd out)) (pk s)
         = Some (update_row [f_status; f_agent] (set_approved s a) row)
      /\ status (update_row [f_status; f_agent] (set_approved s a) row) = APPROVED
      /\ agent (update_row [f_status; f_agent] (set_approved s a) row)
         = Some (agent_pk a)).
Proof.
  intros Hrow. cbv zeta. unfold approve_one. split; [|split].
  - intros He. destruct (CreationExtra.creation_needs_enrichment env s st He) as [msg ->].
    reflexivity.
  - intros He Hdup.
    destruct (EnrichmentSpec.duplicate_check_raises env (db st) s Hdup)
      as (msg & existing & Hc & _).
    assert (Hcreate : create_agent_from_submission env s st
                      = (inl (DuplicateAgentError msg existing), st)).
    { unfold create_agent_from_submission. unfold enrichment_succeeded in He.
      destruct (enrichment_data s) as [data|]; [|discriminate].
      apply andb_prop in He as [He1 He2]. rewrite He1, He2. cbn [negb].
      rewrite Hc. reflexivity. }
    rewrite Hcreate. cbn [fst snd db log with_db str_of_exn].
    split; [reflexivity|]. split; [reflexivity|].
    exists msg, existing. split; [reflexivity|].
    apply EnrichmentSpec.get_submission_save_fields; [reflexivity|exact Hrow].
  - intros a Ha.
    destruct (CreationExtra.creation_returns env s st a Ha) as (_ & data & content & Hrows).
    pose proof (CreationExtra.create_agent_rows_shape env s data content (db st)) as Hshape.
    rewrite Hrows in Hshape.
    destruct Hshape as (_ & _ & _ & _ & _ & _ & _ & _ & _ & _ & Hsub & _ & Hin & _).
    destruct (create_agent_from_submission env s st) as [r st1].
    cbn [fst snd] in *. subst r. cbn [fst snd db log with_db].
    split; [reflexivity|]. split; [exact Hin|]. split.
    + apply EnrichmentSpec.get_submission_save_fields; [reflexivity|].
      unfold get_submission in *. rewrite Hsub. exact Hrow.
    + split; reflexivity.
Qed.

End ApproveExtra.

(** ** The batch review task *)

Module TasksExtra.
Import PyStr PyStrFacts Models World Review Enrichment Frames Tasks.

#[local] Arguments String.append !_ _ / : simpl nomatch.

(** The object and the state that [review_submission] returns. *)
Lemma review_submission_shape (env : Env) (self : ReviewService) (s : AgentSubmission)
    (auto_apply : bool) (st : St) :
  let out := review_submission env self s auto_apply st in
  exists r nm ns prompt,
    fst out = set_review s r nm ns
    /\ snd out = log (EvSaveSubmission (fst out) all_fields)
                     (with_db (save (fst out)) (log (EvRunSync prompt) st))
    /\ (auto_apply = false -> ns = status s).
Proof.
  cbv zeta. unfold review_submission, review.
  destruct (run_sync env _) as [e|o]; cbn [fst snd];
    eexists _, _, _, _; (split; [reflexivity|]); (split; [reflexivity|]);
    intros ->; reflexivity.
Qed.

Lemma find_replaced (s : AgentSubmission) (l : list AgentSubmission) (j : Z) :
  List.find (fun row => Z.eqb (pk row) j)
            (List.map (fun row => if Z.eqb (pk row) (pk s) then s else row) l)
  = if Z.eqb j (pk s)
    then option_map (fun _ => s) (List.find (fun row => Z.eqb (pk row) (pk s)) l)
    else List.find (fun row => Z.eqb (pk row) j) l.
Proof.
  induction l as [|row l IH]; [destruct (Z.eqb j (pk s)); reflexivity|].
  cbn [List.map List.find].
  destruct (Z.eqb (pk row) (pk s)) eqn:E1.
  - destruct (Z.eqb j (pk s)) eqn:E2.
    + apply Z.eqb_eq in E2. subst j. rewrite Z.eqb_refl. reflexivity.
    + rewrite (Z.eqb_sym (pk s) j), E2.
      apply Z.eqb_eq in E1. rewrite E1, (Z.eqb_sym (pk s) j), E2. exact IH.
  - destruct (Z.eqb j (pk s)) eqn:E2.
    + apply Z.eqb_eq in E2. subst j. rewrite E1. exact IH.
    + destruct (Z.eqb (pk row) j); [reflexivity|exact IH].
Qed.

(** Saving an object whose row exists replaces that row and no other. *)
Lemma get_submission_save_existing (s row : AgentSubmission) (d : Db) (j : Z) :
  get_submission d (pk s) = Some row ->
  get_submission (save s d) j
  = if Z.eqb j (pk s) then Some s else get_submission d j.
Proof.
  unfold get_submission, save. intros Hex.
  assert (He : existsb (fun row => Z.eqb (pk row) (pk s)) (submissions d) = true).
  { apply existsb_exists. exists row. apply find_some in Hex. exact Hex. }
  rewrite He. cbn [submissions set_submissions].
  rewrite find_replaced, Hex. reflexivity.
Qed.

Lemma gateway_calls_app (l1 l2 : list Event) :
  gateway_calls (l1 ++ l2) = (gateway_calls l1 + gateway_calls l2)%nat.
Proof. unfold gateway_calls. rewrite List.filter_app, List.length_app. reflexivity. Qed.

(** One round of the loop. *)
Lemma review_one_step (env : Env) (auto_apply : bool) (k : Z) (r : Results) (st : St) :
  let out := review_one env auto_apply k (r, st) in
  n_errors (fst out) = (n_errors r + Nat.b2n (missing (db st) k))%nat
  /\ reviewed (fst out) = (reviewed r + Nat.b2n (to_review (db st) k))%nat
  /\ gateway_calls (trace (snd out))
     = (gateway_calls (trace st) + Nat.b2n (to_review (db st) k))%nat
  /\ same_but_submissions (db st) (db (snd out))
  /\ (forall j, option_map unreviewed_columns (get_submission (db (snd out)) j)
                = option_map unreviewed_columns (get_submission (db st) j))
  /\ (auto_apply = false ->
      forall j, option_map status (get_submission (db (snd out)) j)
                = option_map status (get_submission (db st) j)).
Proof.
  cbv zeta. unfold review_one, missing, to_review.
  destruct (get_submission (db st) k) as [s|] eqn:Eg.
  2:{ unfold reviewed. cbn [fst snd n_errors n_approved n_rejected n_needs_review Nat.b2n].
      repeat split; auto; lia. }
  destruct (has_enrichment_data s) eqn:Eh; cbn [negb].
  2:{ cbn [fst snd Nat.b2n]. repeat split; auto; lia. }
  pose proof (review_submission_shape env (__init__ None) s auto_apply st) as Hs.
  cbv zeta in Hs.
  destruct (review_submission env (__init__ None) s auto_apply st) as [s' st'].
  cbn [fst snd] in Hs. destruct Hs as (rr & nm & ns & prompt & -> & -> & Hns).
  assert (Hk : pk s = k).
  { unfold get_submission in Eg. apply find_some in Eg as [_ Hk]. apply Z.eqb_eq, Hk. }
  assert (Hsave : forall j,
            get_submission (save (set_review s rr nm ns) (db st)) j
            = if Z.eqb j k then Some (set_review s rr nm ns)
              else get_submission (db st) j).
  { intros j. rewrite (get_submission_save_existing _ s); cbn [pk set_review];
      rewrite Hk; [reflexivity|exact Eg]. }
  assert (Hframe : same_but_submissions (db st) (save (set_review s rr nm ns) (db st))).
  { unfold save. destruct (existsb _ _); repeat split. }
  assert (Hcols : forall j,
            option_map unreviewed_columns
              (get_submission (save (set_review s rr nm ns) (db st)) j)
            = option_map unreviewed_columns (get_submission (db st) j)).
  { intros j. rewrite Hsave. destruct (Z.eqb j k) eqn:Ej; [|reflexivity].
    apply Z.eqb_eq in Ej. subst j. rewrite Eg. reflexivity. }
  assert (Hstatus : auto_apply = false -> forall j,
            option_map status (get_submission (save (set_review s rr nm ns) (db st)) j)
            = option_map status (get_submission (db st) j)).
  { intros Ha j. rewrite Hsave. destruct (Z.eqb j k) eqn:Ej; [|reflexivity].
    apply Z.eqb_eq in Ej. subst j. rewrite Eg. cbn [option_map set_review status].
    rewrite (Hns Ha). reflexivity. }
  assert (Hcalls : gateway_calls
                     (trace (log (EvSaveSubmission (set_review s rr nm ns) all_fields)
                               (with_db (save (set_review s rr nm ns))
                                        (log (EvRunSync prompt) st))))
                   = (gateway_calls (trace st) + 1)%nat).
  { cbn [trace log with_db]. rewrite !gateway_calls_app. cbn. lia. }
  cbn [set_review ai_review_result option_map].
  destruct (decision rr); unfold reviewed;
    cbn [fst snd n_errors n_approved n_rejected n_needs_review Nat.b2n];
    (split; [lia|]); (split; [lia|]); (split; [exact Hcalls|]);
    cbn [db log with_db]; auto.
Qed.

Lemma to_review_unchanged (d d' : Db) :
  (forall j, option_map unreviewed_columns (get_submission d' j)
             = option_map unreviewed_columns (get_submission d j)) ->
  forall j, to_review d' j = to_review d j /\ missing d' j = missing d j.
Proof.
  intros H j. specialize (H j). unfold to_review, missing, has_enrichment_data.
  destruct (get_submission d' j) as [s'|], (get_submission d j) as [s|];
    cbn [option_map] in H; try discriminate; [|auto].
  unfold unreviewed_columns in H. injection H as _ _ _ -> _. auto.
Qed.

(** X20. The batch review task: the number of errors is the number of
    given ids without a submission, the number of reviews (approved +
    rejected + needs_review) is the number of ids whose submission has
    enrichment data, and the review gateway is called once per review: never
    for a submission without enrichment data.  The task creates no
    directory entry and changes no table but the submissions, where it
    leaves key, name, website, enrichment data and linked entry of every
    row alone; without [auto_apply] it leaves every status as it was. *)
Theorem batch_review_bookkeeping (env : Env) (ids : list Z) (auto_apply : bool) (st : St) :
  let out := review_submissions_batch_task env ids auto_apply st in
  n_errors (fst out) = List.length (List.filter (missing (db st)) ids)
  /\ reviewed (fst out) = List.length (List.filter (to_review (db st)) ids)
  /\ gateway_calls (trace (snd out)) = (gateway_calls (trace st) + reviewed (fst out))%nat
  /\ (reviewed (fst out) + n_errors (fst out) <= List.length ids)%nat
  /\ same_but_submissions (db st) (db (snd out))
  /\ (forall j, option_map unreviewed_columns (get_submission (db (snd out)) j)
                = option_map unreviewed_columns (get_submission (db st) j))
  /\ (auto_apply = false ->
      forall j, option_map status (get_submission (db (snd out)) j)
                = option_map status (get_submission (db st) j)).
Proof.
  cbv zeta. unfold review_submissions_batch_task.
  assert (Hgen : forall r st0,
    let out := review_all env auto_apply ids (r, st0) in
    n_errors (fst out) = (n_errors r + List.length (List.filter (missing (db st0)) ids))%nat
    /\ reviewed (fst out)
       = (reviewed r + List.length (List.filter (to_review (db st0)) ids))%nat
    /\ gateway_calls (trace (snd out))
       = (gateway_calls (trace st0)
          + List.length (List.filter (to_review (db st0)) ids))%nat
    /\ same_but_submissions (db st0) (db (snd out))
    /\ (forall j, option_map unreviewed_columns (get_submission (db (snd out)) j)
                  = option_map unreviewed_columns (get_submission (db st0) j))
    /\ (auto_apply = false ->
        forall j, option_map status (get_submission (db (snd out)) j)
                  = option_map status (get_submission (db st0) j))).
  { induction ids as [|k ids IH]; intros r st0; cbv zeta.
    - cbn [review_all fst snd List.filter List.length].
      repeat split; auto; lia.
    - cbn [review_all].
      pose proof (review_one_step env auto_apply k r st0) as H1. cbv zeta in H1.
      destruct (review_one env auto_apply k (r, st0)) as [r1 st1]. cbn [fst snd] in H1.
      destruct H1 as (A1 & A2 & A3 & A4 & A5 & A6).
      specialize (IH r1 st1). cbv zeta in IH.
      destruct IH as (B1 & B2 & B3 & B4 & B5 & B6).
      pose proof (to_review_unchanged _ _ A5) as Hsame.
      assert (Hf1 : List.filter (missing (db st1)) ids = List.filter (missing (db st0)) ids).
      { apply List.filter_ext. intros j. apply Hsame. }
      assert (Hf2 : List.filter (to_review (db st1)) ids
                    = List.filter (to_review (db st0)) ids).
      { apply List.filter_ext. intros j. apply Hsame. }
      rewrite Hf1 in B1. rewrite Hf2 in B2, B3.
      cbn [List.filter].
      split.
      { rewrite B1, A1. destruct (missing (db st0) k); cbn [Nat.b2n List.length]; lia. }
      split.
      { rewrite B2, A2. destruct (to_review (db st0) k); cbn [Nat.b2n List.length]; lia. }
      split.
      { rewrite B3, A3. destruct (to_review (db st0) k); cbn [Nat.b2n List.length]; lia. }
      split; [eapply EnrichmentExtra.same_but_submissions_trans; eassumption|].
      split; [intros j; rewrite B5; apply A5|].
      intros Ha j. rewrite (B6 Ha). apply (A6 Ha). }
  specialize (Hgen (mkResults 0 0 0 0) st). cbv zeta in Hgen.
  destruct Hgen as (G1 & G2 & G3 & G4 & G5 & G6).
  cbn [n_errors reviewed n_approved n_rejected n_needs_review] in G1, G2.
  split; [exact G1|]. split; [exact G2|]. split; [rewrite G3, G2; reflexivity|].
  split.
  { rewrite G1, G2. clear. induction ids as [|k ids IH]; [cbn; lia|].
    cbn [List.filter List.length]. unfold to_review, missing in *.
    destruct (get_submission (db st) k) as [s|];
      [destruct (has_enrichment_data s)|]; cbn [List.length]; lia. }
  auto.
Qed.

(** X21. The guard [only review if enriched] of the batch task does not
    hold back a submission that sourcing has created and that was never
    enriched: its enrichment data hold the sourcing metadata and are
    therefore not empty, so the gateway is called for it and a verdict is
    stored; the later creation of an entry from it is still refused, with
    [EnrichmentError]. *)
Theorem sourced_submission_is_reviewed_unenriched (env : Env) (k : Z) (src : string)
    (a : Base.DiscoveredAgent) (classification : string) (auto_apply : bool) (st : St) :
  get_submission (db st) k
  = Some (Sourcing.new_submission k src a classification) ->
  let out := review_submissions_batch_task env [k] auto_apply st in
  reviewed (fst out) = 1%nat
  /\ gateway_calls (trace (snd out)) = S (gateway_calls (trace st))
  /\ exists s',
       get_submission (db (snd out)) k = Some s'
       /\ ai_review_result s' <> None
       /\ enrichment_succeeded s' = false
       /\ forall st2, exists msg,
            create_agent_from_submission env s' st2 = (inl (EnrichmentError msg), st2).
Proof.
  intros Hg. cbv zeta. unfold review_submissions_batch_task.
  cbn [review_all]. unfold review_one. rewrite Hg.
  cbn [has_enrichment_data Sourcing.new_submission enrichment_data enrichment_nonempty
       ed_result _url_extraction _sourcing_metadata negb].
  fold (Sourcing.new_submission k src a classification).
  pose proof (review_submission_shape env (__init__ None)
                (Sourcing.new_submission k src a classification) auto_apply st) as Hs.
  cbv zeta in Hs.
  destruct (review_submission env (__init__ None)
              (Sourcing.new_submission k src a classification) auto_apply st) as [s' st'].
  cbn [fst snd] in Hs. destruct Hs as (rr & nm & ns & prompt & -> & -> & _).
  set (s1 := set_review (Sourcing.new_submission k src a classification) rr nm ns).
  assert (Hfind : get_submission (save s1 (db st)) k = Some s1).
  { rewrite (get_submission_save_existing s1
               (Sourcing.new_submission k src a classification) (db st) k);
      [|exact Hg]. unfold s1.
    cbn [pk set_review Sourcing.new_submission]. rewrite Z.eqb_refl. reflexivity. }
  assert (He : enrichment_succeeded s1 = false) by reflexivity.
  assert (Hrev : ai_review_result s1 <> None) by discriminate.
  assert (Hcalls : gateway_calls
                     (trace (log (EvSaveSubmission s1 all_fields)
                               (with_db (save s1) (log (EvRunSync prompt) st))))
                   = S (gateway_calls (trace st))).
  { cbn [trace log with_db]. rewrite !gateway_calls_app. cbn. lia. }
  assert (Hd : option_map decision (ai_review_result s1) = Some (decision rr))
    by reflexivity.
  rewrite Hd.
  destruct (decision rr); unfold reviewed;
    cbn [fst snd n_errors n_approved n_rejected n_needs_review];
    (split; [reflexivity|]); (split; [exact Hcalls|]);
    exists s1; cbn [db log with_db];
    (split; [exact Hfind|]); (split; [exact Hrev|]); (split; [exact He|]);
    intros st2; apply CreationExtra.creation_needs_enrichment, He.
Qed.

End TasksExtra.

(** ** The registry of sources *)

Module RegistryExtra.
Import PyStr PyStrFacts Models World Sourcing Registry.

#[local] Arguments String.append !_ _ / : simpl nomatch.

Lemma existsb_eqb_in (x : string) (l : list string) :
  existsb (String.eqb x) l = true <-> In x l.
Proof.
  rewrite existsb_exists. split.
  - intros (y & Hy & E). apply String.eqb_eq in E. subst y. exact Hy.
  - intros Hx. exists x. split; [exact Hx|apply String.eqb_refl].
Qed.

(** X22. [add_source] registers a source unless its id is already
    registered: afterwards the id is registered, the sources registered
    before are kept in place, distinct ids stay distinct, and adding the
    same source again changes nothing. *)
Theorem add_source_keeps_ids_distinct (self : SourcingService) (source : Source) :
  let self' := add_source self source in
  In (src_id source) (get_source_ids self')
  /\ (exists tail, sources self' = sources self ++ tail)
  /\ (In (src_id source) (get_source_ids self) -> self' = self)
  /\ (~ In (src_id source) (get_source_ids self) ->
      sources self' = sources self ++ [source])
  /\ (NoDup (get_source_ids self) -> NoDup (get_source_ids self'))
  /\ add_source self' source = self'.
Proof.
  cbv zeta. unfold add_source.
  destruct (existsb (String.eqb (src_id source)) (get_source_ids self)) eqn:E.
  - pose proof (proj1 (existsb_eqb_in _ _) E) as Hin.
    split; [exact Hin|]. split; [exists []; rewrite app_nil_r; reflexivity|].
    split; [reflexivity|]. split; [contradiction|]. split; [auto|].
    rewrite E. reflexivity.
  - assert (Hnin : ~ In (src_id source) (get_source_ids self)).
    { intros Hin. apply existsb_eqb_in in Hin. congruence. }
    assert (Hids : get_source_ids (mkSourcingService (sources self ++ [source]))
                   = get_source_ids self ++ [src_id source]).
    { unfold get_source_ids. cbn [sources]. rewrite List.map_app. reflexivity. }
    split; [rewrite Hids; apply in_or_app; right; left; reflexivity|].
    split; [exists [source]; reflexivity|]. split; [contradiction|].
    split; [reflexivity|]. split.
    + intros Hnd. rewrite Hids. apply NoDup_app. split; [exact Hnd|]. split.
      * intros x Hx Hx'. apply list_elem_of_In in Hx.
        apply list_elem_of_singleton in Hx'. subst x. contradiction.
      * apply NoDup_singleton.
    + assert (Hex : existsb (String.eqb (src_id source))
                      (get_source_ids (mkSourcingService (sources self ++ [source])))
                    = true).
      { apply existsb_eqb_in. rewrite Hids. apply in_or_app. right. left. reflexivity. }
      rewrite Hex. reflexivity.
Qed.

Lemma run_record `{UrlLib} (cfg : Settings) (env : Env) (source : Source) (limit : nat)
    (auto_enrich : bool) (st : St) :
  run_source_id (fst (run cfg env source limit auto_enrich st)) = src_id source
  /\ run_completed (fst (run cfg env source limit auto_enrich st)) = true.
Proof.
  unfold run. destruct (discover source limit) as [e|ds]; [split; reflexivity|].
  destruct (_process_discoveries cfg ds (src_id source) _) as [e|[l d]];
    [split; reflexivity|].
  destruct (auto_enrich && negb (bool_decide (l = []))); [|split; reflexivity].
  destruct (_enrich_submissions cfg env l _); split; reflexivity.
Qed.

(** X23. [run_all] runs the available sources in the order of their
    registration, one completed run each, and skips the others;
    [run_source] raises [ValueError] for an id that is not registered,
    without touching the state, and otherwise runs the first source
    registered under the id. *)
Theorem run_all_runs_available_sources `{UrlLib} (cfg : Settings) (env : Env)
    (self : SourcingService) (limit : nat) (auto_enrich : bool) (st : St) :
  List.map run_source_id (fst (run_all cfg env self limit auto_enrich st))
  = List.map src_id (List.filter is_available (sources self))
  /\ Forall (fun r => run_completed r = true)
            (fst (run_all cfg env self limit auto_enrich st))
  /\ (forall source_id,
        ~ In source_id (get_source_ids self) ->
        run_source cfg env self source_id limit auto_enrich st
        = (inl (ValueError ("Unknown source: " +:+ source_id)), st))
  /\ (forall source_id,
        In source_id (get_source_ids self) ->
        exists source,
          List.find (fun s => String.eqb (src_id s) source_id) (sources self) = Some source
          /\ src_id source = source_id
          /\ run_source cfg env self source_id limit auto_enrich st
             = (inr (fst (run cfg env source limit auto_enrich st)),
                snd (run cfg env source limit auto_enrich st))).
Proof.
  unfold run_all, run_source, get_source_ids.
  assert (Hall : forall l st0,
            List.map run_source_id (fst (run_each cfg env l limit auto_enrich st0))
            = List.map src_id (List.filter is_available l)
            /\ Forall (fun r => run_completed r = true)
                      (fst (run_each cfg env l limit auto_enrich st0))).
  { induction l as [|s l IH]; intros st0; [split; [reflexivity|constructor]|].
    cbn [run_each List.filter]. destruct (is_available s); cbn [negb]; [|apply IH].
    pose proof (run_record cfg env s limit auto_enrich st0) as [R1 R2].
    destruct (run cfg env s limit auto_enrich st0) as [r st1]. cbn [fst] in R1, R2.
    specialize (IH st1). destruct (run_each cfg env l limit auto_enrich st1) as [runs st2].
    cbn [fst List.map] in *. destruct IH as [I1 I2].
    split; [rewrite R1, I1; reflexivity|constructor; assumption]. }
  split; [apply Hall|]. split; [apply Hall|]. split.
  - intros source_id Hnin.
    destruct (List.find _ (sources self)) as [s|] eqn:E; [|reflexivity].
    exfalso. apply Hnin. apply find_some in E as [Hin Hid].
    apply String.eqb_eq in Hid. subst source_id. apply in_map, Hin.
  - intros source_id Hin. apply in_map_iff in Hin as (s0 & Hid & Hin).
    destruct (List.find (fun s => String.eqb (src_id s) source_id) (sources self))
      as [s|] eqn:E.
    + exists s. split; [reflexivity|]. apply find_some in E as [_ Es].
      apply String.eqb_eq in Es. split; [exact Es|].
      destruct (run cfg env s limit auto_enrich st); reflexivity.
    + exfalso. pose proof (find_none _ _ E s0 Hin) as Hn. cbv beta in Hn.
      rewrite Hid, String.eqb_refl in Hn. discriminate.
Qed.

End RegistryExtra.

(** ** The enrichment of existing entries *)

Module FlowBExtra.
Import PyStr PyStrFacts UrlParse Models World Enrichment FlowB.

#[local] Arguments String.append !_ _ / : simpl nomatch.

Lemma keep_nonempty_spec (v : Field string) (s : string) :
  keep_nonempty v = Some s <-> v = Present s /\ s <> EmptyString.
Proof.
  unfold keep_nonempty. destruct v as [| |x]; split; try discriminate.
  - intros [[=] _].
  - intros [[=] _].
  - destruct x as [|c t]; cbn [nonempty]; [discriminate|].
    intros [= <-]. split; [reflexivity|discriminate].
  - intros [[= ->] Hn]. destruct s; [congruence|reflexivity].
Qed.

Lemma simple_value_some {A} (fields : gset string) (name : string) (t : option A) (v : A) :
  simple_value fields name t = Some v <-> name ∈ fields /\ t = Some v.
Proof.
  unfold simple_value. destruct (decide (name ∈ fields)) as [Hin|Hn].
  - rewrite (bool_decide_eq_true_2 _ Hin). tauto.
  - rewrite (bool_decide_eq_false_2 _ Hn). split; [discriminate|tauto].
Qed.

Lemma applied_name_in {A} (name x : string) (v : option A) :
  In x (applied_name name v) <-> x = name /\ v <> None.
Proof.
  destruct v; cbn; split.
  - intros [<-|[]]. split; [reflexivity|discriminate].
  - intros [-> _]. left. reflexivity.
  - intros [].
  - intros [_ H]. congruence.
Qed.

Lemma keeps_others_refl (k : Z) (d : Db) : keeps_others k d d.
Proof. repeat split. Qed.

Lemma keeps_others_trans (k : Z) (d1 d2 d3 : Db) :
  keeps_others k d1 d2 -> keeps_others k d2 d3 -> keeps_others k d1 d3.
Proof.
  unfold keeps_others. intros (A1 & A2 & A3) (B1 & B2 & B3). repeat split; congruence.
Qed.

Lemma filter_others_replace (k : Z) (a : Agent) (l : list Agent) :
  agent_pk a = k ->
  List.filter (fun b => negb (Z.eqb (agent_pk b) k))
              (List.map (fun b => if Z.eqb (agent_pk b) k then a else b) l)
  = List.filter (fun b => negb (Z.eqb (agent_pk b) k)) l.
Proof.
  intros Ha. induction l as [|b l IH]; [reflexivity|]. cbn [List.map List.filter].
  destruct (Z.eqb (agent_pk b) k) eqn:E.
  - rewrite Ha, Z.eqb_refl. cbn [negb]. exact IH.
  - rewrite E. cbn [negb]. rewrite IH. reflexivity.
Qed.

Lemma filter_others_insert (k : Z) (a : Agent) (l : list Agent) :
  agent_pk a = k ->
  List.filter (fun b => negb (Z.eqb (agent_pk b) k)) (insert_agent a l)
  = List.filter (fun b => negb (Z.eqb (agent_pk b) k)) l.
Proof.
  intros Ha. induction l as [|b l IH]; cbn [insert_agent List.filter].
  - rewrite Ha, Z.eqb_refl. reflexivity.
  - destruct (agent_before a b); cbn [List.filter].
    + rewrite Ha, Z.eqb_refl. reflexivity.
    + rewrite IH. reflexivity.
Qed.

(** [Agent.save] writes the row of the object and no other, and changes
    nothing of the object but an empty slug. *)
Lemma Agent_save_shape (env : Env) (d : Db) (agent : Agent) :
  let out := Agent_save env d agent in
  identity_columns (snd out) = identity_columns agent
  /\ simple_columns (snd out) = simple_columns agent
  /\ agent_logo (snd out) = agent_logo agent
  /\ (nonempty (agent_slug agent) = true -> snd out = agent)
  /\ match fst out with
     | inl _ => True
     | inr d' => keeps_others (agent_pk agent) d d'
     end.
Proof.
  cbv zeta. unfold Agent_save.
  set (a1 := if nonempty (agent_slug agent) then agent else set_slug agent _).
  assert (H1 : identity_columns a1 = identity_columns agent
               /\ simple_columns a1 = simple_columns agent
               /\ agent_logo a1 = agent_logo agent
               /\ (nonempty (agent_slug agent) = true -> a1 = agent)
               /\ agent_pk a1 = agent_pk agent).
  { unfold a1. destruct (nonempty (agent_slug agent)); repeat split; discriminate. }
  destruct H1 as (I1 & I2 & I3 & I4 & I5).
  destruct (existsb _ (agents d)); cbn [fst snd]; [auto 10|].
  destruct (existsb _ (agents d)); cbn [fst snd].
  - split; [exact I1|]. split; [exact I2|]. split; [exact I3|]. split; [exact I4|].
    unfold keeps_others. cbn [submissions sourcing_runs agents set_agents].
    split; [reflexivity|]. split; [reflexivity|].
    rewrite I5. apply filter_others_replace. exact I5.
  - split; [exact I1|]. split; [exact I2|]. split; [exact I3|]. split; [exact I4|].
    unfold keeps_others. cbn [submissions sourcing_runs agents set_agents].
    split; [reflexivity|]. split; [reflexivity|].
    apply filter_others_insert. exact I5.
Qed.

Lemma grows_refl (fields : gset string) (names applied : list string) :
  grows fields names applied applied.
Proof.
  exists []. rewrite app_nil_r. split; [reflexivity|].
  split; [apply sublist_nil_l|constructor].
Qed.

Lemma grows_trans (fields : gset string) (n1 n2 l1 l2 l3 : list string) :
  grows fields n1 l1 l2 -> grows fields n2 l2 l3 -> grows fields (n1 ++ n2) l1 l3.
Proof.
  intros (a & -> & Sa & Ha) (b & -> & Sb & Hb). exists (a ++ b).
  rewrite List.app_assoc. split; [reflexivity|].
  split; [apply sublist_app; assumption|]. apply List.Forall_app. auto.
Qed.

Lemma decide_in (fields : gset string) (name : string) :
  bool_decide (name ∈ fields) = true -> name ∈ fields.
Proof.
  intros Hf. destruct (decide (name ∈ fields)) as [Hin|Hout]; [exact Hin|].
  rewrite (bool_decide_eq_false_2 _ Hout) in Hf. discriminate.
Qed.

Lemma grows_one (fields : gset string) (applied : list string) (name : string) :
  bool_decide (name ∈ fields) = true ->
  grows fields [name] applied (applied ++ [name]).
Proof.
  intros Hf. exists [name]. split; [reflexivity|]. split; [reflexivity|].
  constructor; [|constructor]. apply decide_in, Hf.
Qed.

Lemma apply_features_shape (content : ContentData) (fields : gset string) (agent : Agent)
    (applied : list string) (d : Db) :
  let out := apply_features content fields agent (applied, d) in
  grows fields ["features"] applied (fst out)
  /\ keeps_others (agent_pk agent) d (snd out).
Proof.
  cbv zeta. unfold apply_features.
  destruct (bool_decide ("features" ∈ fields)) eqn:E;
    [|cbn [fst snd]; auto using grows_refl, keeps_others_refl].
  destruct (truthy_names (features content));
    cbn [fst snd]; [|auto using grows_refl, keeps_others_refl].
  split; [apply grows_one; exact E|]. repeat split.
Qed.

Lemma apply_use_cases_shape (content : ContentData) (fields : gset string) (agent : Agent)
    (applied : list string) (d : Db) :
  let out := apply_use_cases content fields agent (applied, d) in
  grows fields ["use_cases"] applied (fst out)
  /\ keeps_others (agent_pk agent) d (snd out).
Proof.
  cbv zeta. unfold apply_use_cases.
  destruct (bool_decide ("use_cases" ∈ fields)) eqn:E;
    [|cbn [fst snd]; auto using grows_refl, keeps_others_refl].
  destruct (truthy_names (use_cases content));
    cbn [fst snd]; [|auto using grows_refl, keeps_others_refl].
  split; [apply grows_one; exact E|]. repeat split.
Qed.

Lemma apply_category_shape (env : Env) (content : ContentData) (fields : gset string)
    (agent : Agent) (applied : list string) (d : Db) :
  match apply_category env content fields agent (applied, d) with
  | inl _ => True
  | inr out =>
      grows fields ["category"] applied (fst out)
      /\ keeps_others (agent_pk agent) d (snd out)
  end.
Proof.
  unfold apply_category.
  destruct (bool_decide ("category" ∈ fields)) eqn:E;
    [|cbn [fst snd]; auto using grows_refl, keeps_others_refl].
  destruct (keep_nonempty (category content)) as [cn|];
    cbn [fst snd]; [|auto using grows_refl, keeps_others_refl].
  unfold Category_get_or_create.
  destruct (List.find _ (categories d)) as [c|].
  - cbn [fst snd]. split; [apply grows_one; exact E|]. repeat split.
  - destruct (existsb _ (categories d)); [exact I|]. cbn [fst snd].
    split; [apply grows_one; exact E|]. repeat split.
Qed.

Lemma apply_logo_shape (env : Env) (result : EnrichmentResult) (fields : gset string)
    (agent : Agent) (applied : list string) (d : Db) :
  let out := apply_logo env result fields agent (applied, d) in
  identity_columns (snd (fst out)) = identity_columns agent
  /\ simple_columns (snd (fst out)) = simple_columns agent
  /\ agent_slug (snd (fst out)) = agent_slug agent
  /\ keeps_others (agent_pk agent) d (snd out)
  /\ grows fields ["logo"] applied (fst (fst out))
  /\ (agent_logo (snd (fst out)) <> agent_logo agent
      -> fst (fst out) = applied ++ ["logo"]).
Proof.
  cbv zeta. unfold apply_logo.
  destruct (bool_decide ("logo" ∈ fields)) eqn:E;
    [|cbn [fst snd]; repeat (split; [auto using keeps_others_refl, grows_refl|]);
      intros Hn; congruence].
  destruct (some_nonempty (logo_url result)) as [u|];
    [|cbn [fst snd]; repeat (split; [auto using keeps_others_refl, grows_refl|]);
      intros Hn; congruence].
  destruct (_download_logo env agent u) as [f|];
    [|cbn [fst snd]; repeat (split; [auto using keeps_others_refl, grows_refl|]);
      intros Hn; congruence].
  unfold store_logo. cbn [fst snd].
  split; [reflexivity|]. split; [reflexivity|]. split; [reflexivity|].
  split; [|split; [apply grows_one; exact E|reflexivity]].
  unfold keeps_others. cbn [submissions sourcing_runs agents set_agents].
  split; [reflexivity|]. split; [reflexivity|].
  apply filter_others_replace. reflexivity.
Qed.

Lemma apply_screenshot_shape (env : Env) (result : EnrichmentResult)
    (fields : gset string) (agent : Agent) (applied : list string) (d : Db) :
  let out := apply_screenshot env result fields agent (applied, d) in
  grows fields ["screenshot"] applied (fst out)
  /\ keeps_others (agent_pk agent) d (snd out).
Proof.
  cbv zeta. unfold apply_screenshot.
  destruct (bool_decide ("screenshot" ∈ fields)) eqn:E;
    [|cbn [fst snd]; auto using grows_refl, keeps_others_refl].
  destruct (some_nonempty (screenshot_url result)) as [u|];
    [|cbn [fst snd]; auto using grows_refl, keeps_others_refl].
  destruct (_download_screenshot env agent u) as [f|];
    cbn [fst snd]; [|auto using grows_refl, keeps_others_refl].
  split; [apply grows_one; exact E|]. repeat split.
Qed.

Lemma applied_name_sublist {A} (name : string) (v : option A) :
  sublist (applied_name name v) [name].
Proof. destruct v; cbn [applied_name]; [reflexivity|apply sublist_nil_l]. Qed.

Lemma applied_name_asked {A} (fields : gset string) (name : string) (t : option A) :
  Forall (fun x => x ∈ fields) (applied_name name (simple_value fields name t)).
Proof.
  unfold simple_value. destruct (bool_decide (name ∈ fields)) eqn:E;
    [|constructor].
  destruct t; cbn [applied_name]; constructor; [apply decide_in, E|constructor].
Qed.

Lemma changed_same {A} `{EqDecision A} (name : string) (x : A) : changed name x x = [].
Proof. unfold changed. rewrite bool_decide_eq_true_2; reflexivity. Qed.

Lemma changed_or_old {A} `{EqDecision A} (name : string) (new : option A) (old : A) :
  incl (changed name old (or_old new old)) (applied_name name new).
Proof.
  destruct new as [v|]; cbn [or_old applied_name].
  - unfold changed. destruct (bool_decide (old = v)); [apply incl_nil_l|apply incl_refl].
  - rewrite changed_same. apply incl_refl.
Qed.

Lemma changed_or_old_opt {A} `{EqDecision A} (name : string) (new old : option A) :
  incl (changed name old (or_old_opt new old)) (applied_name name new).
Proof.
  destruct new as [v|]; cbn [or_old_opt applied_name].
  - unfold changed. destruct (bool_decide (old = Some v));
      [apply incl_nil_l|apply incl_refl].
  - rewrite changed_same. apply incl_refl.
Qed.

(** The loop over [simple_fields]: the names it lists are in the order of
    the dict and were asked for, and it lists every column it changes. *)
Lemma apply_simple_fields_shape (agent : Agent) (content : ContentData)
    (fields : gset string) :
  let out := apply_simple_fields agent content fields in
  identity_columns (fst out) = identity_columns agent
  /\ agent_slug (fst out) = agent_slug agent
  /\ agent_logo (fst out) = agent_logo agent
  /\ sublist (snd out) simple_names
  /\ Forall (fun x => x ∈ fields) (snd out)
  /\ incl (changed_columns agent (fst out)) (snd out).
Proof.
  cbv zeta. unfold apply_simple_fields. cbn [fst snd].
  split; [reflexivity|]. split; [reflexivity|]. split; [reflexivity|].
  split.
  { change simple_names with
      (["short_description"] ++ ["description"] ++ ["pricing_model"] ++ ["industry"]
       ++ ["is_open_source"] ++ ["twitter_url"] ++ ["linkedin_url"]
       ++ ["demo_video_url"]).
    repeat (apply sublist_app; [apply applied_name_sublist|]).
    apply applied_name_sublist. }
  split.
  { repeat (apply List.Forall_app; split; [apply applied_name_asked|]).
    apply applied_name_asked. }
  unfold changed_columns.
  cbn [agent_short_description agent_description_ agent_pricing_model agent_industry
       agent_is_open_source agent_twitter_url agent_linkedin_url agent_demo_video_url
       agent_logo].
  rewrite changed_same, app_nil_r.
  repeat (apply incl_app_app; [first [apply changed_or_old|apply changed_or_old_opt]|]).
  apply changed_or_old_opt.
Qed.

Lemma changed_columns_split (a a1 a' : Agent) :
  simple_columns a' = simple_columns a1 ->
  agent_logo a1 = agent_logo a ->
  forall x, In x (changed_columns a a') ->
            In x (changed_columns a a1) \/ In x (changed "logo" (agent_logo a) (agent_logo a')).
Proof.
  unfold simple_columns. intros [= E1 E2 E3 E4 E5 E6 E7 E8] El x.
  unfold changed_columns. rewrite E1, E2, E3, E4, E5, E6, E7, E8, El.
  rewrite (changed_same "logo" (agent_logo a)).
  rewrite !in_app_iff. cbn [In]. tauto.
Qed.

(** What [_apply_fields_to_agent] does to the object and the tables. *)
Lemma apply_fields_shape (env : Env) (agent : Agent) (result : EnrichmentResult)
    (fields : gset string) (d : Db) :
  let content := match content_data result with Some c => c | None => empty_content end in
  let simple := apply_simple_fields agent content fields in
  let out := _apply_fields_to_agent env agent result fields d in
  identity_columns (snd (fst out)) = identity_columns agent
  /\ simple_columns (snd (fst out)) = simple_columns (fst simple)
  /\ (nonempty (agent_slug agent) = true -> agent_slug (snd (fst out)) = agent_slug agent)
  /\ keeps_others (agent_pk agent) d (snd out)
  /\ match fst (fst out) with
     | inl _ => True
     | inr applied =>
         grows fields later_names (snd simple) applied
         /\ (agent_logo (snd (fst out)) <> agent_logo agent -> In "logo" applied)
     end.
Proof.
  cbv zeta. unfold _apply_fields_to_agent.
  set (content := match content_data result with Some c => c | None => empty_content end).
  destruct (apply_simple_fields_shape agent content fields) as (S1 & S2 & S3 & _).
  destruct (apply_simple_fields agent content fields) as [a1 applied1].
  cbn [fst snd] in *.
  pose proof (Agent_save_shape env d a1) as Hsave. cbv zeta in Hsave.
  destruct (Agent_save env d a1) as [[e|d1] a2]; cbn [fst snd] in *.
  { destruct Hsave as (V1 & V2 & V3 & V4 & _).
    split; [congruence|]. split; [exact V2|].
    split; [intros Hs; rewrite V4; congruence|]. split; [apply keeps_others_refl|exact I]. }
  destruct Hsave as (V1 & V2 & V3 & V4 & V5).
  assert (Hpk : agent_pk a2 = agent_pk agent).
  { unfold identity_columns in V1, S1. congruence. }
  assert (Hpk1 : agent_pk a1 = agent_pk agent).
  { unfold identity_columns in S1. congruence. }
  rewrite Hpk1 in V5.
  pose proof (apply_features_shape content fields a2 applied1 d1) as Hf. cbv zeta in Hf.
  destruct (apply_features content fields a2 (applied1, d1)) as [ap2 d2].
  cbn [fst snd] in Hf. destruct Hf as (F1 & F2). rewrite Hpk in F2.
  pose proof (apply_use_cases_shape content fields a2 ap2 d2) as Hu. cbv zeta in Hu.
  destruct (apply_use_cases content fields a2 (ap2, d2)) as [ap3 d3].
  cbn [fst snd] in Hu. destruct Hu as (U1 & U2). rewrite Hpk in U2.
  pose proof (apply_category_shape env content fields a2 ap3 d3) as Hc.
  assert (K3 : keeps_others (agent_pk agent) d d3).
  { eapply keeps_others_trans; [exact V5|]. eapply keeps_others_trans; eassumption. }
  assert (Hslug : nonempty (agent_slug agent) = true -> agent_slug a2 = agent_slug agent).
  { intros Hs. rewrite V4; congruence. }
  destruct (apply_category env content fields a2 (ap3, d3)) as [e|[ap4 d4]];
    cbn [fst snd].
  { split; [congruence|]. split; [exact V2|]. split; [exact Hslug|].
    split; [exact K3|exact I]. }
  cbn [fst snd] in Hc. destruct Hc as (C1 & C2). rewrite Hpk in C2.
  pose proof (apply_logo_shape env result fields a2 ap4 d4) as Hl. cbv zeta in Hl.
  destruct (apply_logo env result fields a2 (ap4, d4)) as [[ap5 a5] d5].
  cbn [fst snd] in Hl. destruct Hl as (L1 & L2 & L3 & L4 & L5 & L6). rewrite Hpk in L4.
  assert (Hpk5 : agent_pk a5 = agent_pk agent).
  { unfold identity_columns in L1, V1, S1. congruence. }
  pose proof (apply_screenshot_shape env result fields a5 ap5 d5) as Hs. cbv zeta in Hs.
  destruct (apply_screenshot env result fields a5 (ap5, d5)) as [ap6 d6].
  cbn [fst snd] in Hs. destruct Hs as (H1 & H2). rewrite Hpk5 in H2.
  cbn [fst snd].
  split; [congruence|]. split; [congruence|].
  split; [intros Hne; rewrite L3; apply Hslug, Hne|].
  split.
  { eapply keeps_others_trans; [exact K3|]. eapply keeps_others_trans; [exact C2|].
    eapply keeps_others_trans; eassumption. }
  split.
  { exact (grows_trans _ _ _ _ _ _ F1
             (grows_trans _ _ _ _ _ _ U1
                (grows_trans _ _ _ _ _ _ C1 (grows_trans _ _ _ _ _ _ L5 H1)))). }
  intros Hne. destruct H1 as (later & -> & _). rewrite L6 by congruence.
  apply in_or_app. left. apply in_or_app. right. left. reflexivity.
Qed.

Lemma excluded_not_enrichable (f : string) :
  f ∈ EXCLUDED_FIELDS -> f ∉ ENRICHABLE_FIELDS.
Proof.
  unfold EXCLUDED_FIELDS, ENRICHABLE_FIELDS.
  rewrite !elem_of_list_to_set, !list_elem_of_In. cbn [In].
  intros Hx Hy.
  repeat (destruct Hx as [<-|Hx];
          [repeat (destruct Hy as [Hy|Hy]; [discriminate Hy|]); exact Hy|]).
  exact Hx.
Qed.

Lemma order_enrichable (x : string) : In x field_order -> x ∈ ENRICHABLE_FIELDS.
Proof.
  unfold ENRICHABLE_FIELDS. rewrite elem_of_list_to_set, list_elem_of_In.
  cbn [field_order simple_names later_names app In]. intuition.
Qed.

Lemma order_NoDup : NoDup field_order.
Proof. apply (bool_decide_unpack _). vm_compute. exact I. Qed.

(** A name that is not enrichable stops [enrich_agent] before anything
    else happens. *)
Lemma enrich_agent_invalid `{UrlLib} (env : Env) (q : Queries) (agent : Agent)
    (fields : list string) (st : StB) (f : string) :
  In f fields -> f ∉ ENRICHABLE_FIELDS ->
  enrich_agent env q agent fields st
  = (inl (EnrichmentError
            ("Invalid fields: "
             +:+ repr_set q (list_to_set fields ∖ ENRICHABLE_FIELDS))),
     agent, st).
Proof.
  intros Hin Hout. unfold enrich_agent.
  assert (E1 : bool_decide (fields = []) = false).
  { apply bool_decide_eq_false_2. intros ->. destruct Hin. }
  assert (E2 : bool_decide ((list_to_set fields : gset string) ∖ ENRICHABLE_FIELDS = ∅)
               = false).
  { apply bool_decide_eq_false_2. intros Heq.
    assert (Hf : f ∈ (list_to_set fields : gset string) ∖ ENRICHABLE_FIELDS).
    { apply elem_of_difference. split; [|exact Hout].
      apply elem_of_list_to_set, list_elem_of_In, Hin. }
    rewrite Heq in Hf. apply elem_of_empty in Hf. exact Hf. }
  rewrite E1, E2. reflexivity.
Qed.

(** What [enrich_agent] does to the object, the tables and the logs. *)
Lemma enrich_agent_shape `{UrlLib} (env : Env) (q : Queries) (agent : Agent)
    (fields : list string) (st : StB) :
  let out := enrich_agent env q agent fields st in
  let agent' := snd (fst out) in
  let st' := snd out in
  identity_columns agent' = identity_columns agent
  /\ (nonempty (agent_slug agent) = true -> agent_slug agent' = agent_slug agent)
  /\ keeps_others (agent_pk agent) (db (base st)) (db (base st'))
  /\ (trace (base st') = trace (base st)
      \/ trace (base st') = trace (base st) ++ [EvScrape (agent_website_ agent)])
  /\ match fst (fst out) with
     | inl _ =>
         db (base st') = db (base st) /\ enrichment_logs st' = enrichment_logs st
     | inr l =>
         enrichment_logs st' = enrichment_logs st ++ [l]
         /\ log_agent l = agent_pk agent
         /\ previous_data l = _capture_agent_state q (db (base st)) agent
         /\ (exists result, extracted_data l = Some result
                            /\ success result = log_success l)
         /\ (log_success l = false ->
             applied_fields l = [] /\ agent' = agent /\ db (base st') = db (base st))
     end.
Proof.
  cbv zeta. unfold enrich_agent.
  destruct (negb (bool_decide (fields = [])) && negb (bool_decide (_ = ∅))).
  { cbn [fst snd]. split; [reflexivity|]. split; [reflexivity|].
    split; [apply keeps_others_refl|]. split; [left; reflexivity|]. split; reflexivity. }
  pose proof (EnrichmentSpec.enrich_state env (agent_website_ agent) (base st)) as Hst.
  destruct (enrich env (agent_website_ agent) (base st)) as [result st1].
  cbn [snd] in Hst. subst st1.
  destruct (success result) eqn:Hs; cbn [negb].
  2:{ cbn [fst snd base db trace add_log enrichment_logs log log_agent previous_data
           log_success applied_fields extracted_data].
      split; [reflexivity|]. split; [reflexivity|].
      split; [apply keeps_others_refl|]. split; [right; reflexivity|].
      split; [reflexivity|]. split; [reflexivity|]. split; [reflexivity|].
      split; [exists result; auto|]. intros _. repeat split. }
  set (asked := if bool_decide (fields = []) then ENRICHABLE_FIELDS else list_to_set fields).
  pose proof (apply_fields_shape env agent result asked (db (log (EvScrape (agent_website_ agent)) (base st))))
    as Hap.
  cbv zeta in Hap.
  destruct (_apply_fields_to_agent env agent result asked
              (db (log (EvScrape (agent_website_ agent)) (base st))))
    as [[[e|applied] a'] d'].
  - cbn [fst snd] in Hap. destruct Hap as (A1 & _ & A3 & _).
    cbn [fst snd base db trace log enrichment_logs].
    split; [exact A1|]. split; [exact A3|]. split; [apply keeps_others_refl|].
    split; [right; reflexivity|]. split; reflexivity.
  - cbn [fst snd] in Hap. destruct Hap as (A1 & _ & A3 & A4 & _).
    cbn [fst snd base db trace add_log enrichment_logs log log_agent previous_data
         log_success applied_fields extracted_data] in *.
    split; [exact A1|]. split; [exact A3|]. split; [exact A4|].
    split; [right; reflexivity|]. split; [reflexivity|].
    split; [unfold identity_columns in A1; congruence|]. split; [reflexivity|].
    split; [exists result; auto|]. discriminate.
Qed.

(** What a log of [enrich_agent] lists. *)
Lemma enrich_agent_applied `{UrlLib} (env : Env) (q : Queries) (agent : Agent)
    (fields : list string) (st : StB) (l : EnrichmentLog) :
  fst (fst (enrich_agent env q agent fields st)) = inr l ->
  let agent' := snd (fst (enrich_agent env q agent fields st)) in
  exists (result : EnrichmentResult) (asked : gset string) (later : list string),
    extracted_data l = Some result
    /\ asked = (if bool_decide (fields = []) then ENRICHABLE_FIELDS else list_to_set fields)
    /\ let simple :=
         apply_simple_fields agent
           (match content_data result with Some c => c | None => empty_content end) asked in
       (log_success l = true ->
        applied_fields l = snd simple ++ later
        /\ simple_columns agent' = simple_columns (fst simple))
       /\ sublist later later_names
       /\ Forall (fun x => x ∈ asked) (applied_fields l)
       /\ sublist (applied_fields l) field_order
       /\ incl (changed_columns agent agent') (applied_fields l).
Proof.
  cbv zeta. unfold enrich_agent.
  destruct (negb (bool_decide (fields = [])) && negb (bool_decide (_ = ∅)));
    [discriminate|].
  destruct (enrich env (agent_website_ agent) (base st)) as [result st1].
  set (asked := if bool_decide (fields = []) then ENRICHABLE_FIELDS else list_to_set fields).
  destruct (success result) eqn:Hs; cbn [negb].
  2:{ cbn [fst snd]. intros [= <-]. exists result, asked, [].
      cbn [extracted_data applied_fields log_success].
      split; [reflexivity|]. split; [reflexivity|].
      split; [discriminate|]. split; [apply sublist_nil_l|]. split; [constructor|].
      split; [apply sublist_nil_l|].
      unfold changed_columns. rewrite !changed_same. apply incl_refl. }
  pose proof (apply_fields_shape env agent result asked (db st1)) as Hap.
  cbv zeta in Hap.
  pose proof (apply_simple_fields_shape agent
                (match content_data result with Some c => c | None => empty_content end)
                asked) as Hsim.
  cbv zeta in Hsim. destruct Hsim as (S1 & S2 & S3 & S4 & S5 & S6).
  destruct (_apply_fields_to_agent env agent result asked (db st1))
    as [[[e|applied] a'] d']; [discriminate|].
  cbn [fst snd] in *. intros [= <-].
  destruct Hap as (A1 & A2 & _ & _ & (later & -> & G1 & G2) & A5).
  exists result, asked, later. cbn [extracted_data applied_fields log_success].
  split; [reflexivity|]. split; [reflexivity|]. split; [auto|]. split; [exact G1|].
  split; [apply List.Forall_app; auto|].
  split; [apply sublist_app; assumption|].
  intros x Hx.
  destruct (changed_columns_split agent _ a' A2 S3 x Hx) as [Hc|Hc].
  - apply in_or_app. left. apply S6, Hc.
  - unfold changed in Hc.
    destruct (bool_decide (agent_logo agent = agent_logo a')) eqn:E; [destruct Hc|].
    destruct Hc as [<-|[]]. apply A5.
    intros Heq. rewrite (bool_decide_eq_true_2 _ (eq_sym Heq)) in E. discriminate.
Qed.

Lemma simple_columns_short (a b : Agent) :
  simple_columns a = simple_columns b ->
  agent_short_description a = agent_short_description b.
Proof. unfold simple_columns. intros [= E _ _ _ _ _ _ _]. exact E. Qed.

Lemma later_not_simple (later : list string) :
  sublist later later_names -> ~ In "short_description" later.
Proof.
  intros Hs Hin. apply list_elem_of_In in Hin.
  pose proof (elem_of_sublist _ _ _ Hin Hs) as Hl. apply list_elem_of_In in Hl.
  cbn [later_names In] in Hl. intuition discriminate.
Qed.

Lemma filter_weaken {A} (p r : A -> bool) (l l' : list A) :
  (forall x, p x = true -> r x = true) ->
  List.filter r l' = List.filter r l -> List.filter p l' = List.filter p l.
Proof.
  intros Himp Heq.
  assert (Hff : forall m, List.filter p (List.filter r m) = List.filter p m).
  { induction m as [|x m IH]; [reflexivity|]. cbn [List.filter].
    destruct (r x) eqn:Er; cbn [List.filter].
    - rewrite IH. reflexivity.
    - destruct (p x) eqn:Ep; [rewrite (Himp x Ep) in Er; discriminate|exact IH]. }
  rewrite <- (Hff l'), <- (Hff l), Heq. reflexivity.
Qed.

Lemma keeps_rows_outside (k : Z) (ks : list Z) (d d' : Db) :
  In k ks -> keeps_others k d d' -> rows_outside ks d' = rows_outside ks d.
Proof.
  intros Hin (_ & _ & Hk). unfold rows_outside.
  apply filter_weaken with (r := fun b => negb (Z.eqb (agent_pk b) k)); [|exact Hk].
  intros x Hx. apply negb_true_iff. apply negb_true_iff in Hx.
  destruct (Z.eqb (agent_pk x) k) eqn:E; [|reflexivity].
  rewrite <- Hx. symmetry. apply existsb_exists. exists k. split; [exact Hin|exact E].
Qed.

Lemma rows_outside_weaken (k : Z) (ks : list Z) (d d' : Db) :
  rows_outside ks d' = rows_outside ks d ->
  rows_outside (k :: ks) d' = rows_outside (k :: ks) d.
Proof.
  unfold rows_outside. apply filter_weaken. intros x Hx.
  cbn [existsb] in Hx. apply negb_true_iff in Hx. apply orb_false_iff in Hx.
  apply negb_true_iff. tauto.
Qed.

(** One step of the loop of [enrich_agents]. *)
Lemma enrich_agents_step `{UrlLib} (env : Env) (q : Queries) (agent : Agent)
    (fields : list string) (st : StB) :
  let step :=
    match enrich_agent env q agent fields st with
    | (inr l, _, st) => (l, st)
    | (inl e, agent, st) =>
        let l := mkEnrichmentLog (agent_pk agent)
                   (_capture_agent_state q (db (base st)) agent) None [] false
                   (Some (str_of_exn e)) in
        (l, add_log l st)
    end in
  log_agent (fst step) = agent_pk agent
  /\ enrichment_logs (snd step) = enrichment_logs st ++ [fst step]
  /\ keeps_others (agent_pk agent) (db (base st)) (db (base (snd step))).
Proof.
  cbv zeta. pose proof (enrich_agent_shape env q agent fields st) as Hsh.
  cbv zeta in Hsh.
  destruct (enrich_agent env q agent fields st) as [[[e|l] a'] st'];
    cbn [fst snd] in *.
  - destruct Hsh as (A1 & _ & A3 & _ & A5 & A6).
    cbn [log_agent add_log enrichment_logs base].
    split; [unfold identity_columns in A1; congruence|]. split; [congruence|exact A3].
  - destruct Hsh as (_ & _ & A3 & _ & A5 & A6 & _). auto.
Qed.

Lemma find_in {A} (p : A -> bool) (l : list A) (x : A) :
  List.find p l = Some x -> In x l.
Proof. intros Hf. apply List.find_some in Hf. tauto. Qed.

Lemma find_none_existsb {A} (p : A -> bool) (l : list A) :
  List.find p l = None -> existsb p l = false.
Proof.
  induction l as [|x l IH]; [reflexivity|]. cbn [List.find existsb].
  destruct (p x); [discriminate|exact IH].
Qed.

(** *** Properties of the enrichment of existing entries *)

(** X24.  None of the excluded fields is enrichable, and [enrich_agent]
    called with a list that holds a field that is not enrichable raises
    [EnrichmentError] naming the invalid fields, before it scrapes: the
    object, the tables, the trace and the logs are as they were. *)
Theorem invalid_field_is_refused `{UrlLib} (env : Env) (q : Queries) (agent : Agent)
    (fields : list string) (st : StB) (f : string) :
  In f fields ->
  (f ∈ EXCLUDED_FIELDS) \/ (f ∉ ENRICHABLE_FIELDS) ->
  (f ∉ ENRICHABLE_FIELDS)
  /\ enrich_agent env q agent fields st
     = (inl (EnrichmentError
               ("Invalid fields: "
                +:+ repr_set q (list_to_set fields ∖ ENRICHABLE_FIELDS))),
        agent, st).
Proof.
  intros Hin Hf.
  assert (Hout : f ∉ ENRICHABLE_FIELDS).
  { destruct Hf as [Hf|Hf]; [apply excluded_not_enrichable, Hf|exact Hf]. }
  split; [exact Hout|]. eapply enrich_agent_invalid; eassumption.
Qed.


(** X26.  The [applied_fields] of the log that [enrich_agent] returns are
    enrichable fields in the order of the code (the simple fields in the
    order of the dict, then features, use cases, category, logo and
    screenshot), each at most once; when a list of fields was given, each
    of them is in that list; and every column of the object among the simple
    fields and the logo whose value differs from the one before the call is
    listed. *)
Theorem applied_fields_list_the_changes `{UrlLib} (env : Env) (q : Queries)
    (agent : Agent) (fields : list string) (st : StB) (l : EnrichmentLog) :
  fst (fst (enrich_agent env q agent fields st)) = inr l ->
  let agent' := snd (fst (enrich_agent env q agent fields st)) in
  sublist (applied_fields l) field_order
  /\ NoDup (applied_fields l)
  /\ (forall x, In x (applied_fields l) ->
                x ∈ ENRICHABLE_FIELDS /\ (fields <> [] -> In x fields))
  /\ incl (changed_columns agent agent') (applied_fields l).
Proof.
  intros Hl. cbv zeta.
  destruct (enrich_agent_applied env q agent fields st l Hl)
    as (result & asked & later & _ & Hasked & _ & _ & Hask & Hsub & Hincl).
  split; [exact Hsub|]. split.
  { eapply sublist_NoDup; [|exact Hsub]. apply order_NoDup. }
  split; [|exact Hincl].
  intros x Hx. split.
  - apply order_enrichable. apply list_elem_of_In.
    eapply elem_of_sublist; [|exact Hsub]. apply list_elem_of_In, Hx.
  - intros Hne. rewrite List.Forall_forall in Hask. specialize (Hask x Hx).
    rewrite Hasked in Hask. rewrite bool_decide_eq_false_2 in Hask by exact Hne.
    apply elem_of_list_to_set in Hask. apply list_elem_of_In, Hask.
Qed.

(** X27.  When the log of [enrich_agent] lists [short_description], the
    extraction held a short description that is not empty, and the column of
    the object is its first 250 characters. *)
Theorem applied_short_description `{UrlLib} (env : Env) (q : Queries)
    (agent : Agent) (fields : list string) (st : StB) (l : EnrichmentLog) :
  fst (fst (enrich_agent env q agent fields st)) = inr l ->
  In "short_description" (applied_fields l) ->
  let agent' := snd (fst (enrich_agent env q agent fields st)) in
  exists (result : EnrichmentResult) (content : ContentData) (s : string),
    extracted_data l = Some result
    /\ content_data result = Some content
    /\ short_description content = Present s
    /\ s <> EmptyString
    /\ agent_short_description agent' = take 250 s
    /\ (String.length (agent_short_description agent') <= 250)%nat.
Proof.
  intros Hl Hin. cbv zeta.
  destruct (enrich_agent_applied env q agent fields st l Hl)
    as (result & asked & later & Hres & _ & Hok & Hlater & _ & _ & _).
  destruct (log_success l) eqn:Hs.
  2:{ pose proof (enrich_agent_shape env q agent fields st) as Hsh. cbv zeta in Hsh.
      rewrite Hl in Hsh. destruct Hsh as (_ & _ & _ & _ & _ & _ & _ & _ & Hf).
      destruct (Hf Hs) as (Hnil & _). rewrite Hnil in Hin. destruct Hin. }
  destruct (Hok eq_refl) as (Happ & Hcols). clear Hok.
  rewrite Happ in Hin. apply in_app_or in Hin.
  destruct Hin as [Hin|Hin]; [|exfalso; exact (later_not_simple later Hlater Hin)].
  set (content := match content_data result with Some c => c | None => empty_content end)
    in *.
  apply simple_columns_short in Hcols. rename Hcols into Hsd.
  unfold apply_simple_fields in Hin, Hsd. cbn [fst snd agent_short_description] in Hin, Hsd.
  rewrite !in_app_iff, !applied_name_in in Hin.
  destruct Hin as [[_ Hn]|Hin];
    [|repeat (destruct Hin as [[Hd _]|Hin]; [discriminate Hd|]);
      destruct Hin as [Hd _]; discriminate Hd].
  destruct (simple_value asked "short_description"
              (option_map (take 250) (keep_nonempty (short_description content))))
    as [v|] eqn:Ev; [|congruence].
  apply simple_value_some in Ev. destruct Ev as (_ & Ev).
  destruct (keep_nonempty (short_description content)) as [s|] eqn:Ek; [|discriminate].
  cbn [option_map] in Ev. apply (inj Some) in Ev. subst v.
  apply keep_nonempty_spec in Ek. destruct Ek as (Hp & Hne).
  cbn [or_old] in Hsd.
  assert (Hc : content_data result = Some content).
  { unfold content in *. destruct (content_data result) as [c|]; [reflexivity|].
    cbn [empty_content short_description] in Hp. discriminate. }
  exists result, content, s. rewrite Hsd.
  repeat (split; [assumption|]). split; [reflexivity|]. apply CreationExtra.length_take.
Qed.

(** X28.  [enrich_agents] returns one log for each entry given, in their
    order, and these are the rows it adds to the logs; the submissions, the
    runs and the rows of the entries that were not given are as they
    were. *)
Theorem enrich_agents_one_log_each `{UrlLib} (env : Env) (q : Queries)
    (agents : list Agent) (fields : list string) (st : StB) :
  let out := enrich_agents env q agents fields st in
  List.map log_agent (fst out) = List.map agent_pk agents
  /\ enrichment_logs (snd out) = enrichment_logs st ++ fst out
  /\ submissions (db (base (snd out))) = submissions (db (base st))
  /\ sourcing_runs (db (base (snd out))) = sourcing_runs (db (base st))
  /\ rows_outside (List.map agent_pk agents) (db (base (snd out)))
     = rows_outside (List.map agent_pk agents) (db (base st)).
Proof.
  cbv zeta. revert st. induction agents as [|agent rest IH]; intros st.
  - cbn [enrich_agents fst snd List.map]. rewrite app_nil_r. repeat split.
  - cbn [enrich_agents].
    pose proof (enrich_agents_step env q agent fields st) as Hstep. cbv zeta in Hstep.
    destruct (match enrich_agent env q agent fields st with
              | (inr l, _, st0) => (l, st0)
              | (inl e, agent0, st0) => _
              end) as [l st1].
    cbn [fst snd] in Hstep. destruct Hstep as (P1 & P2 & P3).
    specialize (IH st1).
    destruct (enrich_agents env q rest fields st1) as [logs st2].
    cbn [fst snd List.map] in *. destruct IH as (I1 & I2 & I3 & I4 & I5).
    split; [congruence|].
    split; [rewrite I2, P2, <- List.app_assoc; reflexivity|].
    pose proof P3 as (Q1 & Q2 & _).
    split; [congruence|]. split; [congruence|].
    rewrite (rows_outside_weaken _ _ _ _ I5).
    apply (keeps_rows_outside (agent_pk agent)); [left; reflexivity|exact P3].
Qed.

(** X29.  [enrich_agents] called with a list that holds a field that is
    not enrichable scrapes nothing and changes no table: every log it
    returns is a failure that lists no field, has no extracted data, and
    carries the message of the [EnrichmentError]. *)
Theorem invalid_batch_scrapes_nothing `{UrlLib} (env : Env) (q : Queries)
    (agents : list Agent) (fields : list string) (st : StB) (f : string) :
  In f fields -> f ∉ ENRICHABLE_FIELDS ->
  let out := enrich_agents env q agents fields st in
  base (snd out) = base st
  /\ Forall (fun l =>
               log_success l = false /\ applied_fields l = []
               /\ extracted_data l = None
               /\ log_error_message l
                  = Some ("Invalid fields: "
                          +:+ repr_set q (list_to_set fields ∖ ENRICHABLE_FIELDS)))
            (fst out).
Proof.
  intros Hin Hout. cbv zeta. revert st.
  induction agents as [|agent rest IH]; intros st.
  - cbn [enrich_agents fst snd]. split; [reflexivity|constructor].
  - cbn [enrich_agents].
    rewrite (enrich_agent_invalid env q agent fields st f Hin Hout).
    specialize (IH (add_log
                      (mkEnrichmentLog (agent_pk agent)
                         (_capture_agent_state q (db (base st)) agent) None [] false
                         (Some (str_of_exn
                                  (EnrichmentError
                                     ("Invalid fields: "
                                      +:+ repr_set q
                                            (list_to_set fields ∖ ENRICHABLE_FIELDS))))))
                      st)).
    destruct (enrich_agents env q rest fields _) as [logs st2].
    cbn [fst snd] in *. destruct IH as (I1 & I2).
    split; [exact I1|]. constructor; [|exact I2]. repeat split.
Qed.

(** X30.  [_get_image_extension] returns one of [.png], [.jpg], [.gif],
    [.webp] and [.svg], never [.jpeg]; it raises only when the content type
    holds none of the five known types and [urlparse] refuses the address;
    and a content type that holds a known type decides alone, whatever the
    address is. *)
Theorem image_extension_is_known `{UrlLib} (url content_type : string) :
  match _get_image_extension url content_type with
  | Some ext => In ext stored_extensions
  | None => urlparse url = None /\ known_type content_type = false
  end
  /\ (known_type content_type = true ->
      forall url', _get_image_extension url' content_type
                   = _get_image_extension url content_type).
Proof.
  unfold _get_image_extension, known_type.
  destruct (List.find (fun p => contains content_type (fst p)) type_map)
    as [[mime ext]|] eqn:Ef.
  - split; [|reflexivity]. apply find_in in Ef. cbn [type_map In] in Ef.
    unfold stored_extensions. cbn [In].
    repeat (destruct Ef as [[= _ <-]|Ef]; [tauto|]). destruct Ef.
  - rewrite (find_none_existsb _ _ Ef). split; [|discriminate].
    destruct (urlparse url) as [parsed|]; [|auto].
    destruct (List.find _ url_extensions) as [ext|] eqn:Eu;
      [|unfold stored_extensions; cbn [In]; tauto].
    apply find_in in Eu. cbn [url_extensions In] in Eu.
    unfold stored_extensions. cbn [In].
    repeat (destruct Eu as [<-|Eu]; [cbn; tauto|]). destruct Eu.
Qed.

End FlowBExtra.

(** ** Evaluations of the further properties on concrete inputs *)

Module ConcreteExtra.
Import PyStr UrlParse UrlShape Filters Base.

#[local] Existing Instance lenient_urllib.

Lemma classification_ignores_case_witness :
  get_url_classification Examples.aggregator_settings
    "HTTPS://WWW.YCombinator.com/Companies/Foo"
  = get_url_classification Examples.aggregator_settings
      "https://www.ycombinator.com/companies/foo".
Proof.
  exact (proj1 (FiltersExtra.classification_ignores_case Examples.aggregator_settings
                  "https://www.ycombinator.com/companies/foo"
                  "HTTPS://WWW.YCombinator.com/Companies/Foo" eq_refl)).
Defined.

Lemma creation_keeps_directory_unique_witness :
  Frames.directory_unique
    (World.db (snd (Enrichment.create_agent_from_submission
                      (Examples.reviewing_env (World.Raised "unused"))
                      Examples.enriched_bar (World.mkSt Examples.listed_db []))))
  /\ In Examples.bar_agent
        (Models.agents
           (World.db (snd (Enrichment.create_agent_from_submission
                             (Examples.reviewing_env (World.Raised "unused"))
                             Examples.enriched_bar (World.mkSt Examples.listed_db []))))).
Proof.
  apply (CreationExtra.creation_keeps_directory_unique
           (Examples.reviewing_env (World.Raised "unused")) Examples.enriched_bar
           (World.mkSt Examples.listed_db []) Examples.bar_agent).
  - unfold Frames.directory_unique. cbn.
    repeat split; try apply NoDup_singleton.
    constructor; [reflexivity|constructor].
  - reflexivity.
Defined.

Lemma null_content_aborts_creation_witness :
  Enrichment.create_agent_from_submission
    (Examples.reviewing_env (World.Raised "unused")) Examples.enriched_null
    (World.mkSt Examples.listed_db [])
  = (inl (World.TypeError "'NoneType' object is not subscriptable"),
     World.mkSt Examples.listed_db []).
Proof.
  refine (proj1 (CreationExtra.null_content_aborts_creation
                   (Examples.reviewing_env (World.Raised "unused")) Examples.enriched_null
                   (World.mkSt Examples.listed_db [])
                   (Models.of_result Examples.null_result) Examples.null_result
                   Examples.null_content eq_refl eq_refl eq_refl eq_refl _) eq_refl).
  intros b [<-|[]]. reflexivity.
Defined.

Lemma unparseable_candidate_aborts_run_witness :
  normalize_url (website Examples.bracket_candidate) = None
  /\ Models.run_success
       (fst (Sourcing.run default_settings Examples.offline_env Examples.bracket_source
               10 false (World.mkSt Models.empty_db []))) = false.
Proof.
  split; [reflexivity|].
  destruct (SourcingExtra.unparseable_candidate_aborts_run default_settings
              Examples.offline_env Examples.bracket_source 10 false
              (World.mkSt Models.empty_db [])
              [Examples.first_candidate; Examples.bracket_candidate]
              Examples.bracket_candidate eq_refl (or_intror (or_introl eq_refl)))
    as [_ Hrun].
  - vm_compute. discriminate.
  - reflexivity.
  - exact (proj1 Hrun).
Defined.

Lemma created_submissions_shape_witness :
  Models.submissions (snd Examples.example_batch)
  = Models.submissions Models.empty_db ++ fst Examples.example_batch.
Proof.
  apply (SourcingExtra.created_submissions_shape default_settings
           [Examples.first_candidate; Examples.second_candidate] "serp" Models.empty_db
           (fst Examples.example_batch) (snd Examples.example_batch)).
  vm_compute. reflexivity.
Defined.

Lemma reprocessing_creates_nothing_witness :
  Sourcing._process_discoveries default_settings
    [Examples.first_candidate; Examples.second_candidate] "serp"
    (snd Examples.example_batch)
  = inr ([], snd Examples.example_batch).
Proof.
  apply (SourcingExtra.reprocessing_creates_nothing default_settings
           [Examples.first_candidate; Examples.second_candidate] "serp" Models.empty_db
           (fst Examples.example_batch)).
  - vm_compute. reflexivity.
  - intros a [<-|[<-|[]]]; apply Nat.leb_le; reflexivity.
Defined.

Lemma gateway_failure_is_flagged_witness :
  Models.needs_manual_review
    (fst (Review.review_submission Examples.offline_env (Review.__init__ (Some 0%Q))
            Examples.pending_submission true (World.mkSt Examples.pending_db [])))
  = true.
Proof.
  destruct (ReviewExtra.gateway_failure_is_flagged Examples.offline_env (Some 0%Q)
              Examples.pending_submission true (World.mkSt Examples.pending_db [])
              "connection refused")
    as (_ & _ & _ & Hflag & _).
  - intros prompt. reflexivity.
  - apply Qle_refl.
  - exact Hflag.
Defined.

Lemma prompt_reads_at_most_4000_witness :
  Review._build_review_prompt "Foo" "https://foo.ai" None
    (Some (Examples.long_page "first ending"))
  = Review._build_review_prompt "Foo" "https://foo.ai" None
      (Some (Examples.long_page "another, longer ending")).
Proof.
  refine (proj1 (ReviewExtra.prompt_reads_at_most_4000 "Foo" "https://foo.ai" None
                   (Examples.long_page "first ending")
                   (Examples.long_page "another, longer ending") _ _ _)).
  - apply Nat.ltb_lt. vm_compute. reflexivity.
  - apply Nat.ltb_lt. vm_compute. reflexivity.
  - vm_compute. reflexivity.
Defined.

Lemma approve_one_outcome_witness :
  In Examples.bar_agent
     (Models.agents
        (World.db (snd (Approve.approve_one (Examples.reviewing_env (World.Raised "unused"))
                          Examples.enriched_bar
                          (Approve.mkTally 0 0 0, World.mkSt Examples.approval_db []))))).
Proof.
  destruct (ApproveExtra.approve_one_outcome (Examples.reviewing_env (World.Raised "unused"))
              Examples.enriched_bar (Approve.mkTally 0 0 0)
              (World.mkSt Examples.approval_db []) Examples.enriched_bar eq_refl)
    as (_ & _ & Hok).
  destruct (Hok Examples.bar_agent eq_refl) as (_ & Hin & _). exact Hin.
Defined.

Lemma sourced_submission_is_reviewed_unenriched_witness :
  Tasks.reviewed
    (fst (Tasks.review_submissions_batch_task
            (Examples.reviewing_env (World.Returned Examples.confident_approval))
            [1%Z] false (World.mkSt (snd Examples.example_batch) [])))
  = 1%nat.
Proof.
  exact (proj1 (TasksExtra.sourced_submission_is_reviewed_unenriched
                  (Examples.reviewing_env (World.Returned Examples.confident_approval))
                  1 "serp" Examples.first_candidate "normal" false
                  (World.mkSt (snd Examples.example_batch) []) eq_refl)).
Defined.

Lemma run_bookkeeping_witness :
  Models.run_success
    (fst (Sourcing.run default_settings Examples.keyless_env Examples.single_source 10
            true (World.mkSt Models.empty_db [])))
  = false
  /\ Models.created_submission_ids
       (fst (Sourcing.run default_settings Examples.keyless_env Examples.single_source 10
               true (World.mkSt Models.empty_db [])))
     = [1%Z]
  /\ World.EnrichmentService_init Examples.keyless_env
     = World.Raised
         (Models.run_error_message
            (fst (Sourcing.run default_settings Examples.keyless_env
                    Examples.single_source 10 true (World.mkSt Models.empty_db [])))).
Proof.
  pose proof (SourcingExtra.run_bookkeeping default_settings Examples.keyless_env
                Examples.single_source 10 true (World.mkSt Models.empty_db [])) as Hb.
  cbv zeta in Hb. destruct Hb as (_ & _ & _ & _ & _ & _ & _ & _ & Hf).
  assert (Hs : Models.run_success
                 (fst (Sourcing.run default_settings Examples.keyless_env
                         Examples.single_source 10 true (World.mkSt Models.empty_db [])))
               = false) by (vm_compute; reflexivity).
  destruct (Hf Hs) as [(Hn & _)|(_ & _ & Hi & _)].
  - vm_compute in Hn. discriminate Hn.
  - split; [exact Hs|]. split; [vm_compute; reflexivity|exact Hi].
Defined.

Lemma invalid_field_is_refused_witness :
  ("slug" ∉ FlowB.ENRICHABLE_FIELDS)
  /\ FlowB.enrich_agent Examples.scraping_env Examples.plain_queries Examples.foo_agent
       ["slug"] Examples.listed_state
     = (inl (World.EnrichmentError
               ("Invalid fields: "
                +:+ FlowB.repr_set Examples.plain_queries
                      (list_to_set ["slug"] ∖ FlowB.ENRICHABLE_FIELDS))),
        Examples.foo_agent, Examples.listed_state).
Proof.
  apply (FlowBExtra.invalid_field_is_refused Examples.scraping_env Examples.plain_queries
           Examples.foo_agent ["slug"] Examples.listed_state "slug").
  - left. reflexivity.
  - left. apply (bool_decide_unpack _). vm_compute. exact I.
Defined.

Lemma applied_fields_list_the_changes_witness :
  sublist (FlowB.applied_fields Examples.foo_log) FlowB.field_order
  /\ NoDup (FlowB.applied_fields Examples.foo_log)
  /\ (forall x, In x (FlowB.applied_fields Examples.foo_log) ->
                x ∈ FlowB.ENRICHABLE_FIELDS
                /\ (["short_description"; "logo"] <> [] ->
                    In x ["short_description"; "logo"]))
  /\ incl (FlowB.changed_columns Examples.foo_agent
             (snd (fst (FlowB.enrich_agent Examples.scraping_env Examples.plain_queries
                          Examples.foo_agent ["short_description"; "logo"]
                          Examples.listed_state))))
          (FlowB.applied_fields Examples.foo_log).
Proof.
  apply (FlowBExtra.applied_fields_list_the_changes Examples.scraping_env
           Examples.plain_queries Examples.foo_agent ["short_description"; "logo"]
           Examples.listed_state Examples.foo_log).
  vm_compute. reflexivity.
Defined.

Lemma applied_short_description_witness :
  exists (result : Models.EnrichmentResult) (content : Models.ContentData) (s : string),
    FlowB.extracted_data Examples.foo_log = Some result
    /\ Models.content_data result = Some content
    /\ Models.short_description content = Models.Present s
    /\ s <> EmptyString
    /\ Models.agent_short_description
         (snd (fst (FlowB.enrich_agent Examples.scraping_env Examples.plain_queries
                      Examples.foo_agent ["short_description"; "logo"]
                      Examples.listed_state)))
       = take 250 s
    /\ (String.length
          (Models.agent_short_description
             (snd (fst (FlowB.enrich_agent Examples.scraping_env Examples.plain_queries
                          Examples.foo_agent ["short_description"; "logo"]
                          Examples.listed_state))))
        <= 250)%nat.
Proof.
  apply (FlowBExtra.applied_short_description Examples.scraping_env
           Examples.plain_queries Examples.foo_agent ["short_description"; "logo"]
           Examples.listed_state Examples.foo_log).
  - vm_compute. reflexivity.
  - left. reflexivity.
Defined.

Lemma invalid_batch_scrapes_nothing_witness :
  FlowB.base (snd (FlowB.enrich_agents Examples.scraping_env Examples.plain_queries
                     [Examples.foo_agent; Examples.bar_agent] ["logo"; "name"]
                     Examples.listed_state))
  = FlowB.base Examples.listed_state
  /\ Forall (fun l =>
               FlowB.log_success l = false /\ FlowB.applied_fields l = []
               /\ FlowB.extracted_data l = None
               /\ FlowB.log_error_message l
                  = Some ("Invalid fields: "
                          +:+ FlowB.repr_set Examples.plain_queries
                                (list_to_set ["logo"; "name"] ∖ FlowB.ENRICHABLE_FIELDS)))
            (fst (FlowB.enrich_agents Examples.scraping_env Examples.plain_queries
                    [Examples.foo_agent; Examples.bar_agent] ["logo"; "name"]
                    Examples.listed_state)).
Proof.
  apply (FlowBExtra.invalid_batch_scrapes_nothing Examples.scraping_env
           Examples.plain_queries [Examples.foo_agent; Examples.bar_agent]
           ["logo"; "name"] Examples.listed_state "name").
  - right. left. reflexivity.
  - apply (bool_decide_unpack _). vm_compute. exact I.
Defined.

End ConcreteExtra.
